(** * Session lifecycle manager and checkpointed sequence executor

    A shallow embedding of [src/server.py]: the [SessionManager] class
    (in-memory session store, per-session asset metadata mirrored to
    [metadata.json]), the [/api/sessions/...] endpoints that close a session,
    run an action sequence and sweep old sessions, and the properties the
    specification states about them.

    Conventions of the embedding:
    - the module-level [session_manager.sessions] dict, the session
      directories on disk and the calls issued to the browser engine make up
      one explicit [World], threaded through every operation;
    - a Python exception is an [Outcome] of [Raise]; the world that comes with
      it holds the mutations made before the exception was raised;
    - the browser engine (Playwright) is not part of the repository: it is a
      parameter [eng] that decides, from the calls issued so far, whether the
      next call returns or raises;
    - clock readings ([time.time()], [datetime.now()]) are integer
      microseconds since the epoch, read from the [clock] of the world; an
      ISO timestamp string is identified with the reading it prints. *)

From Stdlib Require Import Ascii String.
From stdpp Require Import gmap strings list fin_maps pretty.

Open Scope string_scope.
Open Scope list_scope.

(** ** Strings: the pieces of Python string formatting the code uses *)

(** [s.replace(a, b)] for one-character [a] and [b]. *)
Fixpoint replace_char (a b : Ascii.ascii) (s : string) : string :=
  match s with
  | EmptyString => EmptyString
  | String c s' => String (if Ascii.eqb c a then b else c) (replace_char a b s')
  end.

(** [s.replace(" ", "_")]. *)
Definition replace_spaces (s : string) : string :=
  replace_char " "%char "_"%char s.

(** [f"{n:03d}"] for a non-negative [n]: decimal, zero-padded to width 3. *)
Definition format_03d (n : nat) : string :=
  let s := pretty n in
  match String.length s with
  | 0 => "000" +:+ s
  | 1 => "00" +:+ s
  | 2 => "0" +:+ s
  | _ => s
  end.

(** [s.endswith(suffix)]. *)
Definition endswith (s suffix : string) : bool :=
  let n := String.length s in
  let k := String.length suffix in
  (k <=? n)%nat && String.eqb (String.substring (n - k) k s) suffix.

(** [c in s] for a character [c]. *)
Fixpoint contains_char (c : Ascii.ascii) (s : string) : bool :=
  match s with
  | EmptyString => false
  | String c' s' => Ascii.eqb c' c || contains_char c s'
  end.

(** [int(t)] for a clock reading [t] in microseconds: whole seconds,
    truncated toward zero. *)
Definition int_seconds (t : Z) : Z := Z.quot t 1000000.

(** ** Data model *)

(** The three asset lists of a session's metadata. *)
Inductive AssetKind := Screenshots | Videos | Traces.

(** An entry of [metadata["screenshots"]], [metadata["videos"]] or
    [metadata["traces"]]; only screenshot entries carry [action] and [url]. *)
Record AssetEntry := mkAssetEntry {
  filename : string;
  filepath : string;
  entry_action : option string;
  description : string;
  entry_url : option string;
  sequence : nat;
  timestamp : Z
}.

(** The [metadata] dict of a session, as written to [metadata.json]. *)
Record Metadata := mkMetadata {
  md_session_id : string;
  md_created_at : Z;
  md_browser_type : string;
  md_headless : bool;
  md_viewport : Z * Z;
  md_record_video : bool;
  md_status : string;
  md_total_actions : nat;
  md_screenshots : list AssetEntry;
  md_videos : list AssetEntry;
  md_traces : list AssetEntry;
  md_last_activity : Z;
  md_session_dir : string
}.

(** [metadata[asset_type]]. *)
Definition md_assets (asset_type : AssetKind) (m : Metadata) : list AssetEntry :=
  match asset_type with
  | Screenshots => md_screenshots m
  | Videos => md_videos m
  | Traces => md_traces m
  end.

(** The session dict kept in [SessionManager.sessions].  The engine objects
    it holds ([playwright], [browser], [context], [page]) are represented by
    the session id that tags the engine calls of the world. *)
Record SessionData := mkSessionData {
  sd_screenshots : list string;
  sd_videos : list string;
  sd_traces : list string;
  sd_created_at : Z;
  action_count : nat;
  sd_last_activity : Z;
  recording_video : bool;
  metadata : Metadata
}.

(** The content of a [metadata.json] file. *)
Inductive JsonFile :=
| NoFile
| Unreadable
| Json (m : Metadata).

(** A session directory tree on disk: its [metadata.json] and the names of
    the files in its [videos/] subdirectory. *)
Record SessionDir := mkSessionDir {
  metadata_json : JsonFile;
  videos_dir : list string
}.

(** Calls to the browser engine. *)
Inductive Call :=
| PlaywrightStart
| Launch (browser_type : string) (headless : bool)
| NewContext (viewport : Z * Z) (record_video_dir : option string)
| NewPage
| Goto (url : option string) (timeout : option Z)
| Click (selector : option string) (timeout : option Z)
| Fill (selector text : option string)
| WaitForTimeout (timeout : option Z)
| Screenshot (path : string)
| ContextClose
| BrowserClose
| PlaywrightExit.

(** The engine: given the calls issued so far and the next call of a session,
    [None] when the call returns, [Some msg] when it raises an exception [e]
    with [str(e) = msg]. *)
Definition Engine := list (string * Call) → string → Call → option string.

Record World := mkWorld {
  sessions : gmap string SessionData;
  fs : gmap string SessionDir;
  calls : list (string * Call);
  clock : Z
}.

Definition set_sessions (f : gmap string SessionData → gmap string SessionData)
    (w : World) : World :=
  mkWorld (f (sessions w)) (fs w) (calls w) (clock w).

Definition set_fs (f : gmap string SessionDir → gmap string SessionDir)
    (w : World) : World :=
  mkWorld (sessions w) (f (fs w)) (calls w) (clock w).

Definition set_calls (f : list (string * Call) → list (string * Call))
    (w : World) : World :=
  mkWorld (sessions w) (fs w) (f (calls w)) (clock w).

(** ** Exceptions and the state monad of the server *)

Inductive Exn :=
| HTTPException (status_code : nat) (detail : string)
| Exception (msg : string).

Inductive Outcome (A : Type) :=
| Return (a : A)
| Raise (e : Exn).
Arguments Return {A} a.
Arguments Raise {A} e.

Definition M (A : Type) : Type := World → Outcome A * World.

Definition ret {A} (a : A) : M A := λ w, (Return a, w).

Definition raise {A} (e : Exn) : M A := λ w, (Raise e, w).

Definition bind {A B} (c : M A) (k : A → M B) : M B :=
  λ w, match c w with
       | (Return a, w') => k a w'
       | (Raise e, w') => (Raise e, w')
       end.

(** [try: c  except Exception as e: h e]. *)
Definition try_except {A} (c : M A) (h : Exn → M A) : M A :=
  λ w, match c w with
       | (Return a, w') => (Return a, w')
       | (Raise e, w') => h e w'
       end.

Definition get_world : M World := λ w, (Return w, w).

Definition modify (f : World → World) : M unit := λ w, (Return tt, f w).

Notation "x <~ c1 ;; c2" := (bind c1 (λ x, c2))
  (at level 100, c1 at next level, right associativity).
Notation "c1 ;;; c2" := (bind c1 (λ _, c2))
  (at level 100, right associativity).

(** [str(e)]. *)
Definition str_exn (e : Exn) : string :=
  match e with
  | HTTPException status_code detail => pretty status_code +:+ ": " +:+ detail
  | Exception msg => msg
  end.

(** ** Paths *)

Definition recordings_base : string := "/opt/code-server/recordings".

(** [f"{recordings_base}/sessions/session_{session_id}"]. *)
Definition session_path (session_id : string) : string :=
  recordings_base +:+ "/sessions/session_" +:+ session_id.

(** ** class SessionManager *)

Module SessionManager.

(** [_create_session_directory]: [os.makedirs(..., exist_ok=True)]. *)
Definition _create_session_directory (session_id : string) : M string :=
  λ w,
    let session_dir := session_path session_id in
    (Return session_dir,
     set_fs (λ f, match f !! session_dir with
                  | Some _ => f
                  | None => <[session_dir := mkSessionDir NoFile []]> f
                  end) w).

(** [_save_session_metadata]: [open(metadata_path, 'w')] raises when the
    session directory does not exist; otherwise the file is overwritten. *)
Definition _save_session_metadata (session_id : string) (metadata : Metadata)
    : M unit :=
  λ w,
    let session_dir := session_path session_id in
    match fs w !! session_dir with
    | None =>
        (Raise (Exception ("[Errno 2] No such file or directory: '"
                           +:+ session_dir +:+ "/metadata.json'")), w)
    | Some d =>
        (Return tt,
         set_fs <[session_dir := mkSessionDir (Json metadata) (videos_dir d)]> w)
    end.

(** [get_session]: [self.sessions.get(session_id)]. *)
Definition get_session (session_id : string) : M (option SessionData) :=
  λ w, (Return (sessions w !! session_id), w).

(** [_get_next_sequence_number]. *)
Definition _get_next_sequence_number (w : World) (session_id : string)
    (asset_type : AssetKind) : nat :=
  match sessions w !! session_id with
  | None => 1
  | Some session => length (md_assets asset_type (metadata session)) + 1
  end.

(** [add_screenshot]. *)
Definition add_screenshot (session_id action description url : string)
    : M (option string) :=
  λ w,
    match sessions w !! session_id with
    | None => (Return None, w)
    | Some session =>
        let seq_num := _get_next_sequence_number w session_id Screenshots in
        let filename :=
          replace_spaces
            (format_03d seq_num +:+ "_" +:+ action +:+ "_" +:+ description
             +:+ ".png") in
        let m := metadata session in
        let session_dir := md_session_dir m in
        let filepath := session_dir +:+ "/screenshots/" +:+ filename in
        let screenshot_entry :=
          mkAssetEntry filename filepath (Some action) description (Some url)
            seq_num (clock w) in
        let m' :=
          mkMetadata (md_session_id m) (md_created_at m) (md_browser_type m)
            (md_headless m) (md_viewport m) (md_record_video m) (md_status m)
            (md_total_actions m + 1)
            (md_screenshots m ++ [screenshot_entry]) (md_videos m) (md_traces m)
            (clock w) (md_session_dir m) in
        let session' :=
          mkSessionData (sd_screenshots session ++ [filepath])
            (sd_videos session) (sd_traces session) (sd_created_at session)
            (action_count session) (clock w) (recording_video session) m' in
        (_save_session_metadata session_id m' ;;; ret (Some filepath))
          (set_sessions <[session_id := session']> w)
    end.

(** [add_video]. *)
Definition add_video (session_id description : string) : M (option string) :=
  λ w,
    match sessions w !! session_id with
    | None => (Return None, w)
    | Some session =>
        let seq_num := _get_next_sequence_number w session_id Videos in
        let filename :=
          replace_spaces
            (format_03d seq_num +:+ "_" +:+ description +:+ ".webm") in
        let m := metadata session in
        let session_dir := md_session_dir m in
        let filepath := session_dir +:+ "/videos/" +:+ filename in
        let video_entry :=
          mkAssetEntry filename filepath None description None seq_num
            (clock w) in
        let m' :=
          mkMetadata (md_session_id m) (md_created_at m) (md_browser_type m)
            (md_headless m) (md_viewport m) (md_record_video m) (md_status m)
            (md_total_actions m)
            (md_screenshots m) (md_videos m ++ [video_entry]) (md_traces m)
            (clock w) (md_session_dir m) in
        let session' :=
          mkSessionData (sd_screenshots session)
            (sd_videos session ++ [filepath]) (sd_traces session)
            (sd_created_at session) (action_count session)
            (sd_last_activity session) (recording_video session) m' in
        (_save_session_metadata session_id m' ;;; ret (Some filepath))
          (set_sessions <[session_id := session']> w)
    end.

(** [add_trace]. *)
Definition add_trace (session_id description : string) : M (option string) :=
  λ w,
    match sessions w !! session_id with
    | None => (Return None, w)
    | Some session =>
        let seq_num := _get_next_sequence_number w session_id Traces in
        let filename :=
          replace_spaces
            (format_03d seq_num +:+ "_" +:+ description +:+ ".zip") in
        let m := metadata session in
        let session_dir := md_session_dir m in
        let filepath := session_dir +:+ "/traces/" +:+ filename in
        let trace_entry :=
          mkAssetEntry filename filepath None description None seq_num
            (clock w) in
        let m' :=
          mkMetadata (md_session_id m) (md_created_at m) (md_browser_type m)
            (md_headless m) (md_viewport m) (md_record_video m) (md_status m)
            (md_total_actions m)
            (md_screenshots m) (md_videos m) (md_traces m ++ [trace_entry])
            (clock w) (md_session_dir m) in
        let session' :=
          mkSessionData (sd_screenshots session) (sd_videos session)
            (sd_traces session ++ [filepath]) (sd_created_at session)
            (action_count session) (sd_last_activity session)
            (recording_video session) m' in
        (_save_session_metadata session_id m' ;;; ret (Some filepath))
          (set_sessions <[session_id := session']> w)
    end.

(** [os.rename(old, new)] inside one [videos/] directory. *)
Definition rename_file (old new : string) (files : list string) : list string :=
  if decide (old = new) then files
  else new :: filter (λ f, f ≠ old ∧ f ≠ new) files.

(** The last component of a path [p] below the directory prefix [dir]. *)
Definition strip_prefix (dir p : string) : string :=
  String.substring (String.length dir) (String.length p - String.length dir) p.

(** [os.rename(original_video, new_video_path)] for a file [original] of
    the [videos/] subdirectory of [session_dir] and a new path in the same
    subdirectory. *)
Definition rename_video (session_dir original new_video_path : string)
    : M unit :=
  λ w,
    match fs w !! session_dir with
    | None =>
        (Raise (Exception ("[Errno 2] No such file or directory: '"
                           +:+ session_dir +:+ "/videos/" +:+ original +:+ "'")),
         w)
    | Some d =>
        (Return tt,
         set_fs <[session_dir :=
                    mkSessionDir (metadata_json d)
                      (rename_file original
                         (strip_prefix (session_dir +:+ "/videos/")
                            new_video_path)
                         (videos_dir d))]> w)
    end.

Section WithEngine.
Variable eng : Engine.

(** One call to the engine on behalf of a session: recorded in [calls], and
    raising when the engine says so. *)
Definition engine_call (session_id : string) (c : Call) : M unit :=
  λ w,
    let w' := set_calls (λ l, (l ++ [(session_id, c)])%list) w in
    match eng (calls w) session_id c with
    | None => (Return tt, w')
    | Some msg => (Raise (Exception msg), w')
    end.

(** [create_session]. *)
Definition create_session (session_id browser_type : string) (headless : bool)
    (viewport_width viewport_height : Z) (record_video : bool)
    : M SessionData :=
  session_dir <~ _create_session_directory session_id ;;
  engine_call session_id PlaywrightStart ;;;
  engine_call session_id (Launch browser_type headless) ;;;
  engine_call session_id
    (NewContext (viewport_width, viewport_height)
       (if record_video then Some (session_path session_id +:+ "/videos")
        else None)) ;;;
  engine_call session_id NewPage ;;;
  w <~ get_world ;;
  let metadata :=
    mkMetadata session_id (clock w) browser_type headless
      (viewport_width, viewport_height) record_video "active" 0 [] [] []
      (clock w) session_dir in
  let session_data :=
    mkSessionData [] [] [] (clock w) 0 (clock w) record_video metadata in
  _save_session_metadata session_id metadata ;;;
  modify (set_sessions <[session_id := session_data]>) ;;;
  ret session_data.

(** The video part of [close_session]: when the session records video and
    its [videos/] directory holds a [.webm] file, the first one is renamed
    to the name [add_video] generates. *)
Definition finalize_video (session_id : string) (session : SessionData)
    : M unit :=
  if md_record_video (metadata session) then
    w <~ get_world ;;
    let session_dir := md_session_dir (metadata session) in
    match fs w !! session_dir with
    | None => ret tt
    | Some d =>
        match filter (λ f, endswith f ".webm" = true) (videos_dir d) with
        | [] => ret tt
        | original :: _ =>
            new_video_path <~ add_video session_id "session_recording" ;;
            match new_video_path with
            | None => ret tt
            | Some new_video_path =>
                rename_video session_dir original new_video_path
            end
        end
    end
  else ret tt.

(** [close_session]. *)
Definition close_session (session_id : string) : M unit :=
  w <~ get_world ;;
  match sessions w !! session_id with
  | None => ret tt
  | Some session =>
      finalize_video session_id session ;;;
      (* [session] is a reference: read it again after [add_video] *)
      w1 <~ get_world ;;
      match sessions w1 !! session_id with
      | None => ret tt
      | Some session1 =>
          let m := metadata session1 in
          let m' :=
            mkMetadata (md_session_id m) (md_created_at m) (md_browser_type m)
              (md_headless m) (md_viewport m) (md_record_video m) "completed"
              (md_total_actions m) (md_screenshots m) (md_videos m)
              (md_traces m) (clock w1) (md_session_dir m) in
          let session' :=
            mkSessionData (sd_screenshots session1) (sd_videos session1)
              (sd_traces session1) (sd_created_at session1)
              (action_count session1) (sd_last_activity session1)
              (recording_video session1) m' in
          modify (set_sessions <[session_id := session']>) ;;;
          _save_session_metadata session_id m' ;;;
          engine_call session_id ContextClose ;;;
          engine_call session_id BrowserClose ;;;
          engine_call session_id PlaywrightExit ;;;
          modify (set_sessions (delete session_id))
      end
  end.

End WithEngine.

End SessionManager.

(** ** Request models *)

(** [class SequenceAction(BaseModel)]. *)
Record SequenceAction := mkSequenceAction {
  action : string;
  url : option string;
  selector : option string;
  text : option string;
  timeout : option Z;
  screenshot_after : option bool;
  wait_for_analysis : option bool
}.

(** The [result] dict of one step of [execute_sequence].  A key that the
    code never sets for the step is [None]; [r_url], [r_selector], [r_text]
    and [r_timeout] echo an optional field of the action. *)
Record StepResult := mkStepResult {
  r_action : string;
  r_step : nat;
  r_url : option (option string);
  r_selector : option (option string);
  r_text : option (option string);
  r_timeout : option (option Z);
  r_status : string;
  r_screenshot_path : option string;
  r_message : option string
}.

(** The three dicts [execute_sequence] returns. *)
Inductive SequenceResponse :=
| Completed (session_id : string) (actions_executed : nat)
    (action_results : list StepResult) (screenshots : list string)
    (timestamp : Z)
| PausedForAnalysis (session_id : string) (current_step : nat)
    (screenshot_for_analysis : string) (next_actions : list SequenceAction)
    (completed_actions : list StepResult)
| SequenceError (session_id : string) (error : string)
    (error_screenshot : string) (completed_actions : list StepResult)
    (timestamp : Z).

(** The ["status"] key of the response. *)
Definition response_status (r : SequenceResponse) : string :=
  match r with
  | Completed _ _ _ _ _ => "completed"
  | PausedForAnalysis _ _ _ _ _ => "paused_for_analysis"
  | SequenceError _ _ _ _ _ => "error"
  end.

(** The step results carried by the response, under either key
    ([action_results] or [completed_actions]). *)
Definition response_results (r : SequenceResponse) : list StepResult :=
  match r with
  | Completed _ _ rs _ _ => rs
  | PausedForAnalysis _ _ _ _ rs => rs
  | SequenceError _ _ _ rs _ => rs
  end.

(** An entry of [cleaned_sessions] in the response of
    [cleanup_old_sessions]. *)
Record CleanedSession := mkCleanedSession {
  cs_session_id : string;
  cs_last_activity : Z;
  archived_to : string
}.

(** ** [str(uuid.uuid4())[:8]] *)

Definition hex_digit (d : N) : ascii :=
  match d with
  | 0 => "0" | 1 => "1" | 2 => "2" | 3 => "3" | 4 => "4" | 5 => "5"
  | 6 => "6" | 7 => "7" | 8 => "8" | 9 => "9" | 10 => "a" | 11 => "b"
  | 12 => "c" | 13 => "d" | 14 => "e" | _ => "f"
  end%N%char.

(** The [k] low hexadecimal digits of [n], most significant first. *)
Fixpoint hex_digits (k : nat) (n : N) : string :=
  match k with
  | O => ""
  | S k' => hex_digits k' (n / 16)%N +:+ String (hex_digit (n mod 16)%N) ""
  end.

(** The first eight characters of the string form of a 128-bit UUID: the
    hexadecimal digits of its top 32 bits. *)
Definition uuid_str_8 (u : N) : string :=
  hex_digits 8 (N.shiftr u 96).

(** ** File-system helpers of the sweep *)

(** [os.path.basename]. *)
Fixpoint basename (p : string) : string :=
  match p with
  | EmptyString => EmptyString
  | String c p' =>
      if Ascii.eqb c "/" || contains_char "/" p' then basename p' else p
  end.

(** A path matched by [glob.glob(f"{sessions_dir}/session_*")]: it starts
    with the pattern's literal part and the rest has no path separator. *)
Definition glob_match (p : string) : bool :=
  let lit := recordings_base +:+ "/sessions/session_" in
  String.prefix lit p
  && negb (contains_char "/"
             (String.substring (String.length lit)
                (String.length p - String.length lit) p)).

(** The result of the glob: the session directories on disk. *)
Definition glob_sessions (w : World) : list string :=
  filter (λ p, glob_match p = true) (map_to_list (fs w)).*1.

(** [shutil.move(src, dst)] for a directory [src]: renamed to [dst] when
    [dst] does not exist, moved inside [dst] when it is an existing
    directory, and an error when the place inside [dst] is taken. *)
Definition shutil_move (src dst : string) : M unit :=
  λ w,
    match fs w !! src with
    | None =>
        (Raise (Exception ("[Errno 2] No such file or directory: '" +:+ src
                           +:+ "'")), w)
    | Some d =>
        match fs w !! dst with
        | None => (Return tt, set_fs (λ f, <[dst := d]> (delete src f)) w)
        | Some _ =>
            let real_dst := dst +:+ "/" +:+ basename src in
            match fs w !! real_dst with
            | None =>
                (Return tt, set_fs (λ f, <[real_dst := d]> (delete src f)) w)
            | Some _ =>
                (Raise (Exception ("Destination path '" +:+ real_dst
                                   +:+ "' already exists")), w)
            end
        end
    end.

(** [f"/opt/code-server/recordings/archived/session_{session_id}_{int(last_activity)}"]. *)
Definition archived_path (session_id : string) (last_activity : Z) : string :=
  recordings_base +:+ "/archived/session_" +:+ session_id +:+ "_"
  +:+ pretty (int_seconds last_activity).

(** The screenshot paths of [execute_sequence]. *)
Definition step_screenshot_path (session_id : string) (i : nat) : string :=
  recordings_base +:+ "/screenshots/session_" +:+ session_id +:+ "_step_"
  +:+ pretty i +:+ ".png".

Definition analysis_screenshot_path (session_id : string) (i : nat) : string :=
  recordings_base +:+ "/screenshots/session_" +:+ session_id +:+ "_analysis_"
  +:+ pretty i +:+ ".png".

Definition error_screenshot_path (session_id : string) : string :=
  recordings_base +:+ "/screenshots/session_" +:+ session_id +:+ "_error.png".

(** ** Endpoints *)

Section Endpoints.
Variable eng : Engine.

(** [POST /api/sessions/create]; [uuid] is the value of [uuid.uuid4()].  The
    response carries the new session id. *)
Definition create_session (uuid : N) (browser : string) (headless : bool)
    (viewport_width viewport_height : Z) (record_video : bool) : M string :=
  let session_id := uuid_str_8 uuid in
  try_except
    (SessionManager.create_session eng session_id browser headless
       viewport_width viewport_height record_video ;;;
     ret session_id)
    (λ e, raise (HTTPException 500
                   ("Failed to create session: " +:+ str_exn e))).

(** [DELETE /api/sessions/{session_id}]; the response carries the session
    id. *)
Definition close_session (session_id : string) : M string :=
  session <~ SessionManager.get_session session_id ;;
  match session with
  | None => raise (HTTPException 404 "Session not found")
  | Some _ =>
      SessionManager.close_session eng session_id ;;;
      ret session_id
  end.

(** [session["screenshots"].append(path)] on the session dict of the
    store. *)
Definition append_session_screenshot (session_id path : string) : M unit :=
  modify (set_sessions
            (alter (λ s, mkSessionData (sd_screenshots s ++ [path])
                           (sd_videos s) (sd_traces s) (sd_created_at s)
                           (action_count s) (sd_last_activity s)
                           (recording_video s) (metadata s)) session_id)).

(** The branch of the [if]/[elif] chain of [execute_sequence] that the tag
    [action.action] selects, tested in the order of the source. *)
Inductive Branch := BGoto | BClick | BType | BWait | BCheckpoint | BUnknown.

Definition branch_of (tag : string) : Branch :=
  if String.eqb tag "goto" then BGoto
  else if String.eqb tag "click" then BClick
  else if String.eqb tag "type" then BType
  else if String.eqb tag "wait" then BWait
  else if String.eqb tag "wait_for_screenshot_analysis" then BCheckpoint
  else BUnknown.

(** The branches other than the checkpoint: the engine call of a recognized
    action and the result dict after the branch. *)
Definition apply_action (session_id : string) (i : nat) (a : SequenceAction)
    : M StepResult :=
  match branch_of (action a) with
  | BGoto =>
      SessionManager.engine_call eng session_id (Goto (url a) (timeout a)) ;;;
      ret (mkStepResult (action a) i (Some (url a)) None None None "success"
             None None)
  | BClick =>
      SessionManager.engine_call eng session_id
        (Click (selector a) (timeout a)) ;;;
      ret (mkStepResult (action a) i None (Some (selector a)) None None
             "success" None None)
  | BType =>
      SessionManager.engine_call eng session_id (Fill (selector a) (text a)) ;;;
      ret (mkStepResult (action a) i None (Some (selector a)) (Some (text a))
             None "success" None None)
  | BWait =>
      SessionManager.engine_call eng session_id
        (WaitForTimeout (timeout a)) ;;;
      ret (mkStepResult (action a) i None None None (Some (timeout a))
             "success" None None)
  | BCheckpoint | BUnknown =>
      ret (mkStepResult (action a) i None None None None "error" None
             (Some ("Unknown action: " +:+ action a)))
  end.

(** [result["screenshot_path"] = screenshot_path]. *)
Definition with_screenshot_path (r : StepResult) (path : string) : StepResult :=
  mkStepResult (r_action r) (r_step r) (r_url r) (r_selector r) (r_text r)
    (r_timeout r) (r_status r) (Some path) (r_message r).

(** The local variables [action_results] and [screenshots] of
    [execute_sequence]. *)
Record Locals := mkLocals {
  action_results : list StepResult;
  screenshots : list string
}.

(** How the [for] loop of [execute_sequence] is left: the list is exhausted,
    the checkpoint branch returns, or an exception reaches the [except]
    clause. *)
Inductive LoopExit :=
| Exhausted
| Paused (current_step : nat) (screenshot_path : string)
    (next_actions : list SequenceAction)
| Failed (e : Exn).

(** The checkpoint branch at step [i], up to its [return]. *)
Definition checkpoint (session_id : string) (i : nat) (a : SequenceAction)
    (loc : Locals) : M (string * Locals) :=
  let screenshot_path := analysis_screenshot_path session_id i in
  SessionManager.engine_call eng session_id (Screenshot screenshot_path) ;;;
  append_session_screenshot session_id screenshot_path ;;;
  let result :=
    mkStepResult (action a) i None None None None "waiting_for_analysis"
      (Some screenshot_path)
      (Some "Execution paused - analyze screenshot and continue with next API call") in
  ret (screenshot_path,
       mkLocals (action_results loc ++ [result])
         (screenshots loc ++ [screenshot_path]))%list.

(** A step other than a checkpoint: the action, then the capture requested
    by [screenshot_after], then [action_results.append(result)]. *)
Definition step (session_id : string) (i : nat) (a : SequenceAction)
    (loc : Locals) : M Locals :=
  result <~ apply_action session_id i a ;;
  if default false (screenshot_after a) then
    let screenshot_path := step_screenshot_path session_id i in
    SessionManager.engine_call eng session_id (Screenshot screenshot_path) ;;;
    append_session_screenshot session_id screenshot_path ;;;
    ret (mkLocals
           (action_results loc ++ [with_screenshot_path result screenshot_path])
           (screenshots loc ++ [screenshot_path]))
  else
    ret (mkLocals (action_results loc ++ [result]) (screenshots loc)).

(** The body of the [try] of [execute_sequence]:
    [for i, action in enumerate(sequence_input.actions)], entered at index
    [i] with the remaining actions.  The locals are returned with the exit,
    since the [except] clause reads [action_results]. *)
Fixpoint run_actions (session_id : string) (i : nat)
    (actions : list SequenceAction) (loc : Locals) (w : World)
    : LoopExit * Locals * World :=
  match actions with
  | [] => (Exhausted, loc, w)
  | a :: rest =>
      match branch_of (action a) with
      | BCheckpoint =>
          match checkpoint session_id i a loc w with
          | (Return (screenshot_path, loc'), w') =>
              (Paused i screenshot_path rest, loc', w')
          | (Raise e, w') => (Failed e, loc, w')
          end
      | _ =>
          match step session_id i a loc w with
          | (Return loc', w') => run_actions session_id (S i) rest loc' w'
          | (Raise e, w') => (Failed e, loc, w')
          end
      end
  end.

(** [POST /api/sessions/{session_id}/sequence]. *)
Definition execute_sequence (session_id : string)
    (sequence_input : list SequenceAction) : M SequenceResponse :=
  session <~ SessionManager.get_session session_id ;;
  match session with
  | None => raise (HTTPException 404 "Session not found")
  | Some _ =>
      λ w,
        match run_actions session_id 0 sequence_input (mkLocals [] []) w with
        | (Exhausted, loc, w') =>
            (Return (Completed session_id (length (action_results loc))
                       (action_results loc) (screenshots loc) (clock w')), w')
        | (Paused i screenshot_path next_actions, loc, w') =>
            (Return (PausedForAnalysis session_id i screenshot_path
                       next_actions (action_results loc)), w')
        | (Failed e, loc, w') =>
            let error_screenshot := error_screenshot_path session_id in
            (SessionManager.engine_call eng session_id
               (Screenshot error_screenshot) ;;;
             w'' <~ get_world ;;
             ret (SequenceError session_id (str_exn e) error_screenshot
                    (action_results loc) (clock w''))) w'
        end
  end.

(** [POST /api/sessions/{session_id}/screenshot] without the base64 part; the
    response carries the screenshot path. *)
Definition take_screenshot (session_id : string) : M (option string) :=
  session <~ SessionManager.get_session session_id ;;
  match session with
  | None => raise (HTTPException 404 "Session not found")
  | Some _ =>
      screenshot_path <~
        SessionManager.add_screenshot session_id "manual" "screenshot" "" ;;
      SessionManager.engine_call eng session_id
        (Screenshot (default "" screenshot_path)) ;;;
      ret screenshot_path
  end.

(** [DELETE /api/sessions/{session_id}/cleanup]. *)
Definition cleanup_session (session_id : string) : M string :=
  w <~ get_world ;;
  (if decide (is_Some (sessions w !! session_id))
   then SessionManager.close_session eng session_id else ret tt) ;;;
  w' <~ get_world ;;
  let session_dir := session_path session_id in
  match fs w' !! session_dir with
  | Some _ =>
      modify (set_fs (delete session_dir)) ;;;
      ret session_id
  | None => raise (HTTPException 404 "Session directory not found")
  end.

(** One iteration of the loop of [cleanup_old_sessions], for the directory
    [session_path] found by the glob; [cleaned] is [cleaned_sessions]. *)
Definition sweep_one (current_time max_age_seconds : Z) (session_path : string)
    (cleaned : list CleanedSession) : M (list CleanedSession) :=
  w <~ get_world ;;
  match metadata_json <$> fs w !! session_path with
  | None | Some NoFile => ret cleaned
  | Some Unreadable => ret cleaned
  | Some (Json metadata) =>
      try_except
        (let last_activity := md_last_activity metadata in
         if (current_time - last_activity >? max_age_seconds)%Z then
           let session_id := md_session_id metadata in
           (if decide (is_Some (sessions w !! session_id))
            then SessionManager.close_session eng session_id else ret tt) ;;;
           let archived_dir := archived_path session_id last_activity in
           shutil_move session_path archived_dir ;;;
           ret (cleaned ++ [mkCleanedSession session_id last_activity
                              archived_dir])%list
         else ret cleaned)
        (λ _, ret cleaned)
  end.

(** The [for] loop of [cleanup_old_sessions] over the glob result. *)
Fixpoint sweep (current_time max_age_seconds : Z) (paths : list string)
    (cleaned : list CleanedSession) : M (list CleanedSession) :=
  match paths with
  | [] => ret cleaned
  | p :: rest =>
      cleaned' <~ sweep_one current_time max_age_seconds p cleaned ;;
      sweep current_time max_age_seconds rest cleaned'
  end.

(** [POST /api/sessions/cleanup-old]; the response carries
    [cleaned_sessions].  Ages are compared in microseconds, the unit of the
    clock. *)
Definition cleanup_old_sessions (max_age_hours : Z)
    : M (list CleanedSession) :=
  w <~ get_world ;;
  let current_time := clock w in
  let max_age_seconds := (max_age_hours * 3600 * 1000000)%Z in
  sweep current_time max_age_seconds (glob_sessions w) [].

End Endpoints.

(** ** The read-only endpoints of the session API *)

(** The response of [GET /api/sessions/{session_id}/status]. *)
Record SessionStatus := mkSessionStatus {
  ss_status : string;
  ss_session_id : string;
  ss_created_at : Z;
  screenshots_count : nat;
  ss_timestamp : Z
}.

(** [GET /api/sessions/{session_id}/status]. *)
Definition get_session_status (session_id : string) : M SessionStatus :=
  session <~ SessionManager.get_session session_id ;;
  match session with
  | None => raise (HTTPException 404 "Session not found")
  | Some session =>
      w <~ get_world ;;
      ret (mkSessionStatus "active" session_id (sd_created_at session)
             (length (sd_screenshots session)) (clock w))
  end.

(** An entry of [active_sessions] in the response of
    [GET /api/sessions]. *)
Record SessionSummary := mkSessionSummary {
  su_session_id : string;
  su_created_at : Z;
  su_browser_type : string;
  su_headless : bool;
  su_record_video : bool;
  su_status : string;
  su_total_actions : nat;
  su_last_activity : Z;
  su_viewport : Z * Z
}.

(** The response of [GET /api/sessions]. *)
Record SessionList := mkSessionList {
  active_sessions : list SessionSummary;
  total_sessions : nat;
  sl_timestamp : Z
}.

(** The dict the loop of [list_active_sessions] appends for one item of
    [session_manager.sessions.items()]. *)
Definition session_summary (item : string * SessionData) : SessionSummary :=
  let metadata := metadata item.2 in
  mkSessionSummary item.1 (md_created_at metadata) (md_browser_type metadata)
    (md_headless metadata) (md_record_video metadata) (md_status metadata)
    (md_total_actions metadata) (md_last_activity metadata)
    (md_viewport metadata).

(** [GET /api/sessions].  The store of the model keeps no insertion order:
    the sessions are listed in the order of [map_to_list]. *)
Definition list_active_sessions : M SessionList :=
  w <~ get_world ;;
  let active_sessions := session_summary <$> map_to_list (sessions w) in
  ret (mkSessionList active_sessions (length active_sessions) (clock w)).

(** The response of [GET /api/sessions/{session_id}/assets]. *)
Record SessionAssets := mkSessionAssets {
  sa_session_id : string;
  sa_status : string;
  sa_created_at : Z;
  sa_last_activity : Z;
  sa_total_actions : nat;
  total_screenshots : nat;
  total_videos : nat;
  total_traces : nat;
  assets_screenshots : list AssetEntry;
  assets_videos : list AssetEntry;
  assets_traces : list AssetEntry;
  sa_session_dir : string;
  sa_timestamp : Z
}.

(** The dict [get_session_assets] builds from a metadata dict. *)
Definition assets_of (session_id : string) (metadata : Metadata) (now : Z)
    : SessionAssets :=
  mkSessionAssets session_id (md_status metadata) (md_created_at metadata)
    (md_last_activity metadata) (md_total_actions metadata)
    (length (md_screenshots metadata)) (length (md_videos metadata))
    (length (md_traces metadata))
    (md_screenshots metadata) (md_videos metadata) (md_traces metadata)
    (md_session_dir metadata) now.

(** [GET /api/sessions/{session_id}/assets]: the metadata of the store, or,
    for a session that is not in the store, the [metadata.json] of its
    directory; [json.load] raises on a file that does not parse. *)
Definition get_session_assets (session_id : string) : M SessionAssets :=
  session <~ SessionManager.get_session session_id ;;
  metadata <~
    match session with
    | None =>
        w <~ get_world ;;
        match metadata_json <$> fs w !! session_path session_id with
        | None | Some NoFile => raise (HTTPException 404 "Session not found")
        | Some Unreadable => raise (Exception "JSONDecodeError")
        | Some (Json metadata) => ret metadata
        end
    | Some session => ret (metadata session)
    end ;;
  w <~ get_world ;;
  ret (assets_of session_id metadata (clock w)).

(** ** [POST /api/execute] *)

Module ExecuteCommand.

(** [class CommandInput(BaseModel)]. *)
Record CommandInput := mkCommandInput {
  command : option string;
  term : option string
}.

(** The [CompletedProcess] of [subprocess.run]. *)
Record CompletedProcess := mkCompletedProcess {
  returncode : Z;
  stdout : string;
  stderr : string
}.

(** The exceptions of the [try] block, by the classes its [except] clauses
    tell apart; [HTTPException] is a subclass of [Exception]. *)
Inductive TryExn :=
| TryHTTPException (status_code : nat) (detail : string)
| TimeoutExpired
| FileNotFoundError (msg : string)
| OtherException (msg : string).

(** The response dict. *)
Record CommandResponse := mkCommandResponse {
  cr_status : string;
  cr_command : string;
  return_code : Z;
  cr_stdout : string;
  cr_stderr : string;
  cr_timestamp : Z
}.

Section WithSubprocess.
(** [subprocess.run(args, capture_output=True, text=True, timeout=30,
    cwd="/root")]: the completed process, or the exception it raises (never
    an [HTTPException]). *)
Variable run : list string → TryExn + CompletedProcess.
(** [str.split()]. *)
Variable split : string → list string.

(** The body of the [try]; [None] is the value of a function that falls off
    its end. *)
Definition try_block (command_data : CommandInput) (now : Z)
    : TryExn + option CommandResponse :=
  let provided_keys :=
    match command command_data with Some _ => ["command"] | None => [] end
    ++ match term command_data with Some _ => ["term"] | None => [] end in
  if (length provided_keys =? 0)%nat then
    inl (TryHTTPException 400
           "Format error: Either 'command' or 'term' key must be provided")
  else if (1 <? length provided_keys)%nat then
    inl (TryHTTPException 400
           "Format error: Only one key allowed at a time. Use either 'command' or 'term', not both")
  else
    match command command_data with
    | Some c =>
        match run ["claude"; "-p"; c] with
        | inl e => inl e
        | inr result =>
            inr (Some (mkCommandResponse "success" ("claude -p " +:+ c)
                         (returncode result) (stdout result) (stderr result)
                         now))
        end
    | None =>
        match term command_data with
        | Some t =>
            match run (split t) with
            | inl e => inl e
            | inr result =>
                inr (Some (mkCommandResponse "success" t (returncode result)
                             (stdout result) (stderr result) now))
            end
        | None => inr None
        end
    end.

(** [POST /api/execute]: the [try] block under its three [except]
    clauses. *)
Definition execute_command (command_data : CommandInput)
    : M (option CommandResponse) :=
  w <~ get_world ;;
  match try_block command_data (clock w) with
  | inr response => ret response
  | inl TimeoutExpired =>
      raise (HTTPException 408 "Command execution timed out (30s)")
  | inl (FileNotFoundError msg) =>
      raise (HTTPException 404 ("Command not found: " +:+ msg))
  | inl (TryHTTPException status_code detail) =>
      raise (HTTPException 500
               ("Error executing command: "
                +:+ str_exn (HTTPException status_code detail)))
  | inl (OtherException msg) =>
      raise (HTTPException 500 ("Error executing command: " +:+ msg))
  end.

End WithSubprocess.

End ExecuteCommand.

(** ** The action loop of [POST /api/browser] *)

Module BrowserAutomation.

(** [class BrowserAction(BaseModel)]. *)
Record BrowserAction := mkBrowserAction {
  action : string;
  selector : option string;
  text : option string;
  url : option string;
  timeout : option Z
}.

(** An entry of [action_results].  A key the code does not set is [None];
    [ar_url], [ar_selector] and [ar_timeout] echo an optional field of the
    action. *)
Record ActionResult := mkActionResult {
  ar_action : string;
  ar_url : option (option string);
  ar_selector : option (option string);
  ar_path : option string;
  ar_timeout : option (option Z);
  ar_status : string;
  ar_message : option string
}.

(** [f"{recordings_dir}/screenshots/screenshot_{session_id}_{i}.png"]. *)
Definition screenshot_path (session_id : string) (i : nat) : string :=
  recordings_base +:+ "/screenshots/screenshot_" +:+ session_id +:+ "_"
  +:+ pretty i +:+ ".png".

Section WithEngine.
Variable eng : Engine.

(** The body of the loop for the action at index [i]: the [if]/[elif] chain
    under its [try], and the [except] clause that records the failure.  The
    result is the dict appended to [action_results] and the new value of
    [screenshots]. *)
Definition run_action (session_id : string) (i : nat) (a : BrowserAction)
    (screenshots : list string) : M (ActionResult * list string) :=
  try_except
    (if String.eqb (action a) "goto" then
       SessionManager.engine_call eng session_id (Goto (url a) (timeout a)) ;;;
       ret (mkActionResult "goto" (Some (url a)) None None None "success" None,
            screenshots)
     else if String.eqb (action a) "click" then
       SessionManager.engine_call eng session_id
         (Click (selector a) (timeout a)) ;;;
       ret (mkActionResult "click" None (Some (selector a)) None None
              "success" None, screenshots)
     else if String.eqb (action a) "type" then
       SessionManager.engine_call eng session_id
         (Fill (selector a) (text a)) ;;;
       ret (mkActionResult "type" None (Some (selector a)) None None
              "success" None, screenshots)
     else if String.eqb (action a) "screenshot" then
       let screenshot_path := screenshot_path session_id i in
       SessionManager.engine_call eng session_id
         (Screenshot screenshot_path) ;;;
       ret (mkActionResult "screenshot" None None (Some screenshot_path) None
              "success" None, screenshots ++ [screenshot_path])
     else if String.eqb (action a) "wait" then
       SessionManager.engine_call eng session_id
         (WaitForTimeout (timeout a)) ;;;
       ret (mkActionResult "wait" None None None (Some (timeout a)) "success"
              None, screenshots)
     else
       ret (mkActionResult (action a) None None None None "error"
              (Some "Unknown action"), screenshots))
    (λ e, ret (mkActionResult (action a) None None None None "error"
                 (Some (str_exn e)), screenshots)).

(** [for i, action in enumerate(session_data.actions)], entered at index [i]
    with the remaining actions and the lists built so far. *)
Fixpoint run_actions (session_id : string) (i : nat)
    (actions : list BrowserAction) (action_results : list ActionResult)
    (screenshots : list string) : M (list ActionResult * list string) :=
  match actions with
  | [] => ret (action_results, screenshots)
  | a :: rest =>
      r <~ run_action session_id i a screenshots ;;
      run_actions session_id (S i) rest (action_results ++ [r.1]) r.2
  end.

End WithEngine.

End BrowserAutomation.

(** ** The asset recorder as one operation *)

(** [add(session, kind, ...)]: the [add_*] method of the kind.  Videos and
    traces take no action label and no url. *)
Definition add_asset (kind : AssetKind)
    (session_id action description url : string) : M (option string) :=
  match kind with
  | Screenshots =>
      SessionManager.add_screenshot session_id action description url
  | Videos => SessionManager.add_video session_id description
  | Traces => SessionManager.add_trace session_id description
  end.

(** The amount by which an addition of the kind bumps [total_actions]: only
    [add_screenshot] has the line [total_actions += 1]. *)
Definition action_bump (kind : AssetKind) : nat :=
  match kind with Screenshots => 1 | Videos | Traces => 0 end.

(** ** What a run of [execute_sequence] asks of the engine *)

(** The engine call of the branch an action selects. *)
Definition action_call (a : SequenceAction) : option Call :=
  match branch_of (action a) with
  | BGoto => Some (Goto (url a) (timeout a))
  | BClick => Some (Click (selector a) (timeout a))
  | BType => Some (Fill (selector a) (text a))
  | BWait => Some (WaitForTimeout (timeout a))
  | BCheckpoint | BUnknown => None
  end.

(** The capture a step other than a checkpoint requests. *)
Definition step_capture (session_id : string) (i : nat) (a : SequenceAction)
    : list string :=
  if default false (screenshot_after a)
  then [step_screenshot_path session_id i] else [].

(** The engine calls of step [i] when none of them raises. *)
Definition step_calls (session_id : string) (i : nat) (a : SequenceAction)
    : list Call :=
  option_list (action_call a) ++ map Screenshot (step_capture session_id i a).

(** The engine calls of the steps [i], [i+1], ... for [actions], none of
    them a checkpoint, when no call raises. *)
Fixpoint sequence_calls (session_id : string) (i : nat)
    (actions : list SequenceAction) : list Call :=
  match actions with
  | [] => []
  | a :: rest =>
      step_calls session_id i a ++ sequence_calls session_id (S i) rest
  end.

(** The captures of those steps. *)
Fixpoint sequence_captures (session_id : string) (i : nat)
    (actions : list SequenceAction) : list string :=
  match actions with
  | [] => []
  | a :: rest =>
      step_capture session_id i a ++ sequence_captures session_id (S i) rest
  end.

(** The result dict after the branch of a step other than a checkpoint, when
    the engine call of the branch returns. *)
Definition action_result (i : nat) (a : SequenceAction) : StepResult :=
  match branch_of (action a) with
  | BGoto =>
      mkStepResult (action a) i (Some (url a)) None None None "success"
        None None
  | BClick =>
      mkStepResult (action a) i None (Some (selector a)) None None "success"
        None None
  | BType =>
      mkStepResult (action a) i None (Some (selector a)) (Some (text a))
        None "success" None None
  | BWait =>
      mkStepResult (action a) i None None None (Some (timeout a)) "success"
        None None
  | BCheckpoint | BUnknown =>
      mkStepResult (action a) i None None None None "error" None
        (Some ("Unknown action: " +:+ action a))
  end.

(** The result dict of step [i] when no call of the step raises. *)
Definition step_result (session_id : string) (i : nat) (a : SequenceAction)
    : StepResult :=
  if default false (screenshot_after a)
  then with_screenshot_path (action_result i a)
         (step_screenshot_path session_id i)
  else action_result i a.

Fixpoint sequence_results (session_id : string) (i : nat)
    (actions : list SequenceAction) : list StepResult :=
  match actions with
  | [] => []
  | a :: rest =>
      step_result session_id i a :: sequence_results session_id (S i) rest
  end.

(** The result dict of a checkpoint at step [i]. *)
Definition checkpoint_result (session_id : string) (i : nat)
    (a : SequenceAction) : StepResult :=
  mkStepResult (action a) i None None None None "waiting_for_analysis"
    (Some (analysis_screenshot_path session_id i))
    (Some "Execution paused - analyze screenshot and continue with next API call").

(** The engine lets the calls [cs] of a session return, one after the other,
    after the calls [history]. *)
Fixpoint accepts (eng : Engine) (history : list (string * Call))
    (session_id : string) (cs : list Call) : bool :=
  match cs with
  | [] => true
  | c :: cs' =>
      match eng history session_id c with
      | None => accepts eng (history ++ [(session_id, c)]) session_id cs'
      | Some _ => false
      end
  end.

(** Two worlds whose stores hold the same sessions with the same metadata
    (the lists [session["screenshots"]] etc. may differ). *)
Definition same_metadata (w w' : World) : Prop :=
  ∀ session_id,
    metadata <$> sessions w' !! session_id
    = metadata <$> sessions w !! session_id.

(** From [w] to [w'], the only effects are the engine calls [cs] of the
    session, each of which returned or raised, and appends to the lists
    [session["screenshots"]]: the files on disk, the clock and the metadata
    of every session are the same. *)
Definition ran_calls (session_id : string) (cs : list Call) (w w' : World)
    : Prop :=
  calls w' = calls w ++ map (pair session_id) cs
  ∧ fs w' = fs w
  ∧ clock w' = clock w
  ∧ same_metadata w w'.

(** ** Histories of the service *)

(** The requests the service answers and the events of its environment: the
    clock advances, the engine writes a video file into the [videos/]
    directory of a session, the process restarts with an empty store. *)
Inductive Op :=
| OpCreateSession (uuid : N) (browser : string) (headless : bool)
    (viewport_width viewport_height : Z) (record_video : bool)
| OpCloseSession (session_id : string)
| OpExecuteSequence (session_id : string) (actions : list SequenceAction)
| OpTakeScreenshot (session_id : string)
| OpAddAsset (kind : AssetKind) (session_id action description url : string)
| OpCleanupSession (session_id : string)
| OpCleanupOldSessions (max_age_hours : Z)
| OpTick (d : N)
| OpVideoWritten (session_id file : string)
| OpRestart.

(** The engine writes [file] into the [videos/] directory of a session. *)
Definition video_written (session_id file : string) (w : World) : World :=
  set_fs (alter (λ d, mkSessionDir (metadata_json d) (videos_dir d ++ [file]))
            (session_path session_id)) w.

Definition run_op (eng : Engine) (o : Op) (w : World) : World :=
  match o with
  | OpCreateSession uuid browser headless vw vh record_video =>
      (create_session eng uuid browser headless vw vh record_video w).2
  | OpCloseSession session_id => (close_session eng session_id w).2
  | OpExecuteSequence session_id actions =>
      (execute_sequence eng session_id actions w).2
  | OpTakeScreenshot session_id => (take_screenshot eng session_id w).2
  | OpAddAsset kind session_id action description url =>
      (add_asset kind session_id action description url w).2
  | OpCleanupSession session_id => (cleanup_session eng session_id w).2
  | OpCleanupOldSessions max_age_hours =>
      (cleanup_old_sessions eng max_age_hours w).2
  | OpTick d => mkWorld (sessions w) (fs w) (calls w) (clock w + Z.of_N d)
  | OpVideoWritten session_id file => video_written session_id file w
  | OpRestart => set_sessions (λ _, ∅) w
  end.

(** The worlds of a fresh installation. *)
Definition initial (t : Z) : World := mkWorld ∅ ∅ [] t.

Definition run_ops (eng : Engine) (ops : list Op) (w : World) : World :=
  foldl (λ w o, run_op eng o w) w ops.

Inductive reachable (eng : Engine) : World → Prop :=
| reachable_initial t : reachable eng (initial t)
| reachable_step w o : reachable eng w → reachable eng (run_op eng o w).

(** ** Invariants of the store *)

(** The sequence numbers of an asset list are 1, 2, ..., in order. *)
Definition gapless (entries : list AssetEntry) : Prop :=
  map sequence entries = seq 1 (length entries).

Definition store_gapless (w : World) : Prop :=
  ∀ session_id session kind,
    sessions w !! session_id = Some session →
    gapless (md_assets kind (metadata session)).

(** The session ids the create endpoint generates. *)
Definition valid_id (session_id : string) : Prop :=
  ∃ uuid, session_id = uuid_str_8 uuid.

(** Every session of the store has an id the create endpoint generated, and
    its directory, whose [metadata.json] holds the metadata the store
    holds. *)
Definition store_mirrored (w : World) : Prop :=
  ∀ session_id session,
    sessions w !! session_id = Some session →
    valid_id session_id
    ∧ md_session_id (metadata session) = session_id
    ∧ md_session_dir (metadata session) = session_path session_id
    ∧ ∃ d, fs w !! session_path session_id = Some d
           ∧ metadata_json d = Json (metadata session).

(** Every session directory the glob finds sits at the path of the session
    its metadata names. *)
Definition disk_consistent (w : World) : Prop :=
  ∀ p d m,
    fs w !! p = Some d → metadata_json d = Json m → glob_match p = true →
    valid_id (md_session_id m) ∧ p = session_path (md_session_id m).

(** The invariant of the service. *)
Definition wf (w : World) : Prop :=
  store_gapless w ∧ store_mirrored w ∧ disk_consistent w.

(** From [w] to [w'], the only session of the store and the only directory
    that may have changed are those of [session_id]. *)
Definition touches_only (session_id : string) (w w' : World) : Prop :=
  (∀ session_id', session_id' ≠ session_id →
     sessions w' !! session_id' = sessions w !! session_id')
  ∧ (∀ p, p ≠ session_path session_id → fs w' !! p = fs w !! p)
  ∧ clock w' = clock w.

(** What one iteration of the sweep, for the directory [p], may change: the
    session whose directory [p] is, the directory [p] itself, and a place
    below the archive root that was free. *)
Definition sweep_step (p : string) (w w' : World) : Prop :=
  clock w' = clock w
  ∧ (∀ session_id, session_path session_id ≠ p →
       sessions w' !! session_id = sessions w !! session_id)
  ∧ (∀ session_id, sessions w !! session_id = None →
       sessions w' !! session_id = None)
  ∧ (fs w !! p = None → fs w' !! p = None)
  ∧ (∀ k, k ≠ p →
       fs w' !! k = fs w !! k
       ∨ (fs w !! k = None
          ∧ ∃ session_id t r,
              k = archived_path session_id t +:+ r
              ∧ valid_id session_id ∧ p = session_path session_id)).

(** The engine lets the three calls that release a session return. *)
Definition teardown_returns (eng : Engine) : Prop :=
  ∀ history session_id,
    eng history session_id ContextClose = None
    ∧ eng history session_id BrowserClose = None
    ∧ eng history session_id PlaywrightExit = None.

(** ** Example engines, worlds and requests *)

(** An engine on which every call returns. *)
Definition healthy_engine : Engine := λ _ _ _, None.

(** An engine on which every navigation fails. *)
Definition offline_engine : Engine :=
  λ _ _ c, match c with
           | Goto _ _ => Some "net::ERR_INTERNET_DISCONNECTED"
           | _ => None
           end.

(** An engine whose page has crashed: page calls raise, the rest returns. *)
Definition crashed_engine : Engine :=
  λ _ _ c, match c with
           | Goto _ _ | Click _ _ | Fill _ _ | WaitForTimeout _
           | Screenshot _ => Some "Target page, context or browser has been closed"
           | _ => None
           end.

Definition example_uuid : N := 0xabc1234500004000800000000000ffff%N.

(** A fresh installation on which one session, [abc12345], was created. *)
Definition one_session : World :=
  (create_session healthy_engine example_uuid "chromium" true 1280 720 false
     (initial 1700000000000000)).2.

Definition goto_example : SequenceAction :=
  mkSequenceAction "goto" (Some "https://example.com") None None (Some 5000%Z)
    (Some true) None.

Definition checkpoint_example : SequenceAction :=
  mkSequenceAction "wait_for_screenshot_analysis" None None None (Some 5000%Z)
    (Some false) None.

Definition click_example : SequenceAction :=
  mkSequenceAction "click" None (Some "#btn") None (Some 5000%Z) (Some false)
    None.

Definition hover_example : SequenceAction :=
  mkSequenceAction "hover" None (Some "#btn") None (Some 5000%Z) (Some false)
    None.

(** The world [one_session] after two screenshots and a close: the session is
    gone from the store, its metadata file stays. *)
Definition closed_session : World :=
  run_ops healthy_engine
    [OpTakeScreenshot "abc12345"; OpTakeScreenshot "abc12345";
     OpCloseSession "abc12345"] one_session.

(** The world [one_session] five seconds later. *)
Definition one_session_later : World :=
  run_op healthy_engine (OpTick 5000000) one_session.



(** ** How the store evolves *)

(** The session dict [create_session] puts into the store at clock reading
    [t]. *)
Definition fresh_session (session_id browser_type : string) (headless : bool)
    (viewport_width viewport_height : Z) (record_video : bool) (t : Z)
    : SessionData :=
  mkSessionData [] [] [] t 0 t record_video
    (mkMetadata session_id t browser_type headless
       (viewport_width, viewport_height) record_video "active" 0 [] [] [] t
       (session_path session_id)).

(** The subdirectory and the extension of the files of a kind. *)
Definition kind_dir (kind : AssetKind) : string :=
  match kind with
  | Screenshots => "screenshots"
  | Videos => "videos"
  | Traces => "traces"
  end.

Definition kind_ext (kind : AssetKind) : string :=
  match kind with
  | Screenshots => ".png"
  | Videos => ".webm"
  | Traces => ".zip"
  end.

(** The file name the [add_*] method of the kind generates for the sequence
    number [seq_num]. *)
Definition asset_filename (kind : AssetKind) (seq_num : nat)
    (action description : string) : string :=
  replace_spaces
    (format_03d seq_num +:+ "_"
     +:+ match kind with
         | Screenshots => action +:+ "_" +:+ description +:+ ".png"
         | Videos => description +:+ ".webm"
         | Traces => description +:+ ".zip"
         end).

(** The entry the [add_*] method of the kind appends for the session dict
    [s] at clock reading [t]. *)
Definition new_entry (kind : AssetKind) (s : SessionData)
    (action description url : string) (t : Z) : AssetEntry :=
  let seq_num := length (md_assets kind (metadata s)) + 1 in
  let filename := asset_filename kind seq_num action description in
  let filepath :=
    md_session_dir (metadata s) +:+ "/" +:+ kind_dir kind +:+ "/"
    +:+ filename in
  match kind with
  | Screenshots =>
      mkAssetEntry filename filepath (Some action) description (Some url)
        seq_num t
  | Videos | Traces =>
      mkAssetEntry filename filepath None description None seq_num t
  end.

(** The session dict after the [add_*] method of the kind. *)
Definition recorded (kind : AssetKind) (s : SessionData)
    (action description url : string) (t : Z) : SessionData :=
  let m := metadata s in
  let e := new_entry kind s action description url t in
  match kind with
  | Screenshots =>
      mkSessionData (sd_screenshots s ++ [filepath e]) (sd_videos s)
        (sd_traces s) (sd_created_at s) (action_count s) t
        (recording_video s)
        (mkMetadata (md_session_id m) (md_created_at m) (md_browser_type m)
           (md_headless m) (md_viewport m) (md_record_video m) (md_status m)
           (md_total_actions m + 1) (md_screenshots m ++ [e]) (md_videos m)
           (md_traces m) t (md_session_dir m))
  | Videos =>
      mkSessionData (sd_screenshots s) (sd_videos s ++ [filepath e])
        (sd_traces s) (sd_created_at s) (action_count s) (sd_last_activity s)
        (recording_video s)
        (mkMetadata (md_session_id m) (md_created_at m) (md_browser_type m)
           (md_headless m) (md_viewport m) (md_record_video m) (md_status m)
           (md_total_actions m) (md_screenshots m) (md_videos m ++ [e])
           (md_traces m) t (md_session_dir m))
  | Traces =>
      mkSessionData (sd_screenshots s) (sd_videos s)
        (sd_traces s ++ [filepath e]) (sd_created_at s) (action_count s)
        (sd_last_activity s) (recording_video s)
        (mkMetadata (md_session_id m) (md_created_at m) (md_browser_type m)
           (md_headless m) (md_viewport m) (md_record_video m) (md_status m)
           (md_total_actions m) (md_screenshots m) (md_videos m)
           (md_traces m ++ [e]) t (md_session_dir m))
  end.

(** The metadata [close_session] writes at clock reading [t]. *)
Definition completed_metadata (m : Metadata) (t : Z) : Metadata :=
  mkMetadata (md_session_id m) (md_created_at m) (md_browser_type m)
    (md_headless m) (md_viewport m) (md_record_video m) "completed"
    (md_total_actions m) (md_screenshots m) (md_videos m) (md_traces m) t
    (md_session_dir m).

(** The session dict after the status update of [close_session]. *)
Definition completed (s : SessionData) (t : Z) : SessionData :=
  mkSessionData (sd_screenshots s) (sd_videos s) (sd_traces s)
    (sd_created_at s) (action_count s) (sd_last_activity s)
    (recording_video s) (completed_metadata (metadata s) t).

(** The session dict after [session["screenshots"].append(path)]. *)
Definition captured (s : SessionData) (path : string) : SessionData :=
  mkSessionData (sd_screenshots s ++ [path]) (sd_videos s) (sd_traces s)
    (sd_created_at s) (action_count s) (sd_last_activity s)
    (recording_video s) (metadata s).

(** The updates the code makes to a session dict of the store. *)
Inductive session_step : SessionData → SessionData → Prop :=
| step_recorded kind s action description url t :
    session_step s (recorded kind s action description url t)
| step_completed s t : session_step s (completed s t)
| step_captured s path : session_step s (captured s path).

(** The updates the code makes to the store. *)
Inductive store_step
    : gmap string SessionData → gmap string SessionData → Prop :=
| store_created σ session_id browser_type headless vw vh record_video t :
    store_step σ
      (<[session_id := fresh_session session_id browser_type headless vw vh
                         record_video t]> σ)
| store_updated σ session_id s s' :
    σ !! session_id = Some s → session_step s s' →
    store_step σ (<[session_id := s']> σ)
| store_deleted σ session_id : store_step σ (delete session_id σ)
| store_cleared σ : store_step σ ∅.

(** A computation changes the store by such updates only. *)
Definition evolves {A} (c : M A) : Prop :=
  ∀ w, rtc store_step (sessions w) (sessions (c w).2).

(** ** Invariants of a session dict *)

(** [total_actions] counts the recorded screenshots; [action_count] is never
    written; the fields the session dict shares with its metadata agree. *)
Definition counters_agree (s : SessionData) : Prop :=
  md_total_actions (metadata s) = length (md_screenshots (metadata s))
  ∧ action_count s = 0
  ∧ recording_video s = md_record_video (metadata s)
  ∧ sd_created_at s = md_created_at (metadata s).

(** The path lists of the session dict against the entries of its metadata:
    the videos and traces are those of the metadata, the screenshots of the
    metadata are among [session["screenshots"]], in order. *)
Definition paths_recorded (s : SessionData) : Prop :=
  sd_videos s = filepath <$> md_videos (metadata s)
  ∧ sd_traces s = filepath <$> md_traces (metadata s)
  ∧ (filepath <$> md_screenshots (metadata s)) `sublist_of` sd_screenshots s.

(** An entry of the list of a kind is named by the convention: its file
    name starts with its sequence number, padded to three digits, and an
    underscore, holds no space, ends with the extension of the kind, and its
    path is that name in the subdirectory of the kind. *)
Definition well_named (session_dir : string) (kind : AssetKind)
    (e : AssetEntry) : Prop :=
  (∃ rest,
     filename e = format_03d (sequence e) +:+ "_" +:+ rest +:+ kind_ext kind)
  ∧ contains_char " " (filename e) = false
  ∧ filepath e
    = session_dir +:+ "/" +:+ kind_dir kind +:+ "/" +:+ filename e.

Definition entries_named (s : SessionData) : Prop :=
  ∀ kind e,
    e ∈ md_assets kind (metadata s) →
    well_named (md_session_dir (metadata s)) kind e.

(** A decimal digit, and a string of decimal digits. *)
Definition is_digit (c : Ascii.ascii) : bool :=
  (48 <=? nat_of_ascii c)%nat && (nat_of_ascii c <=? 57)%nat.

Fixpoint all_digits (s : string) : bool :=
  match s with
  | EmptyString => true
  | String c s' => is_digit c && all_digits s'
  end.

(** All the entries of a metadata dict. *)
Definition all_assets (m : Metadata) : list AssetEntry :=
  md_screenshots m ++ md_videos m ++ md_traces m.

(** ** What a run of the loop of [browser_automation] asks of the engine *)

(** The engine call of the branch an action of [browser_automation]
    selects at index [i]. *)
Definition automation_call (session_id : string) (i : nat)
    (a : BrowserAutomation.BrowserAction) : option Call :=
  if String.eqb (BrowserAutomation.action a) "goto" then
    Some (Goto (BrowserAutomation.url a) (BrowserAutomation.timeout a))
  else if String.eqb (BrowserAutomation.action a) "click" then
    Some (Click (BrowserAutomation.selector a) (BrowserAutomation.timeout a))
  else if String.eqb (BrowserAutomation.action a) "type" then
    Some (Fill (BrowserAutomation.selector a) (BrowserAutomation.text a))
  else if String.eqb (BrowserAutomation.action a) "screenshot" then
    Some (Screenshot (BrowserAutomation.screenshot_path session_id i))
  else if String.eqb (BrowserAutomation.action a) "wait" then
    Some (WaitForTimeout (BrowserAutomation.timeout a))
  else None.

(** The engine calls of the actions at the indices [i], [i+1], ... *)
Fixpoint automation_calls (session_id : string) (i : nat)
    (actions : list BrowserAutomation.BrowserAction) : list Call :=
  match actions with
  | [] => []
  | a :: rest =>
      option_list (automation_call session_id i a)
      ++ automation_calls session_id (S i) rest
  end.

(** ** What the lifecycle of a session asks of the engine *)

(** The engine calls of [create_session]. *)
Definition launch_calls (session_id browser_type : string) (headless : bool)
    (viewport_width viewport_height : Z) (record_video : bool) : list Call :=
  [PlaywrightStart; Launch browser_type headless;
   NewContext (viewport_width, viewport_height)
     (if record_video then Some (session_path session_id +:+ "/videos")
      else None);
   NewPage].

(** The engine calls that release a session at the end of
    [close_session]. *)
Definition teardown_calls : list Call :=
  [ContextClose; BrowserClose; PlaywrightExit].

(** The recording [close_session] registers for a session directory: the
    first [.webm] file of its [videos/] subdirectory. *)
Definition first_video (d : SessionDir) : option string :=
  head (filter (λ f, endswith f ".webm" = true) (videos_dir d)).

(** The session dict and the listing of [videos/] after the video part of
    [close_session] at clock reading [t]. *)
Definition finalized (s : SessionData) (d : SessionDir) (t : Z)
    : SessionData * list string :=
  if md_record_video (metadata s) then
    match first_video d with
    | None => (s, videos_dir d)
    | Some original =>
        (recorded Videos s "" "session_recording" "" t,
         SessionManager.rename_file original
           (asset_filename Videos (length (md_videos (metadata s)) + 1) ""
              "session_recording")
           (videos_dir d))
    end
  else (s, videos_dir d).

(** An engine on which no browser can be launched. *)
Definition no_browser_engine : Engine :=
  λ _ _ c, match c with
           | Launch _ _ => Some "Executable doesn't exist"
           | _ => None
           end.

(** An engine whose contexts cannot be closed. *)
Definition stuck_engine : Engine :=
  λ _ _ c, match c with
           | ContextClose => Some "Target closed"
           | _ => None
           end.

(** ** What the sweep leaves alone, and what it reports *)

(** A session directory the sweep does not archive at clock reading
    [current_time]: its [metadata.json] is missing or does not parse, or its
    last activity is no older than the maximum age (in microseconds). *)
Definition recent (current_time max_age : Z) (d : SessionDir) : Prop :=
  ∀ m,
    metadata_json d = Json m →
    (current_time - md_last_activity m ≤ max_age)%Z.

(** An entry of [cleaned_sessions] that tells what happened between the
    worlds [w] and [w']: the session had a directory and was older than the
    maximum age; it is no longer in the store; its directory is gone from the
    session root; the directory named by [archived_to], which is the archive
    name of the session, exists. *)
Definition reported (current_time max_age : Z) (w w' : World)
    (c : CleanedSession) : Prop :=
  archived_to c = archived_path (cs_session_id c) (cs_last_activity c)
  ∧ (max_age < current_time - cs_last_activity c)%Z
  ∧ is_Some (fs w !! session_path (cs_session_id c))
  ∧ sessions w' !! cs_session_id c = None
  ∧ fs w' !! session_path (cs_session_id c) = None
  ∧ is_Some (fs w' !! archived_to c).

(** ** More example worlds *)

(** The world [one_session] after a manual screenshot, a trace and a
    sequence of one navigation with a capture. *)
Definition busy_session : World :=
  run_ops healthy_engine
    [OpTakeScreenshot "abc12345";
     OpAddAsset Traces "abc12345" "" "interaction trace" "";
     OpExecuteSequence "abc12345" [goto_example]] one_session.

(** A fresh installation on which one session that records video was
    created, and into whose [videos/] directory the engine has written a
    file. *)
Definition recording_session : World :=
  run_op healthy_engine (OpVideoWritten "abc12345" "f3a9c1.webm")
    (create_session healthy_engine example_uuid "chromium" true 1280 720 true
       (initial 1700000000000000)).2.

(** ** The release of a session on the Playwright library *)

(** [session["playwright"]] is what [async_playwright().__aenter__()]
    returned when the session was created: the [Playwright] object, which
    has a method [stop] and no method [__aexit__].  The last release call of
    [close_session] is the attribute lookup [.__aexit__] on that object: it
    raises [AttributeError], whatever was called before. *)
Definition aexit_raises (eng : Engine) : Prop :=
  ∀ history session_id, eng history session_id PlaywrightExit ≠ None.

(** An engine on which every call returns but that one. *)
Definition playwright_engine : Engine :=
  λ _ _ c, match c with
           | PlaywrightExit =>
               Some "'Playwright' object has no attribute '__aexit__'"
           | _ => None
           end.

(** ** The files the engine writes *)

(** The session directories of [fs] hold [metadata.json] and the listing of
    [videos/].  The image files are written by the engine, one by each
    [page.screenshot(path=...)] call that returns: the paths of these calls
    among [cs]. *)
Definition capture_paths (cs : list (string * Call)) : list string :=
  omap (λ c, match c.2 with Screenshot path => Some path | _ => None end) cs.

(** A path named after a session: a place inside its session directory, or
    a file [session_<id>_...] of the shared directory [screenshots/]. *)
Definition session_capture (session_id path : string) : Prop :=
  (∃ r, path = session_path session_id +:+ "/" +:+ r)
  ∨ (∃ r, path = recordings_base +:+ "/screenshots/session_" +:+ session_id
                 +:+ "_" +:+ r).

(** An engine call issued for a session that, if it is a capture, writes a
    file named after the session. *)
Definition session_call (session_id : string) (c : string * Call) : Prop :=
  c.1 = session_id
  ∧ ∀ path, c.2 = Screenshot path → session_capture session_id path.

(** From [w] to [w'], the engine calls issued are calls of [session_id]
    whose captures are named after it. *)
Definition calls_only (session_id : string) (w w' : World) : Prop :=
  ∃ new, calls w' = calls w ++ new ∧ Forall (session_call session_id) new.

(** The world [one_session] after a restart of the process: the directory of
    the session is on disk, the store is empty. *)
Definition restarted_session : World :=
  run_op healthy_engine OpRestart one_session.

(** The world [one_session_later] after a sweep with maximum age 0: the
    session is archived. *)
Definition swept_session : World :=
  run_op healthy_engine (OpCleanupOldSessions 0) one_session_later.

(** * Properties *)

(** ** The asset recorder *)

Section AssetRecorder.

Implicit Types (w : World) (session_id : string) (kind : AssetKind).

Lemma save_metadata_ok w session_id m d :
  fs w !! session_path session_id = Some d →
  SessionManager._save_session_metadata session_id m w
  = (Return tt,
     set_fs <[session_path session_id := mkSessionDir (Json m) (videos_dir d)]>
       w).
Proof.
  intros Hd. unfold SessionManager._save_session_metadata. by rewrite Hd.
Qed.

Lemma save_metadata_missing w session_id m :
  fs w !! session_path session_id = None →
  ∃ e, SessionManager._save_session_metadata session_id m w = (Raise e, w).
Proof.
  intros Hd. unfold SessionManager._save_session_metadata. rewrite Hd. eauto.
Qed.

(** The next sequence number of a session of the store. *)
Lemma next_sequence_number_active w session_id session kind :
  sessions w !! session_id = Some session →
  SessionManager._get_next_sequence_number w session_id kind
  = length (md_assets kind (metadata session)) + 1.
Proof.
  intros Hs. unfold SessionManager._get_next_sequence_number. by rewrite Hs.
Qed.

Lemma next_sequence_number_absent w session_id kind :
  sessions w !! session_id = None →
  SessionManager._get_next_sequence_number w session_id kind = 1.
Proof.
  intros Hs. unfold SessionManager._get_next_sequence_number. by rewrite Hs.
Qed.

(** C10. For a session id that is absent from the store, [add_screenshot],
    [add_video] and [add_trace] each return [None]: no exception is raised,
    and the world (the store, the metadata files, the engine) is the one
    before the call. *)
Theorem add_asset_absent_returns_none w session_id action description url :
  sessions w !! session_id = None →
  SessionManager.add_screenshot session_id action description url w
  = (Return None, w)
  ∧ SessionManager.add_video session_id description w = (Return None, w)
  ∧ SessionManager.add_trace session_id description w = (Return None, w).
Proof.
  intros Habsent.
  unfold SessionManager.add_screenshot, SessionManager.add_video,
    SessionManager.add_trace.
  by rewrite Habsent.
Qed.

Lemma add_asset_absent_returns_none_witness :
  sessions one_session !! "deadbeef" = None
  ∧ SessionManager.add_screenshot "deadbeef" "manual" "recording" "" one_session
    = (Return None, one_session)
  ∧ SessionManager.add_video "deadbeef" "recording" one_session
    = (Return None, one_session)
  ∧ SessionManager.add_trace "deadbeef" "recording" one_session
    = (Return None, one_session).
Proof.
  assert (H : sessions one_session !! "deadbeef" = None) by (vm_compute; reflexivity).
  split; [exact H|].
  exact (add_asset_absent_returns_none one_session "deadbeef" "manual"
           "recording" "" H).
Defined.

End AssetRecorder.

(** ** Closing a session *)

Section Close.
Variable eng : Engine.

Implicit Types (w : World) (session_id : string).

(** The manager's [close_session] does nothing for an id that is not in the
    store. *)
Lemma manager_close_absent w session_id :
  sessions w !! session_id = None →
  SessionManager.close_session eng session_id w = (Return tt, w).
Proof.
  intros Habsent.
  unfold SessionManager.close_session, bind, get_world, ret.
  by rewrite Habsent.
Qed.

(** The close endpoint for an id that is not in the store. *)
Lemma close_session_absent w session_id :
  sessions w !! session_id = None →
  close_session eng session_id w
  = (Raise (HTTPException 404 "Session not found"), w).
Proof.
  intros Habsent.
  unfold close_session, bind, SessionManager.get_session, raise.
  by rewrite Habsent.
Qed.

(** C7. For an id that is not in the active store (never created, or closed
    before), the close endpoint answers with the HTTP error 404 "Session not
    found" (an [HTTPException], which the framework turns into a response, not
    an unhandled exception), and the world, the store included, is unchanged;
    the manager's [close_session] itself is not reached, and would do
    nothing. *)
Theorem close_session_not_found w session_id :
  sessions w !! session_id = None →
  close_session eng session_id w
  = (Raise (HTTPException 404 "Session not found"), w)
  ∧ sessions (close_session eng session_id w).2 = sessions w
  ∧ SessionManager.close_session eng session_id w = (Return tt, w).
Proof.
  intros Habsent.
  pose proof (close_session_absent w session_id Habsent) as Hclose.
  split; [exact Hclose|]. split.
  - by rewrite Hclose.
  - by apply manager_close_absent.
Qed.

End Close.

Lemma close_session_not_found_witness :
  sessions closed_session !! "abc12345" = None
  ∧ close_session healthy_engine "abc12345" closed_session
    = (Raise (HTTPException 404 "Session not found"), closed_session).
Proof.
  assert (H : sessions closed_session !! "abc12345" = None)
    by (vm_compute; reflexivity).
  split; [exact H|].
  exact (proj1 (close_session_not_found healthy_engine closed_session
                  "abc12345" H)).
Defined.

(** ** What a successful addition records *)

Section AddAsset.

Implicit Types (w : World) (session_id : string) (kind : AssetKind).

Lemma add_asset_absent w kind session_id action description url :
  sessions w !! session_id = None →
  add_asset kind session_id action description url w = (Return None, w).
Proof.
  intros Hs. destruct kind; simpl;
    unfold SessionManager.add_screenshot, SessionManager.add_video,
      SessionManager.add_trace; by rewrite Hs.
Qed.

(** An addition for a session of the store succeeds when the session
    directory exists, and raises otherwise. *)
Lemma add_asset_succeeds w kind session_id action description url session d :
  sessions w !! session_id = Some session →
  fs w !! session_path session_id = Some d →
  ∃ path w',
    add_asset kind session_id action description url w
    = (Return (Some path), w').
Proof.
  intros Hs Hd.
  destruct kind; simpl;
    unfold SessionManager.add_screenshot, SessionManager.add_video,
      SessionManager.add_trace; rewrite Hs; unfold bind, ret;
    erewrite save_metadata_ok by (simpl; exact Hd); eauto.
Qed.

(** C6, as the code has it. For a session of the store and each asset kind, a
    successful addition returns the path of a new record whose sequence number
    is the count of the kind plus one; the record is appended to the in-memory
    metadata list of the kind (the other lists are unchanged), the in-memory
    metadata is what [metadata.json] holds when the call returns, and the
    metadata's [last_activity] is the time of the call.  [total_actions] and
    the session's own [last_activity] are updated by a screenshot only: a
    video or a trace leaves both as they were. *)
Theorem add_asset_records w kind session_id action description url session
    out w' :
  sessions w !! session_id = Some session →
  add_asset kind session_id action description url w = (Return out, w') →
  ∃ entry session' dir',
    out = Some (filepath entry)
    ∧ sequence entry = length (md_assets kind (metadata session)) + 1
    ∧ sessions w' = <[session_id := session']> (sessions w)
    ∧ md_assets kind (metadata session')
      = md_assets kind (metadata session) ++ [entry]
    ∧ (∀ kind', kind' ≠ kind →
         md_assets kind' (metadata session')
         = md_assets kind' (metadata session))
    ∧ md_last_activity (metadata session') = clock w
    ∧ md_total_actions (metadata session')
      = md_total_actions (metadata session) + action_bump kind
    ∧ sd_last_activity session'
      = match kind with
        | Screenshots => clock w
        | Videos | Traces => sd_last_activity session
        end
    ∧ fs w' !! session_path session_id = Some dir'
    ∧ metadata_json dir' = Json (metadata session').
Proof.
  intros Hs Hadd.
  destruct kind; simpl in Hadd;
    unfold SessionManager.add_screenshot, SessionManager.add_video,
      SessionManager.add_trace in Hadd;
    rewrite Hs in Hadd; unfold bind, ret in Hadd;
    unfold SessionManager._save_session_metadata in Hadd; simpl in Hadd;
    destruct (fs w !! session_path session_id) as [d|] eqn:Hd;
    try discriminate; injection Hadd as <- <-;
    (eexists _, _, _; split_and!;
     [ | | reflexivity | | | | | | | ];
     [ | | simpl; reflexivity | | | | | | ];
     simpl; rewrite ?(next_sequence_number_active _ _ _ _ Hs);
     [reflexivity
     | reflexivity
     | intros [] Hne; done
     | reflexivity
     | lia
     | reflexivity
     | apply lookup_insert_eq
     | reflexivity]).
Qed.

End AddAsset.

(** ** The sequence executor *)

Section Sequence.
Variable eng : Engine.

Implicit Types (w : World) (session_id : string) (a : SequenceAction)
  (loc : Locals) (cs : list Call).

Lemma branch_of_checkpoint tag :
  branch_of tag = BCheckpoint ↔ tag = "wait_for_screenshot_analysis".
Proof.
  unfold branch_of.
  destruct (String.eqb_spec tag "goto") as [->|?]; [done|].
  destruct (String.eqb_spec tag "click") as [->|?]; [done|].
  destruct (String.eqb_spec tag "type") as [->|?]; [done|].
  destruct (String.eqb_spec tag "wait") as [->|?]; [done|].
  destruct (String.eqb_spec tag "wait_for_screenshot_analysis") as [->|Hne];
    [done|].
  split; [discriminate|contradiction].
Qed.

(** The tags of the unknown branch are those outside the five the chain
    tests. *)
Lemma branch_of_unknown tag :
  branch_of tag = BUnknown ↔
  tag ∉ ["goto"; "click"; "type"; "wait"; "wait_for_screenshot_analysis"].
Proof.
  unfold branch_of. rewrite !not_elem_of_cons.
  destruct (String.eqb_spec tag "goto") as [->|H1];
    [split; [discriminate|tauto]|].
  destruct (String.eqb_spec tag "click") as [->|H2];
    [split; [discriminate|tauto]|].
  destruct (String.eqb_spec tag "type") as [->|H3];
    [split; [discriminate|tauto]|].
  destruct (String.eqb_spec tag "wait") as [->|H4];
    [split; [discriminate|tauto]|].
  destruct (String.eqb_spec tag "wait_for_screenshot_analysis") as [->|H5];
    [split; [discriminate|tauto]|].
  split; [|reflexivity]. intros _. split_and!; try assumption.
  apply not_elem_of_nil.
Qed.

Lemma same_metadata_refl w : same_metadata w w.
Proof. by intros ?. Qed.

Lemma same_metadata_sessions w w' :
  sessions w' = sessions w → same_metadata w w'.
Proof. intros Heq sid. by rewrite Heq. Qed.

Lemma same_metadata_trans w1 w2 w3 :
  same_metadata w1 w2 → same_metadata w2 w3 → same_metadata w1 w3.
Proof. intros H12 H23 sid. by rewrite H23, H12. Qed.

Lemma ran_calls_nil session_id w : ran_calls session_id [] w w.
Proof.
  unfold ran_calls. simpl. rewrite app_nil_r.
  split_and!; auto using same_metadata_refl.
Qed.

Lemma ran_calls_app session_id cs1 cs2 w1 w2 w3 :
  ran_calls session_id cs1 w1 w2 → ran_calls session_id cs2 w2 w3 →
  ran_calls session_id (cs1 ++ cs2) w1 w3.
Proof.
  intros (Hc1 & Hf1 & Ht1 & Hm1) (Hc2 & Hf2 & Ht2 & Hm2).
  unfold ran_calls. rewrite Hc2, Hc1, map_app, app_assoc.
  split_and!; [done | congruence | congruence
              | by eapply same_metadata_trans].
Qed.

(** An engine call changes the list of calls only, whatever its outcome. *)
Lemma engine_call_ran session_id c w :
  ran_calls session_id [c] w (SessionManager.engine_call eng session_id c w).2.
Proof.
  unfold SessionManager.engine_call.
  destruct (eng (calls w) session_id c); simpl;
    (split_and!; [reflexivity..|by apply same_metadata_sessions]).
Qed.

Lemma engine_call_returns session_id c w :
  eng (calls w) session_id c = None →
  SessionManager.engine_call eng session_id c w
  = (Return tt, set_calls (λ l, l ++ [(session_id, c)]) w).
Proof.
  intros Hok. unfold SessionManager.engine_call. by rewrite Hok.
Qed.

Lemma engine_call_raises session_id c w msg :
  eng (calls w) session_id c = Some msg →
  SessionManager.engine_call eng session_id c w
  = (Raise (Exception msg), set_calls (λ l, l ++ [(session_id, c)]) w).
Proof.
  intros Hko. unfold SessionManager.engine_call. by rewrite Hko.
Qed.

Lemma append_screenshot_ran session_id path w :
  ran_calls session_id [] w (append_session_screenshot session_id path w).2.
Proof.
  unfold append_session_screenshot, modify, ran_calls. simpl.
  rewrite app_nil_r. split_and!; try done.
  intros sid. simpl. rewrite lookup_alter.
  case_decide as Heq; [|done]. subst.
  match goal with
  | |- context [sessions w !! ?k] => by destruct (sessions w !! k)
  end.
Qed.

Lemma accepts_app history session_id cs1 cs2 :
  accepts eng history session_id (cs1 ++ cs2)
  = accepts eng history session_id cs1
    && accepts eng (history ++ map (pair session_id) cs1) session_id cs2.
Proof.
  revert history. induction cs1 as [|c cs1 IH]; intros history; simpl.
  - by rewrite app_nil_r.
  - destruct (eng history session_id c); [done|].
    by rewrite IH, <- app_assoc.
Qed.

Lemma accepts_one history session_id c :
  accepts eng history session_id [c] = true ↔ eng history session_id c = None.
Proof. simpl. destruct (eng history session_id c); split; done. Qed.

Lemma set_calls_ran session_id c w :
  ran_calls session_id [c] w (set_calls (λ l, l ++ [(session_id, c)]) w).
Proof. split_and!; [reflexivity..|by apply same_metadata_sessions]. Qed.

Lemma then_engine_call {A} session_id c (k : M A) w :
  eng (calls w) session_id c = None →
  (SessionManager.engine_call eng session_id c ;;; k) w
  = k (set_calls (λ l, l ++ [(session_id, c)]) w).
Proof. intros Hok. unfold bind. by rewrite engine_call_returns. Qed.

Lemma then_append_screenshot {A} session_id path (k : M A) w :
  (append_session_screenshot session_id path ;;; k) w
  = k (append_session_screenshot session_id path w).2.
Proof. reflexivity. Qed.

(** The capture of a step or of a checkpoint, when the engine call returns:
    the path is appended to the session's list. *)
Lemma capture_returns {A} session_id path (k : M A) w :
  eng (calls w) session_id (Screenshot path) = None →
  ∃ w',
    (SessionManager.engine_call eng session_id (Screenshot path) ;;;
     append_session_screenshot session_id path ;;; k) w = k w'
    ∧ ran_calls session_id [Screenshot path] w w'.
Proof.
  intros Hok. rewrite then_engine_call by done.
  rewrite then_append_screenshot. eexists. split; [reflexivity|].
  rewrite <- (app_nil_r [Screenshot path]).
  eapply ran_calls_app; [apply set_calls_ran|apply append_screenshot_ran].
Qed.

Lemma bind_return {A B} (c : M A) (k : A → M B) w x w' :
  c w = (Return x, w') → bind c k w = k x w'.
Proof. intros Hc. unfold bind. by rewrite Hc. Qed.

Lemma bind_raise {A B} (c : M A) (k : A → M B) w e w' :
  c w = (Raise e, w') → bind c k w = (Raise e, w').
Proof. intros Hc. unfold bind. by rewrite Hc. Qed.

(** The branch of an action whose engine call, if it has one, returns. *)
Lemma apply_action_returns session_id i a w :
  accepts eng (calls w) session_id (option_list (action_call a)) = true →
  ∃ w',
    apply_action eng session_id i a w = (Return (action_result i a), w')
    ∧ ran_calls session_id (option_list (action_call a)) w w'.
Proof.
  unfold apply_action, action_call, action_result.
  destruct (branch_of (action a)); simpl option_list; intros Hacc;
    try (apply accepts_one in Hacc; rewrite then_engine_call by exact Hacc;
         eexists; split; [reflexivity|apply set_calls_ran]);
    (eexists; split; [reflexivity|apply ran_calls_nil]).
Qed.

Lemma apply_action_ran session_id i a w :
  ∃ cs, ran_calls session_id cs w (apply_action eng session_id i a w).2.
Proof.
  unfold apply_action.
  destruct (branch_of (action a));
    try (unfold bind;
         match goal with
         | |- context [SessionManager.engine_call eng session_id ?c w] =>
             pose proof (engine_call_ran session_id c w) as Hran;
             destruct (SessionManager.engine_call eng session_id c w)
               as [[[]|e] w2]; simpl in Hran |- *; by eauto
         end);
    (exists []; apply ran_calls_nil).
Qed.

(** A step whose calls all return: one result is appended, and the capture
    when one was requested. *)
Lemma step_returns session_id i a loc w :
  accepts eng (calls w) session_id (step_calls session_id i a) = true →
  ∃ w',
    step eng session_id i a loc w
    = (Return (mkLocals (action_results loc ++ [step_result session_id i a])
                 (screenshots loc ++ step_capture session_id i a)), w')
    ∧ ran_calls session_id (step_calls session_id i a) w w'.
Proof.
  intros Hacc. unfold step_calls in *. rewrite accepts_app in Hacc.
  apply andb_prop in Hacc as [Hact Hcap].
  destruct (apply_action_returns session_id i a w Hact)
    as (w1 & Happly & Hran1).
  assert (Hcalls : calls w1
                   = calls w ++ map (pair session_id)
                       (option_list (action_call a))) by apply Hran1.
  rewrite <- Hcalls in Hcap.
  unfold step. rewrite (bind_return _ _ _ _ _ Happly).
  unfold step_result, step_capture in *.
  destruct (default false (screenshot_after a)); simpl in Hcap |- *.
  - apply accepts_one in Hcap.
    destruct (capture_returns session_id (step_screenshot_path session_id i)
                (ret (mkLocals
                        (action_results loc
                         ++ [with_screenshot_path (action_result i a)
                               (step_screenshot_path session_id i)])
                        (screenshots loc
                         ++ [step_screenshot_path session_id i])))
                w1 Hcap) as (w' & Heq & Hran2).
    exists w'. split; [exact Heq|].
    eapply ran_calls_app; eassumption.
  - exists w1. rewrite !app_nil_r. split; [reflexivity|exact Hran1].
Qed.

(** A step, whatever its outcome, only calls the engine and appends to the
    session's list of screenshots. *)
Lemma step_ran session_id i a loc w :
  ∃ cs, ran_calls session_id cs w (step eng session_id i a loc w).2.
Proof.
  unfold step, bind at 1.
  destruct (apply_action_ran session_id i a w) as [cs1 Hran1].
  destruct (apply_action eng session_id i a w) as [[r|e] w1]; simpl in Hran1;
    [|by eauto].
  destruct (default false (screenshot_after a)); [|by eauto].
  pose proof (engine_call_ran session_id
                (Screenshot (step_screenshot_path session_id i)) w1) as Hran2.
  destruct (SessionManager.engine_call eng session_id
              (Screenshot (step_screenshot_path session_id i)) w1)
    as [[[]|e'] w2] eqn:Hcall; simpl in Hran2.
  - rewrite (bind_return _ _ _ _ _ Hcall), then_append_screenshot.
    unfold ret. simpl.
    eexists. eapply ran_calls_app; [exact Hran1|].
    eapply ran_calls_app; [exact Hran2|apply append_screenshot_ran].
  - rewrite (bind_raise _ _ _ _ _ Hcall). simpl.
    eexists. eapply ran_calls_app; eassumption.
Qed.

(** The checkpoint branch when the capture returns. *)
Lemma checkpoint_returns session_id i a loc w :
  eng (calls w) session_id (Screenshot (analysis_screenshot_path session_id i))
  = None →
  ∃ w',
    checkpoint eng session_id i a loc w
    = (Return (analysis_screenshot_path session_id i,
               mkLocals
                 (action_results loc ++ [checkpoint_result session_id i a])
                 (screenshots loc ++ [analysis_screenshot_path session_id i])),
       w')
    ∧ ran_calls session_id [Screenshot (analysis_screenshot_path session_id i)]
        w w'.
Proof.
  intros Hok. unfold checkpoint.
  destruct (capture_returns session_id (analysis_screenshot_path session_id i)
              (ret (analysis_screenshot_path session_id i,
                    mkLocals
                      (action_results loc ++ [checkpoint_result session_id i a])
                      (screenshots loc
                       ++ [analysis_screenshot_path session_id i])))
              w Hok) as (w' & Heq & Hran).
  exists w'. split; [exact Heq|exact Hran].
Qed.

Lemma checkpoint_ran session_id i a loc w :
  ∃ cs, ran_calls session_id cs w (checkpoint eng session_id i a loc w).2.
Proof.
  unfold checkpoint.
  pose proof (engine_call_ran session_id
                (Screenshot (analysis_screenshot_path session_id i)) w) as Hran.
  destruct (SessionManager.engine_call eng session_id
              (Screenshot (analysis_screenshot_path session_id i)) w)
    as [[[]|e] w2] eqn:Hcall; simpl in Hran.
  - rewrite (bind_return _ _ _ _ _ Hcall), then_append_screenshot.
    unfold ret. simpl. eexists.
    eapply ran_calls_app; [exact Hran|apply append_screenshot_ran].
  - rewrite (bind_raise _ _ _ _ _ Hcall). simpl. eauto.
Qed.

(** The loop only calls the engine and appends to the session's list of
    screenshots: it writes no file and changes no metadata. *)
Lemma run_actions_ran session_id actions i loc w :
  ∃ cs, ran_calls session_id cs w (run_actions eng session_id i actions loc w).2.
Proof.
  revert i loc w. induction actions as [|a rest IH]; intros i loc w; simpl.
  - exists []. apply ran_calls_nil.
  - assert (Hstep :
      ∃ cs, ran_calls session_id cs w
        (match step eng session_id i a loc w with
         | (Return loc', w') => run_actions eng session_id (S i) rest loc' w'
         | (Raise e, w') => (Failed e, loc, w')
         end).2).
    { destruct (step_ran session_id i a loc w) as [cs Hcs].
      destruct (step eng session_id i a loc w) as [[loc'|e] w1]; simpl in *;
        [|by eauto].
      destruct (IH (S i) loc' w1) as [cs' Hcs'].
      eexists. eapply ran_calls_app; eassumption. }
    destruct (branch_of (action a)); try exact Hstep.
    destruct (checkpoint_ran session_id i a loc w) as [cs Hcs].
    destruct (checkpoint eng session_id i a loc w) as [[[p loc']|e] w1];
      simpl in *; eauto.
Qed.

(** The loop over a prefix without checkpoint whose calls all return: it
    goes on with the rest of the list, one result appended per action. *)
Lemma run_actions_prefix session_id pre rest i loc w :
  Forall (λ a, branch_of (action a) ≠ BCheckpoint) pre →
  accepts eng (calls w) session_id (sequence_calls session_id i pre) = true →
  ∃ w',
    run_actions eng session_id i (pre ++ rest) loc w
    = run_actions eng session_id (i + length pre) rest
        (mkLocals (action_results loc ++ sequence_results session_id i pre)
           (screenshots loc ++ sequence_captures session_id i pre)) w'
    ∧ ran_calls session_id (sequence_calls session_id i pre) w w'.
Proof.
  revert i loc w. induction pre as [|a pre IH]; intros i loc w Hpre Hacc.
  - exists w. simpl. rewrite !app_nil_r, Nat.add_0_r.
    destruct loc. split; [reflexivity|apply ran_calls_nil].
  - apply Forall_cons in Hpre as [Ha Hpre]. simpl in Hacc.
    rewrite accepts_app in Hacc. apply andb_prop in Hacc as [Hacc1 Hacc2].
    destruct (step_returns session_id i a loc w Hacc1) as (w1 & Hstep & Hran1).
    assert (Hcalls : calls w1
                     = calls w ++ map (pair session_id)
                                    (step_calls session_id i a))
      by apply Hran1.
    rewrite <- Hcalls in Hacc2.
    destruct (IH (S i)
                (mkLocals (action_results loc ++ [step_result session_id i a])
                   (screenshots loc ++ step_capture session_id i a))
                w1 Hpre Hacc2) as (w' & Hrun & Hran2).
    exists w'. split.
    + simpl. rewrite Hstep.
      replace (i + S (length pre)) with (S i + length pre) by lia.
      simpl in Hrun. rewrite <- !app_assoc in Hrun. simpl in Hrun.
      by destruct (branch_of (action a)).
    + simpl. eapply ran_calls_app; eassumption.
Qed.

Lemma sequence_results_length session_id i actions :
  length (sequence_results session_id i actions) = length actions.
Proof.
  revert i. induction actions as [|a rest IH]; intros i; simpl; [done|].
  by rewrite IH.
Qed.



End Sequence.

(** ** Checkpoints, failures and unknown actions *)

Section SequenceClaims.
Variable eng : Engine.

Implicit Types (w : World) (session_id : string) (a : SequenceAction)
  (actions : list SequenceAction).

Lemma execute_sequence_unfold session_id actions w session :
  sessions w !! session_id = Some session →
  execute_sequence eng session_id actions w
  = match run_actions eng session_id 0 actions (mkLocals [] []) w with
    | (Exhausted, loc, w') =>
        (Return (Completed session_id (length (action_results loc))
                   (action_results loc) (screenshots loc) (clock w')), w')
    | (Paused i screenshot_path next_actions, loc, w') =>
        (Return (PausedForAnalysis session_id i screenshot_path next_actions
                   (action_results loc)), w')
    | (Failed e, loc, w') =>
        (SessionManager.engine_call eng session_id
           (Screenshot (error_screenshot_path session_id)) ;;;
         w'' <~ get_world ;;
         ret (SequenceError session_id (str_exn e)
                (error_screenshot_path session_id) (action_results loc)
                (clock w''))) w'
    end.
Proof.
  intros Hs. unfold execute_sequence, bind at 1, SessionManager.get_session.
  by rewrite Hs.
Qed.

(** C1, as the code has it. For a session of the store and an action list
    whose first checkpoint (tag [wait_for_screenshot_analysis]) is at index
    [k], provided that the engine lets the calls of the [k] actions before it
    and the capture of the checkpoint return, [execute_sequence] returns a
    paused response with exactly [k+1] step results (those of the [k] steps
    and the [waiting_for_analysis] record of the checkpoint), the path of the
    checkpoint capture, and [next_actions] equal to the input list after index
    [k]; the engine received the calls of the first [k] steps and the capture,
    and nothing of the actions after index [k]. *)
Theorem checkpoint_pauses w session_id session actions k cp :
  sessions w !! session_id = Some session →
  actions !! k = Some cp →
  action cp = "wait_for_screenshot_analysis" →
  (∀ j a, j < k → actions !! j = Some a →
          action a ≠ "wait_for_screenshot_analysis") →
  accepts eng (calls w) session_id
    (sequence_calls session_id 0 (take k actions)
     ++ [Screenshot (analysis_screenshot_path session_id k)]) = true →
  ∃ results w',
    execute_sequence eng session_id actions w
    = (Return (PausedForAnalysis session_id k
                 (analysis_screenshot_path session_id k)
                 (drop (S k) actions) results), w')
    ∧ results = sequence_results session_id 0 (take k actions)
                ++ [checkpoint_result session_id k cp]
    ∧ length results = S k
    ∧ r_status (checkpoint_result session_id k cp) = "waiting_for_analysis"
    ∧ ran_calls session_id
        (sequence_calls session_id 0 (take k actions)
         ++ [Screenshot (analysis_screenshot_path session_id k)]) w w'.
Proof.
  intros Hs Hk Htag Hfirst Hacc.
  assert (Hlen : length (take k actions) = k).
  { apply length_take_le. apply lookup_lt_Some in Hk. lia. }
  assert (Hpre : Forall (λ a, branch_of (action a) ≠ BCheckpoint)
                   (take k actions)).
  { apply Forall_lookup. intros j a Hj.
    apply lookup_take_Some in Hj as [Hj Hlt].
    rewrite branch_of_checkpoint. by eapply Hfirst. }
  rewrite accepts_app in Hacc. apply andb_prop in Hacc as [Hacc1 Hacc2].
  apply accepts_one in Hacc2.
  destruct (run_actions_prefix eng session_id (take k actions)
              (cp :: drop (S k) actions) 0 (mkLocals [] []) w Hpre Hacc1)
    as (w1 & Hrun & Hran1).
  rewrite take_drop_middle in Hrun by done.
  rewrite Hlen in Hrun. simpl in Hrun.
  assert (Hcp : branch_of (action cp) = BCheckpoint)
    by by apply branch_of_checkpoint.
  rewrite Hcp in Hrun.
  assert (Hcalls : calls w1
                   = calls w ++ map (pair session_id)
                       (sequence_calls session_id 0 (take k actions)))
    by apply Hran1.
  rewrite <- Hcalls in Hacc2.
  destruct (checkpoint_returns eng session_id k cp
              (mkLocals (sequence_results session_id 0 (take k actions))
                 (sequence_captures session_id 0 (take k actions)))
              w1 Hacc2) as (w' & Hcheck & Hran2).
  rewrite Hcheck in Hrun.
  exists (sequence_results session_id 0 (take k actions)
          ++ [checkpoint_result session_id k cp]), w'.
  split_and!.
  - rewrite (execute_sequence_unfold _ _ _ _ Hs), Hrun. reflexivity.
  - reflexivity.
  - rewrite length_app, sequence_results_length, Hlen. simpl. lia.
  - reflexivity.
  - eapply ran_calls_app; eassumption.
Qed.

(** A recognized action whose engine call raises: the step raises after that
    one call. *)
Lemma step_raises session_id i a loc w c msg :
  action_call a = Some c →
  eng (calls w) session_id c = Some msg →
  step eng session_id i a loc w
  = (Raise (Exception msg), set_calls (λ l, l ++ [(session_id, c)]) w).
Proof.
  intros Hc Hraise. unfold step, apply_action, action_call in *.
  destruct (branch_of (action a)); try discriminate; injection Hc as <-;
    unfold bind; by rewrite (engine_call_raises _ _ _ _ _ Hraise).
Qed.

Lemma action_call_not_checkpoint a c :
  action_call a = Some c → branch_of (action a) ≠ BCheckpoint.
Proof. unfold action_call. by destruct (branch_of (action a)). Qed.

(** Once the session is found, [execute_sequence] never answers 404. *)
Lemma execute_sequence_found session_id actions w session :
  sessions w !! session_id = Some session →
  (execute_sequence eng session_id actions w).1
  ≠ Raise (HTTPException 404 "Session not found").
Proof.
  intros Hs. rewrite (execute_sequence_unfold _ _ _ _ Hs).
  destruct (run_actions eng session_id 0 actions (mkLocals [] []) w)
    as [[[| |e] loc] w']; try done.
  unfold bind, SessionManager.engine_call.
  by destruct (eng (calls w') session_id _).
Qed.

(** C5. For a session of the store and an action list in which the run
    reaches an action (the actions before it are no checkpoint and their calls
    return) whose engine call raises, [execute_sequence] asks the engine for
    the error screenshot right after the failing call and issues no further
    call, so the remaining actions are not processed; the session is still in
    the store with the same metadata, and a later [execute_sequence] on it is
    not answered with "Session not found".  When the capture of the error
    screenshot returns, the response has status [error] and carries the
    results of the steps completed before the failure, the message of the
    exception and the path of the error screenshot. *)
Theorem action_failure_reported w session_id session pre a rest c msg :
  sessions w !! session_id = Some session →
  Forall (λ a, branch_of (action a) ≠ BCheckpoint) pre →
  accepts eng (calls w) session_id (sequence_calls session_id 0 pre) = true →
  action_call a = Some c →
  eng (calls w ++ map (pair session_id) (sequence_calls session_id 0 pre))
    session_id c = Some msg →
  ∃ o w' session',
    execute_sequence eng session_id (pre ++ a :: rest) w = (o, w')
    ∧ ran_calls session_id
        (sequence_calls session_id 0 pre
         ++ [c; Screenshot (error_screenshot_path session_id)]) w w'
    ∧ sessions w' !! session_id = Some session'
    ∧ metadata session' = metadata session
    ∧ (∀ actions',
         (execute_sequence eng session_id actions' w').1
         ≠ Raise (HTTPException 404 "Session not found"))
    ∧ (eng (calls w
            ++ map (pair session_id) (sequence_calls session_id 0 pre ++ [c]))
         session_id (Screenshot (error_screenshot_path session_id)) = None →
       ∃ response,
         o = Return response
         ∧ response
           = SequenceError session_id msg (error_screenshot_path session_id)
               (sequence_results session_id 0 pre) (clock w)
         ∧ response_status response = "error"
         ∧ length (response_results response) = length pre).
Proof.
  intros Hs Hpre Hacc Hc Hraise.
  destruct (run_actions_prefix eng session_id pre (a :: rest) 0
              (mkLocals [] []) w Hpre Hacc) as (w1 & Hrun & Hran1).
  assert (Hcalls1 : calls w1
                    = calls w ++ map (pair session_id)
                        (sequence_calls session_id 0 pre)) by apply Hran1.
  rewrite <- Hcalls1 in Hraise.
  simpl in Hrun.
  rewrite (step_raises session_id _ a _ w1 c msg Hc Hraise) in Hrun.
  assert (Hrun' :
    run_actions eng session_id 0 (pre ++ a :: rest) (mkLocals [] []) w
    = (Failed (Exception msg),
       mkLocals (sequence_results session_id 0 pre)
         (sequence_captures session_id 0 pre),
       set_calls (λ l, l ++ [(session_id, c)]) w1)).
  { rewrite Hrun. pose proof (action_call_not_checkpoint a c Hc).
    by destruct (branch_of (action a)). }
  clear Hrun.
  set (w2 := set_calls (λ l, l ++ [(session_id, c)]) w1) in *.
  assert (Hran2 : ran_calls session_id
                    (sequence_calls session_id 0 pre ++ [c]) w w2).
  { eapply ran_calls_app; [exact Hran1|apply set_calls_ran]. }
  assert (Hcalls2 : calls w2
                    = calls w ++ map (pair session_id)
                        (sequence_calls session_id 0 pre ++ [c]))
    by apply Hran2.
  rewrite <- Hcalls2.
  set (w3 := set_calls
               (λ l, l ++ [(session_id,
                            Screenshot (error_screenshot_path session_id))])
               w2).
  assert (Hran3 : ran_calls session_id
                    (sequence_calls session_id 0 pre
                     ++ [c; Screenshot (error_screenshot_path session_id)])
                    w w3).
  { replace (sequence_calls session_id 0 pre
             ++ [c; Screenshot (error_screenshot_path session_id)])
      with ((sequence_calls session_id 0 pre ++ [c])
            ++ [Screenshot (error_screenshot_path session_id)])
      by (by rewrite <- app_assoc).
    eapply ran_calls_app; [exact Hran2|apply set_calls_ran]. }
  pose proof Hran3 as (Hcalls3 & Hfs3 & Hclock3 & Hmeta3).
  pose proof (Hmeta3 session_id) as Hmeta. rewrite Hs in Hmeta.
  destruct (sessions w3 !! session_id) as [session'|] eqn:Hs';
    simpl in Hmeta; [|discriminate].
  injection Hmeta as Hmeta.
  rewrite (execute_sequence_unfold _ _ _ _ Hs), Hrun'.
  destruct (eng (calls w2) session_id
              (Screenshot (error_screenshot_path session_id)))
    as [msg'|] eqn:Hcapture.
  - rewrite (bind_raise _ _ _ _ _ (engine_call_raises eng _ _ _ _ Hcapture)).
    eexists _, w3, session'. split; [reflexivity|].
    split_and!; try done.
    intros actions'. by eapply execute_sequence_found.
  - rewrite then_engine_call by exact Hcapture.
    eexists _, w3, session'. split; [reflexivity|].
    split_and!; try done.
    + intros actions'. by eapply execute_sequence_found.
    + intros _. eexists. split; [reflexivity|]. split_and!.
      * rewrite <- Hclock3. reflexivity.
      * reflexivity.
      * simpl. apply sequence_results_length.
Qed.


(** [execute_sequence] writes no file and changes no metadata, in memory or
    on disk: its captures reach the lists [session["screenshots"]] only. *)
Lemma execute_sequence_writes_no_metadata session_id actions w :
  fs (execute_sequence eng session_id actions w).2 = fs w
  ∧ same_metadata w (execute_sequence eng session_id actions w).2.
Proof.
  destruct (sessions w !! session_id) as [session|] eqn:Hs.
  - rewrite (execute_sequence_unfold _ _ _ _ Hs).
    destruct (run_actions_ran eng session_id actions 0 (mkLocals [] []) w)
      as (cs & _ & Hfs & _ & Hmeta).
    destruct (run_actions eng session_id 0 actions (mkLocals [] []) w)
      as [[[| |e] loc] w']; simpl in *; try done.
    unfold bind, SessionManager.engine_call.
    by destruct (eng (calls w') session_id _).
  - unfold execute_sequence, bind, SessionManager.get_session.
    rewrite Hs. split; [done|apply same_metadata_refl].
Qed.

End SequenceClaims.



(** ** Paths and session ids *)

Section Paths.

Implicit Types (s r : string) (session_id : string).

Lemma substring_0_length s : String.substring 0 (String.length s) s = s.
Proof. induction s as [|c s IH]; simpl; [done|by rewrite IH]. Qed.

Lemma string_app_length s1 s2 :
  String.length (s1 +:+ s2) = String.length s1 + String.length s2.
Proof. induction s1 as [|c s1 IH]; simpl; [done|by rewrite IH]. Qed.

Lemma string_app_cons c s1 s2 : String c s1 +:+ s2 = String c (s1 +:+ s2).
Proof. reflexivity. Qed.

Lemma string_app_assoc s1 s2 s3 : (s1 +:+ s2) +:+ s3 = s1 +:+ s2 +:+ s3.
Proof.
  induction s1 as [|c s1 IH]; [done|].
  rewrite !string_app_cons. by f_equal.
Qed.

Lemma string_app_nil_r s : s +:+ "" = s.
Proof.
  induction s as [|c s IH]; [done|]. rewrite string_app_cons. by f_equal.
Qed.

(** Two strings with equal-length prefixes agree on the prefixes. *)
Lemma string_app_inj_length s1 s2 r1 r2 :
  String.length s1 = String.length s2 →
  s1 +:+ r1 = s2 +:+ r2 → s1 = s2.
Proof.
  revert s2. induction s1 as [|c s1 IH]; intros [|c2 s2]; simpl;
    try done.
  rewrite !string_app_cons.
  intros [= Hlen] [= -> Heq]. f_equal. by eapply IH.
Qed.

Lemma contains_char_app c s1 s2 :
  contains_char c (s1 +:+ s2) = contains_char c s1 || contains_char c s2.
Proof.
  induction s1 as [|c1 s1 IH]; simpl; [done|]. by rewrite IH, orb_assoc.
Qed.

Lemma hex_digit_not_slash d : Ascii.eqb (hex_digit d) "/" = false.
Proof.
  destruct d as [|p]; [done|].
  do 4 (try destruct p as [p|p|]); reflexivity.
Qed.

Lemma hex_digits_no_slash k n : contains_char "/" (hex_digits k n) = false.
Proof.
  revert n. induction k as [|k IH]; intros n; simpl; [done|].
  rewrite contains_char_app, IH. simpl. by rewrite hex_digit_not_slash.
Qed.

Lemma hex_digits_length k n : String.length (hex_digits k n) = k.
Proof.
  revert n. induction k as [|k IH]; intros n; simpl; [done|].
  rewrite string_app_length, IH. simpl. lia.
Qed.

(** A generated id has eight characters, none of them a path separator. *)
Lemma valid_id_length session_id :
  valid_id session_id → String.length session_id = 8.
Proof. intros [u ->]. apply hex_digits_length. Qed.

Lemma valid_id_no_slash session_id :
  valid_id session_id → contains_char "/" session_id = false.
Proof. intros [u ->]. apply hex_digits_no_slash. Qed.

Lemma session_path_inj session_id1 session_id2 :
  session_path session_id1 = session_path session_id2 →
  session_id1 = session_id2.
Proof.
  unfold session_path. intros Heq.
  by do 2 apply (inj (String.append _)) in Heq.
Qed.

(** The glob finds the directory of a session exactly when the id has no
    path separator. *)
Lemma glob_match_session_path session_id :
  glob_match (session_path session_id)
  = negb (contains_char "/" session_id).
Proof.
  unfold glob_match, session_path, recordings_base. simpl.
  rewrite Nat.sub_0_r, substring_0_length. by destruct session_id.
Qed.

Lemma glob_match_valid session_id :
  valid_id session_id → glob_match (session_path session_id) = true.
Proof.
  intros Hvalid.
  by rewrite glob_match_session_path, valid_id_no_slash.
Qed.

(** The glob finds nothing below the archive root. *)
Lemma glob_match_archived session_id t r :
  glob_match (archived_path session_id t +:+ r) = false.
Proof. reflexivity. Qed.

Lemma glob_match_archived_path session_id t :
  glob_match (archived_path session_id t) = false.
Proof. reflexivity. Qed.

(** Archive names of different generated ids differ, also when one is a
    place inside the other's directory. *)
Lemma archived_path_inj session_id1 session_id2 t1 t2 r1 r2 :
  valid_id session_id1 → valid_id session_id2 →
  archived_path session_id1 t1 +:+ r1 = archived_path session_id2 t2 +:+ r2 →
  session_id1 = session_id2.
Proof.
  intros Hv1 Hv2. unfold archived_path. rewrite !string_app_assoc.
  intros Heq. do 2 apply (inj (String.append _)) in Heq.
  eapply string_app_inj_length; [|exact Heq].
  by rewrite !valid_id_length.
Qed.

Lemma archived_path_inj' session_id1 session_id2 t1 t2 r :
  valid_id session_id1 → valid_id session_id2 →
  archived_path session_id1 t1 +:+ r = archived_path session_id2 t2 →
  session_id1 = session_id2.
Proof.
  intros Hv1 Hv2 Heq.
  rewrite <- (string_app_nil_r (archived_path session_id2 t2)) in Heq.
  by eapply archived_path_inj.
Qed.

End Paths.


(** ** The invariant and the primitive changes of the world *)

Section Wf.

Implicit Types (w : World) (session_id : string) (kind : AssetKind).

Lemma gapless_nil : gapless [].
Proof. reflexivity. Qed.

Lemma gapless_snoc entries e :
  gapless entries → sequence e = length entries + 1 →
  gapless (entries ++ [e]).
Proof.
  unfold gapless. intros Hg He.
  rewrite map_app, length_app, Hg. simpl.
  rewrite Nat.add_1_r, seq_S. simpl. by rewrite He, Nat.add_1_r.
Qed.

(** In a gapless list every sequence number is below the next one. *)
Lemma gapless_below entries e :
  gapless entries → e ∈ entries → (1 ≤ sequence e ≤ length entries)%nat.
Proof.
  unfold gapless. intros Hg He.
  assert (Hin : sequence e ∈ map sequence entries).
  { apply list_elem_of_In, in_map, list_elem_of_In, He. }
  rewrite Hg in Hin. apply list_elem_of_In, in_seq in Hin. lia.
Qed.

(** The invariant reads the metadata of the sessions and the files only. *)
Lemma wf_same_metadata w w' :
  fs w' = fs w → same_metadata w w' → wf w → wf w'.
Proof.
  intros Hfs Hmeta (Hgap & Hmir & Hdisk).
  assert (Hback : ∀ sid s', sessions w' !! sid = Some s' →
            ∃ s, sessions w !! sid = Some s ∧ metadata s = metadata s').
  { intros sid s' Hs'. specialize (Hmeta sid). rewrite Hs' in Hmeta.
    destruct (sessions w !! sid) as [s|]; [|done].
    injection Hmeta as Hmeta. eauto. }
  split_and!.
  - intros sid s' kind Hs'. destruct (Hback _ _ Hs') as (s & Hs & <-).
    by eapply Hgap.
  - intros sid s' Hs'. destruct (Hback _ _ Hs') as (s & Hs & <-).
    rewrite Hfs. by apply Hmir.
  - intros p d m. rewrite Hfs. apply Hdisk.
Qed.

Lemma wf_frame w w' :
  sessions w' = sessions w → fs w' = fs w → wf w → wf w'.
Proof.
  intros Hs Hfs. apply wf_same_metadata; [done|].
  intros sid. by rewrite Hs.
Qed.

Lemma wf_ran_calls session_id cs w w' :
  ran_calls session_id cs w w' → wf w → wf w'.
Proof. intros (_ & Hfs & _ & Hmeta). by apply wf_same_metadata. Qed.

(** A session's record is replaced and its metadata written to its
    [metadata.json]: the pattern of [add_*], [close_session] and
    [create_session]. *)
Lemma wf_update w session_id session' m' d files :
  wf w →
  valid_id session_id →
  fs w !! session_path session_id = Some d →
  metadata session' = m' →
  md_session_id m' = session_id →
  md_session_dir m' = session_path session_id →
  (∀ kind, gapless (md_assets kind m')) →
  wf (set_fs <[session_path session_id := mkSessionDir (Json m') files]>
        (set_sessions <[session_id := session']> w)).
Proof.
  intros (Hgap & Hmir & Hdisk) Hvalid Hd <- Hid Hdir Hg. split_and!.
  - intros sid s kind. simpl. rewrite lookup_insert.
    case_decide as Heq; [intros [= <-]; apply Hg|apply Hgap].
  - intros sid s. simpl. rewrite lookup_insert.
    case_decide as Heq.
    + intros [= <-]. subst sid. split_and!; try done.
      rewrite lookup_insert_eq. eauto.
    + intros Hs. destruct (Hmir _ _ Hs) as (Hv & Hi & Hp & d' & Hd' & Hj).
      split_and!; try done.
      rewrite lookup_insert_ne; [eauto|].
      intros Hpath. by apply session_path_inj in Hpath.
  - intros p d' m. simpl. rewrite lookup_insert.
    case_decide as Heq.
    + intros [= <-] [= <-] _. subst p. by rewrite Hid.
    + apply Hdisk.
Qed.

Lemma wf_delete_session w session_id :
  wf w → wf (set_sessions (delete session_id) w).
Proof.
  intros (Hgap & Hmir & Hdisk). split_and!.
  - intros sid s kind. simpl. rewrite lookup_delete.
    case_decide; [done|apply Hgap].
  - intros sid s. simpl. rewrite lookup_delete.
    case_decide; [done|apply Hmir].
  - exact Hdisk.
Qed.

Lemma wf_restart w : wf w → wf (set_sessions (λ _, ∅) w).
Proof.
  intros (Hgap & Hmir & Hdisk). split_and!; [by intros ???|by intros ??|done].
Qed.

(** A directory changes but keeps its [metadata.json]. *)
Lemma wf_touch_dir w p d files :
  wf w → fs w !! p = Some d →
  wf (set_fs <[p := mkSessionDir (metadata_json d) files]> w).
Proof.
  intros (Hgap & Hmir & Hdisk) Hd. split_and!; [exact Hgap| |].
  - intros sid s Hs. destruct (Hmir _ _ Hs) as (Hv & Hi & Hp & d' & Hd' & Hj).
    split_and!; try done. simpl. rewrite lookup_insert.
    case_decide as Heq; [|eauto].
    subst p. rewrite Hd in Hd'. injection Hd' as <-. eauto.
  - intros p' d' m. simpl. rewrite lookup_insert.
    case_decide as Heq; [|apply Hdisk].
    intros [= <-] Hj. subst p'. simpl in Hj. by eapply Hdisk.
Qed.

Lemma wf_new_dir w p :
  wf w → fs w !! p = None →
  wf (set_fs <[p := mkSessionDir NoFile []]> w).
Proof.
  intros (Hgap & Hmir & Hdisk) Hd. split_and!; [exact Hgap| |].
  - intros sid s Hs. destruct (Hmir _ _ Hs) as (Hv & Hi & Hp & d' & Hd' & Hj).
    split_and!; try done. simpl. rewrite lookup_insert_ne; [eauto|].
    intros ->. by rewrite Hd in Hd'.
  - intros p' d' m. simpl. rewrite lookup_insert.
    case_decide as Heq; [|apply Hdisk]. by intros [= <-].
Qed.

(** A directory that belongs to no session of the store is removed. *)
Lemma wf_remove_dir w p :
  wf w →
  (∀ session_id, is_Some (sessions w !! session_id) →
                 session_path session_id ≠ p) →
  wf (set_fs (delete p) w).
Proof.
  intros (Hgap & Hmir & Hdisk) Hfree. split_and!; [exact Hgap| |].
  - intros sid s Hs. destruct (Hmir _ _ Hs) as (Hv & Hi & Hp & d' & Hd' & Hj).
    split_and!; try done. simpl. rewrite lookup_delete_ne; [eauto|].
    intros ->. eapply Hfree; [|reflexivity]. eauto.
  - intros p' d' m. simpl. rewrite lookup_delete.
    case_decide as Heq; [done|apply Hdisk].
Qed.

(** A directory appears at a path the glob does not find and that was
    free. *)
Lemma wf_archive_dir w p d :
  wf w → fs w !! p = None → glob_match p = false →
  wf (set_fs <[p := d]> w).
Proof.
  intros (Hgap & Hmir & Hdisk) Hfree Hglob. split_and!; [exact Hgap| |].
  - intros sid s Hs. destruct (Hmir _ _ Hs) as (Hv & Hi & Hp & d' & Hd' & Hj).
    split_and!; try done. simpl. rewrite lookup_insert_ne; [eauto|].
    intros ->. by rewrite Hfree in Hd'.
  - intros p' d' m. simpl. rewrite lookup_insert.
    case_decide as Heq; [|apply Hdisk].
    intros _ _ Hg. subst p'. by rewrite Hglob in Hg.
Qed.

Lemma touches_only_refl session_id w : touches_only session_id w w.
Proof. by split_and!. Qed.

Lemma touches_only_trans session_id w1 w2 w3 :
  touches_only session_id w1 w2 → touches_only session_id w2 w3 →
  touches_only session_id w1 w3.
Proof.
  intros (Hs1 & Hf1 & Hc1) (Hs2 & Hf2 & Hc2). split_and!.
  - intros sid Hne. by rewrite Hs2, Hs1.
  - intros p Hne. by rewrite Hf2, Hf1.
  - congruence.
Qed.

Lemma ran_calls_touches_only session_id sid cs w w' :
  ran_calls sid cs w w' →
  (∀ sid', sid' ≠ session_id → sessions w' !! sid' = sessions w !! sid') →
  touches_only session_id w w'.
Proof. intros (_ & Hfs & Hclock & _) Hs. split_and!; [done| |done].
  intros p _. by rewrite Hfs.
Qed.

End Wf.


(** ** The operations keep the invariant *)

Section Operations.
Variable eng : Engine.

Implicit Types (w : World) (session_id : string) (kind : AssetKind).

(** An addition for a session of the store, in a world that satisfies the
    invariant: it succeeds and changes that session only. *)
Lemma add_asset_spec w kind session_id action description url session :
  wf w → sessions w !! session_id = Some session →
  ∃ path w',
    add_asset kind session_id action description url w
    = (Return (Some path), w')
    ∧ wf w'
    ∧ touches_only session_id w w'
    ∧ is_Some (sessions w' !! session_id)
    ∧ calls w' = calls w.
Proof.
  intros Hwf Hs.
  destruct Hwf as (Hgap & Hmir & Hdisk).
  destruct (Hmir _ _ Hs) as (Hvalid & Hid & Hdir & d & Hd & Hjson).
  assert (Hwf : wf w) by done.
  assert (Htouch : ∀ s' m',
    touches_only session_id w
      (set_fs <[session_path session_id :=
                  mkSessionDir (Json m') (videos_dir d)]>
         (set_sessions <[session_id := s']> w))).
  { intros s' m'. split_and!; simpl; [| |done].
    - intros sid Hne. by rewrite lookup_insert_ne.
    - intros p Hne. by rewrite lookup_insert_ne. }
  destruct kind; simpl;
    unfold SessionManager.add_screenshot, SessionManager.add_video,
      SessionManager.add_trace; rewrite Hs;
    rewrite (next_sequence_number_active _ _ _ _ Hs);
    (erewrite bind_return;
     [|apply save_metadata_ok; simpl; exact Hd]);
    unfold ret; eexists _, _; (split; [reflexivity|]);
    (split_and!;
     [ apply (wf_update _ _ _ _ d); simpl; try done;
       intros []; simpl;
       first [ exact (Hgap _ _ Screenshots Hs)
             | exact (Hgap _ _ Videos Hs)
             | exact (Hgap _ _ Traces Hs)
             | apply gapless_snoc;
               [ first [ exact (Hgap _ _ Screenshots Hs)
                       | exact (Hgap _ _ Videos Hs)
                       | exact (Hgap _ _ Traces Hs) ]
               | reflexivity ] ]
     | apply Htouch
     | simpl; rewrite lookup_insert_eq; eauto
     | reflexivity ]).
Qed.

Lemma add_asset_wf w kind session_id action description url :
  wf w → wf (add_asset kind session_id action description url w).2.
Proof.
  intros Hwf. destruct (sessions w !! session_id) as [session|] eqn:Hs.
  - destruct (add_asset_spec w kind session_id action description url session
                Hwf Hs) as (path & w' & -> & Hwf' & _). exact Hwf'.
  - by rewrite (add_asset_absent _ _ _ _ _ _ Hs).
Qed.

(** The video part of [close_session] never raises in a world that
    satisfies the invariant, and changes the session's record and directory
    only. *)
Lemma finalize_video_spec w session_id session :
  wf w → sessions w !! session_id = Some session →
  ∃ w',
    SessionManager.finalize_video session_id session w = (Return tt, w')
    ∧ wf w'
    ∧ touches_only session_id w w'
    ∧ is_Some (sessions w' !! session_id)
    ∧ calls w' = calls w.
Proof.
  intros Hwf Hs.
  assert (Hsame : ∃ w',
    (Return tt, w) = (Return tt, w') ∧ wf w' ∧ touches_only session_id w w'
    ∧ is_Some (sessions w' !! session_id) ∧ calls w' = calls w).
  { exists w. split_and!; eauto using touches_only_refl. }
  unfold SessionManager.finalize_video.
  destruct (md_record_video (metadata session)); [|exact Hsame].
  unfold bind at 1, get_world at 1.
  destruct (proj1 (proj2 Hwf) _ _ Hs) as (Hvalid & Hid & Hdir & d & Hd & Hjson).
  rewrite Hdir, Hd.
  destruct (filter (λ f, endswith f ".webm" = true) (videos_dir d))
    as [|original files]; [exact Hsame|].
  destruct (add_asset_spec w Videos session_id "" "session_recording" ""
              session Hwf Hs)
    as (path & w1 & Hadd & Hwf1 & Htouch1 & [session1 Hs1] & Hcalls1).
  simpl in Hadd. rewrite (bind_return _ _ _ _ _ Hadd).
  destruct (proj1 (proj2 Hwf1) _ _ Hs1) as (_ & _ & _ & d1 & Hd1 & _).
  unfold SessionManager.rename_video. rewrite Hd1.
  eexists. split; [reflexivity|]. split_and!.
  - by apply wf_touch_dir.
  - eapply touches_only_trans; [exact Htouch1|].
    split_and!; simpl; [done| |done].
    intros p Hne. by rewrite lookup_insert_ne.
  - simpl. eauto.
  - simpl. exact Hcalls1.
Qed.

(** The end of [close_session]: the three calls that release the engine,
    then the removal from the store. *)
Lemma teardown_spec session_id w :
  ∃ o w',
    (SessionManager.engine_call eng session_id ContextClose ;;;
     SessionManager.engine_call eng session_id BrowserClose ;;;
     SessionManager.engine_call eng session_id PlaywrightExit ;;;
     modify (set_sessions (delete session_id))) w = (o, w')
    ∧ fs w' = fs w
    ∧ clock w' = clock w
    ∧ (sessions w' = sessions w ∨ sessions w' = delete session_id (sessions w))
    ∧ (o = Return tt → sessions w' = delete session_id (sessions w))
    ∧ (teardown_returns eng → o = Return tt).
Proof.
  destruct (eng (calls w) session_id ContextClose) as [msg|] eqn:H1.
  { rewrite (bind_raise _ _ _ _ _ (engine_call_raises eng _ _ _ _ H1)).
    eexists _, _. split; [reflexivity|].
    split_and!; try done; [by left|].
    intros Hok. destruct (Hok (calls w) session_id) as (Hc & _). congruence. }
  rewrite then_engine_call by exact H1.
  set (w1 := set_calls _ w).
  destruct (eng (calls w1) session_id BrowserClose) as [msg|] eqn:H2.
  { rewrite (bind_raise _ _ _ _ _ (engine_call_raises eng _ _ _ _ H2)).
    eexists _, _. split; [reflexivity|].
    split_and!; try done; [by left|].
    intros Hok. destruct (Hok (calls w1) session_id) as (_ & Hc & _).
    congruence. }
  rewrite then_engine_call by exact H2.
  set (w2 := set_calls _ w1).
  destruct (eng (calls w2) session_id PlaywrightExit) as [msg|] eqn:H3.
  { rewrite (bind_raise _ _ _ _ _ (engine_call_raises eng _ _ _ _ H3)).
    eexists _, _. split; [reflexivity|].
    split_and!; try done; [by left|].
    intros Hok. destruct (Hok (calls w2) session_id) as (_ & _ & Hc).
    congruence. }
  rewrite then_engine_call by exact H3.
  eexists _, _. split; [reflexivity|].
  split_and!; try done. by right.
Qed.

(** The manager's [close_session] for a session of the store: the session's
    metadata is written with status [completed]; other sessions and other
    directories are untouched; when it returns the session is gone from the
    store, and it returns when the engine lets the release calls return. *)
Lemma close_session_spec w session_id session :
  wf w → sessions w !! session_id = Some session →
  ∃ o w',
    SessionManager.close_session eng session_id w = (o, w')
    ∧ wf w'
    ∧ touches_only session_id w w'
    ∧ (∃ d m, fs w' !! session_path session_id = Some d
              ∧ metadata_json d = Json m
              ∧ md_session_id m = session_id
              ∧ md_status m = "completed")
    ∧ (o = Return tt → sessions w' !! session_id = None)
    ∧ (teardown_returns eng → o = Return tt).
Proof.
  intros Hwf Hs.
  unfold SessionManager.close_session, bind at 1, get_world at 1.
  rewrite Hs.
  destruct (finalize_video_spec w session_id session Hwf Hs)
    as (w1 & Hfin & Hwf1 & Htouch1 & [session1 Hs1] & _).
  rewrite (bind_return _ _ _ _ _ Hfin).
  unfold bind at 1, get_world at 1. rewrite Hs1.
  destruct Hwf1 as (Hgap1 & Hmir1 & Hdisk1).
  destruct (Hmir1 _ _ Hs1) as (Hvalid & Hid & Hdir & d1 & Hd1 & Hjson1).
  unfold bind at 1, modify at 1.
  erewrite bind_return; [|apply save_metadata_ok; simpl; exact Hd1].
  match goal with
  | |- context [_ (set_fs ?f (set_sessions ?g w1))] =>
      set (w2 := set_fs f (set_sessions g w1))
  end.
  assert (Hwf2 : wf w2).
  { apply (wf_update _ _ _ _ d1); simpl; try done.
    intros []; simpl;
      [exact (Hgap1 _ _ Screenshots Hs1)|exact (Hgap1 _ _ Videos Hs1)
      |exact (Hgap1 _ _ Traces Hs1)]. }
  assert (Htouch2 : touches_only session_id w1 w2).
  { split_and!; simpl; [| |done].
    - intros sid Hne. by rewrite lookup_insert_ne.
    - intros p Hne. by rewrite lookup_insert_ne. }
  destruct (teardown_spec session_id w2)
    as (o & w3 & Hrun & Hfs3 & Hclock3 & Hsess3 & Hret3 & Hok3).
  rewrite Hrun. exists o, w3. split; [reflexivity|].
  assert (Hwf3 : wf w3).
  { destruct Hsess3 as [Hsame|Hdel].
    - by apply (wf_frame w2).
    - apply (wf_frame (set_sessions (delete session_id) w2)); try done.
      by apply wf_delete_session. }
  split_and!.
  - exact Hwf3.
  - eapply touches_only_trans; [exact Htouch1|].
    eapply touches_only_trans; [exact Htouch2|].
    split_and!; [|by intros p _; rewrite Hfs3|done].
    intros sid Hne. destruct Hsess3 as [->| ->]; [done|].
    by rewrite lookup_delete_ne.
  - rewrite Hfs3. eexists _, _. split; [apply lookup_insert_eq|].
    by simpl.
  - intros Ho. rewrite (Hret3 Ho). apply lookup_delete_eq.
  - exact Hok3.
Qed.

Lemma close_session_wf w session_id :
  wf w → wf (SessionManager.close_session eng session_id w).2.
Proof.
  intros Hwf. destruct (sessions w !! session_id) as [session|] eqn:Hs.
  - destruct (close_session_spec w session_id session Hwf Hs)
      as (o & w' & -> & Hwf' & _). exact Hwf'.
  - by rewrite (manager_close_absent eng _ _ Hs).
Qed.

Lemma try_except_return {A} (c : M A) h w x w' :
  c w = (Return x, w') → try_except c h w = (Return x, w').
Proof. intros Hc. unfold try_except. by rewrite Hc. Qed.

Lemma try_except_raise {A} (c : M A) h w e w' :
  c w = (Raise e, w') → try_except c h w = h e w'.
Proof. intros Hc. unfold try_except. by rewrite Hc. Qed.

Lemma try_except_bind_return {A B} (c : M A) (k : A → M B) h w x w' :
  c w = (Return x, w') →
  try_except (bind c k) h w = try_except (k x) h w'.
Proof. intros Hc. unfold try_except, bind. by rewrite Hc. Qed.

Lemma try_except_bind_raise {A B} (c : M A) (k : A → M B) h w e w' :
  c w = (Raise e, w') → try_except (bind c k) h w = h e w'.
Proof. intros Hc. unfold try_except, bind. by rewrite Hc. Qed.

(** [shutil.move] of a directory that belongs to no session of the store, to
    a place the glob does not find. *)
Lemma shutil_move_wf w src dst :
  wf w →
  (∀ session_id, is_Some (sessions w !! session_id) →
                 session_path session_id ≠ src) →
  (∀ r, glob_match (dst +:+ r) = false) →
  wf (shutil_move src dst w).2.
Proof.
  intros Hwf Hfree Hglob. unfold shutil_move.
  assert (Hmove : ∀ d p,
    fs w !! src = Some d → fs w !! p = None → glob_match p = false →
    wf (set_fs (λ f, <[p := d]> (delete src f)) w)).
  { intros d p Hsrc Hp Hg.
    change (wf (set_fs <[p := d]> (set_fs (delete src) w))).
    apply wf_archive_dir; [by apply wf_remove_dir| |exact Hg].
    simpl. rewrite lookup_delete. by case_decide. }
  destruct (fs w !! src) as [d|] eqn:Hsrc; [|done].
  destruct (fs w !! dst) as [d'|] eqn:Hdst.
  - destruct (fs w !! (dst +:+ "/" +:+ basename src)) eqn:Hreal; [done|].
    simpl. by apply Hmove.
  - simpl. apply Hmove; try done.
    rewrite <- (string_app_nil_r dst). apply Hglob.
Qed.

(** One iteration of the sweep. *)
Lemma sweep_one_wf current_time max_age_seconds p cleaned w :
  wf w → glob_match p = true →
  wf (sweep_one eng current_time max_age_seconds p cleaned w).2.
Proof.
  intros Hwf Hglob. unfold sweep_one, bind at 1, get_world at 1.
  destruct (fs w !! p) as [d|] eqn:Hd; simpl; [|done].
  destruct (metadata_json d) as [| |m] eqn:Hjson; try done.
  destruct (proj2 (proj2 Hwf) _ _ _ Hd Hjson Hglob) as [Hvalid Hp].
  destruct (current_time - md_last_activity m >? max_age_seconds)%Z; [|done].
  assert (Htail : ∀ w1 c,
    wf w1 → sessions w1 !! md_session_id m = None →
    wf (try_except
          (shutil_move p
             (archived_path (md_session_id m) (md_last_activity m)) ;;; ret c)
          (λ _, ret cleaned) w1).2).
  { intros w1 c Hwf1 Hnone.
    pose proof (shutil_move_wf w1 p
                  (archived_path (md_session_id m) (md_last_activity m)) Hwf1)
      as Hmove.
    unfold try_except, bind, ret.
    destruct (shutil_move p _ w1) as [[[]|e] w2]; simpl in *;
      apply Hmove; try apply glob_match_archived;
      intros sid [s Hs] Heq; subst p; apply session_path_inj in Heq;
      subst sid; by rewrite Hnone in Hs. }
  destruct (decide (is_Some (sessions w !! md_session_id m))) as [[s Hs]|Hnone].
  - destruct (close_session_spec w (md_session_id m) s Hwf Hs)
      as (o & w1 & Hclose & Hwf1 & _ & _ & Hret & _).
    destruct o as [[]|e].
    + rewrite (try_except_bind_return _ _ _ _ _ _ Hclose).
      apply Htail; [exact Hwf1|by apply Hret].
    + by rewrite (try_except_bind_raise _ _ _ _ _ _ Hclose).
  - apply Htail; [exact Hwf|].
    by apply eq_None_not_Some.
Qed.

Lemma sweep_wf current_time max_age_seconds paths cleaned w :
  wf w → Forall (λ p, glob_match p = true) paths →
  wf (sweep eng current_time max_age_seconds paths cleaned w).2.
Proof.
  revert cleaned w. induction paths as [|p rest IH]; intros cleaned w Hwf Hall;
    [done|].
  apply Forall_cons in Hall as [Hp Hrest]. simpl.
  pose proof (sweep_one_wf current_time max_age_seconds p cleaned w Hwf Hp)
    as Hone.
  unfold bind.
  destruct (sweep_one eng current_time max_age_seconds p cleaned w)
    as [[cleaned'|e] w1]; simpl in *; [|done].
  by apply IH.
Qed.

Lemma glob_sessions_match w :
  Forall (λ p, glob_match p = true) (glob_sessions w).
Proof.
  apply Forall_forall. intros p Hp. unfold glob_sessions in Hp.
  by apply list_elem_of_filter in Hp as [Hg _].
Qed.

Lemma cleanup_old_sessions_wf max_age_hours w :
  wf w → wf (cleanup_old_sessions eng max_age_hours w).2.
Proof.
  intros Hwf. unfold cleanup_old_sessions, bind at 1, get_world at 1.
  apply sweep_wf; [exact Hwf|apply glob_sessions_match].
Qed.

Lemma execute_sequence_wf session_id actions w :
  wf w → wf (execute_sequence eng session_id actions w).2.
Proof.
  intros Hwf.
  destruct (execute_sequence_writes_no_metadata eng session_id actions w)
    as [Hfs Hmeta].
  by eapply wf_same_metadata.
Qed.

(** An engine call followed by a continuation, for a property that does not
    depend on the calls made. *)
Lemma engine_call_then {A} session_id c (k : M A) w (Q : World → Prop) :
  (∀ w', sessions w' = sessions w → fs w' = fs w → clock w' = clock w →
         Q w' ∧ Q (k w').2) →
  Q ((SessionManager.engine_call eng session_id c ;;; k) w).2.
Proof.
  intros HQ. unfold bind, SessionManager.engine_call.
  destruct (eng (calls w) session_id c); simpl; by apply HQ.
Qed.

Lemma manager_create_session_wf uuid browser headless vw vh record_video w :
  wf w →
  wf (SessionManager.create_session eng (uuid_str_8 uuid) browser headless
        vw vh record_video w).2.
Proof.
  intros Hwf. unfold SessionManager.create_session.
  unfold bind at 1, SessionManager._create_session_directory at 1.
  set (sid := uuid_str_8 uuid).
  set (w0 := set_fs _ w).
  assert (Hwf0 : wf w0 ∧ is_Some (fs w0 !! session_path sid)).
  { subst w0. unfold set_fs. simpl.
    destruct (fs w !! session_path sid) as [d|] eqn:Hd.
    - split; [by apply (wf_frame w)|]. simpl. rewrite Hd. eauto.
    - split; [by apply (wf_new_dir w)|]. simpl. rewrite lookup_insert_eq.
      eauto. }
  clearbody w0. destruct Hwf0 as [Hwf0 Hdir0].
  assert (Hkeep : ∀ w1 w2,
    wf w1 ∧ is_Some (fs w1 !! session_path sid) →
    sessions w2 = sessions w1 → fs w2 = fs w1 → clock w2 = clock w1 →
    wf w2 ∧ is_Some (fs w2 !! session_path sid)).
  { intros w1 w2 [Hwf1 Hdir1] Hs Hf _. split; [by apply (wf_frame w1)|].
    by rewrite Hf. }
  apply (engine_call_then _ _ _ _ wf). intros w1 Hs1 Hf1 Hc1.
  pose proof (Hkeep w0 w1 (conj Hwf0 Hdir0) Hs1 Hf1 Hc1) as H1.
  split; [apply H1|].
  apply (engine_call_then _ _ _ _ wf). intros w2 Hs2 Hf2 Hc2.
  pose proof (Hkeep w1 w2 H1 Hs2 Hf2 Hc2) as H2.
  split; [apply H2|].
  apply (engine_call_then _ _ _ _ wf). intros w3 Hs3 Hf3 Hc3.
  pose proof (Hkeep w2 w3 H2 Hs3 Hf3 Hc3) as H3.
  split; [apply H3|].
  apply (engine_call_then _ _ _ _ wf). intros w4 Hs4 Hf4 Hc4.
  pose proof (Hkeep w3 w4 H3 Hs4 Hf4 Hc4) as [Hwf4 [d Hd]].
  split; [exact Hwf4|].
  unfold bind at 1, get_world at 1.
  erewrite bind_return; [|apply save_metadata_ok; exact Hd].
  unfold bind, modify, ret. simpl.
  apply (wf_update w4 sid _ _ d); simpl; try done.
  - by exists uuid.
  - intros []; apply gapless_nil.
Qed.

Lemma create_session_wf uuid browser headless vw vh record_video w :
  wf w →
  wf (create_session eng uuid browser headless vw vh record_video w).2.
Proof.
  intros Hwf. unfold create_session, try_except, bind.
  pose proof (manager_create_session_wf uuid browser headless vw vh
                record_video w Hwf) as Hcreate.
  by destruct (SessionManager.create_session eng _ _ _ _ _ _ w)
    as [[x|e] w1].
Qed.

Lemma close_session_endpoint_wf session_id w :
  wf w → wf (close_session eng session_id w).2.
Proof.
  intros Hwf. unfold close_session, bind at 1, SessionManager.get_session.
  destruct (sessions w !! session_id) as [s|] eqn:Hs; [|done].
  pose proof (close_session_wf w session_id Hwf) as Hclose.
  unfold bind. by destruct (SessionManager.close_session eng session_id w)
    as [[[]|e] w1].
Qed.

(** A session the close endpoint has closed is gone from the store: closing
    it again is answered with 404. *)
Lemma close_session_twice session_id w r w' :
  wf w →
  close_session eng session_id w = (Return r, w') →
  close_session eng session_id w'
  = (Raise (HTTPException 404 "Session not found"), w').
Proof.
  intros Hwf Hclose. apply close_session_absent.
  unfold close_session, bind at 1, SessionManager.get_session in Hclose.
  destruct (sessions w !! session_id) as [s|] eqn:Hs; [|discriminate].
  destruct (close_session_spec w session_id s Hwf Hs)
    as (o & w1 & Hrun & _ & _ & _ & Hret & _).
  unfold bind in Hclose. rewrite Hrun in Hclose.
  destruct o as [[]|e]; [|discriminate].
  injection Hclose as _ <-. by apply Hret.
Qed.

Lemma take_screenshot_wf session_id w :
  wf w → wf (take_screenshot eng session_id w).2.
Proof.
  intros Hwf. unfold take_screenshot, bind at 1, SessionManager.get_session.
  destruct (sessions w !! session_id) as [s|] eqn:Hs; [|done].
  destruct (add_asset_spec w Screenshots session_id "manual" "screenshot" ""
              s Hwf Hs) as (path & w1 & Hadd & Hwf1 & _).
  simpl in Hadd. rewrite (bind_return _ _ _ _ _ Hadd).
  apply (engine_call_then _ _ _ _ wf). intros w2 Hs2 Hf2 _.
  split; by apply (wf_frame w1).
Qed.

Lemma cleanup_session_wf session_id w :
  wf w → wf (cleanup_session eng session_id w).2.
Proof.
  intros Hwf. unfold cleanup_session, bind at 1, get_world at 1.
  assert (Htail : ∀ w1,
    wf w1 → sessions w1 !! session_id = None →
    wf ((w' <~ get_world ;;
         match fs w' !! session_path session_id with
         | Some _ =>
             modify (set_fs (delete (session_path session_id))) ;;;
             ret session_id
         | None => raise (HTTPException 404 "Session directory not found")
         end) w1).2).
  { intros w1 Hwf1 Hnone. unfold bind at 1, get_world at 1.
    destruct (fs w1 !! session_path session_id) as [d|]; [|done].
    unfold bind, modify, ret. simpl.
    apply wf_remove_dir; [exact Hwf1|].
    intros sid [s Hs] Heq. apply session_path_inj in Heq. subst sid.
    by rewrite Hnone in Hs. }
  destruct (decide (is_Some (sessions w !! session_id))) as [[s Hs]|Hnone].
  - destruct (close_session_spec w session_id s Hwf Hs)
      as (o & w1 & Hclose & Hwf1 & _ & _ & Hret & _).
    destruct o as [[]|e].
    + rewrite (bind_return _ _ _ _ _ Hclose). apply Htail; [done|by apply Hret].
    + by rewrite (bind_raise _ _ _ _ _ Hclose).
  - apply Htail; [exact Hwf|]. by apply eq_None_not_Some.
Qed.

Lemma video_written_wf session_id file w :
  wf w → wf (video_written session_id file w).
Proof.
  intros Hwf. unfold video_written.
  destruct (fs w !! session_path session_id) as [d|] eqn:Hd.
  - assert (Halter :
      alter (λ d, mkSessionDir (metadata_json d) (videos_dir d ++ [file]))
        (session_path session_id) (fs w)
      = <[session_path session_id :=
            mkSessionDir (metadata_json d) (videos_dir d ++ [file])]> (fs w)).
    { apply map_eq. intros p. rewrite lookup_alter, lookup_insert.
      case_decide; [subst; by rewrite Hd|done]. }
    pose proof (wf_touch_dir w _ d (videos_dir d ++ [file]) Hwf Hd) as Htouch.
    unfold set_fs in *. by rewrite Halter.
  - apply (wf_frame w); [done| |done]. simpl.
    apply map_eq. intros p. rewrite lookup_alter.
    case_decide; [subst; by rewrite Hd|done].
Qed.

(** Every world the service reaches satisfies the invariant. *)
Lemma reachable_wf w : reachable eng w → wf w.
Proof.
  induction 1 as [t|w o Hreach IH].
  - split_and!; [by intros ???|by intros ??|by intros ???].
  - destruct o; simpl.
    + by apply create_session_wf.
    + by apply close_session_endpoint_wf.
    + by apply execute_sequence_wf.
    + by apply take_screenshot_wf.
    + by apply add_asset_wf.
    + by apply cleanup_session_wf.
    + by apply cleanup_old_sessions_wf.
    + by apply (wf_frame w).
    + by apply video_written_wf.
    + by apply wf_restart.
Qed.

End Operations.


(** ** Sequence numbers *)

Section SequenceNumbers.
Variable eng : Engine.

Implicit Types (w : World) (session_id : string) (kind : AssetKind).

Lemma replace_spaces_app s1 s2 :
  replace_spaces (s1 +:+ s2) = replace_spaces s1 +:+ replace_spaces s2.
Proof.
  induction s1 as [|c s1 IH]; [done|].
  unfold replace_spaces in *. simpl. by rewrite IH.
Qed.

(** One more screenshot for a session of the store, in a world that
    satisfies the invariant. *)
Lemma add_screenshot_next w session_id session action description url :
  wf w → sessions w !! session_id = Some session →
  ∃ entry w' session',
    SessionManager.add_screenshot session_id action description url w
    = (Return (Some (filepath entry)), w')
    ∧ wf w'
    ∧ sessions w' !! session_id = Some session'
    ∧ md_screenshots (metadata session')
      = md_screenshots (metadata session) ++ [entry]
    ∧ sequence entry = length (md_screenshots (metadata session)) + 1
    ∧ filename entry
      = replace_spaces
          (format_03d (length (md_screenshots (metadata session)) + 1)
           +:+ "_" +:+ action +:+ "_" +:+ description +:+ ".png").
Proof.
  intros Hwf Hs.
  destruct (add_asset_spec w Screenshots session_id action description url
              session Hwf Hs) as (path & w' & Hadd & Hwf' & _).
  simpl in Hadd. rewrite Hadd.
  unfold SessionManager.add_screenshot in Hadd. rewrite Hs in Hadd.
  rewrite (next_sequence_number_active _ _ _ _ Hs) in Hadd.
  destruct (proj1 (proj2 Hwf) _ _ Hs) as (_ & _ & _ & d & Hd & _).
  erewrite bind_return in Hadd; [|apply save_metadata_ok; simpl; exact Hd].
  unfold ret in Hadd. injection Hadd as <- <-.
  eexists (mkAssetEntry _ _ _ _ _ _ _), _, _.
  split_and!; [reflexivity|exact Hwf'|apply lookup_insert_eq
              |reflexivity|reflexivity|reflexivity].
Qed.

(** One more asset of a kind for a session of the store, in a world that
    satisfies the invariant. *)
Lemma add_asset_next w kind session_id session action description url :
  wf w → sessions w !! session_id = Some session →
  ∃ entry w' session',
    add_asset kind session_id action description url w
    = (Return (Some (filepath entry)), w')
    ∧ sessions w' !! session_id = Some session'
    ∧ md_assets kind (metadata session')
      = md_assets kind (metadata session) ++ [entry]
    ∧ sequence entry = length (md_assets kind (metadata session)) + 1
    ∧ ∀ kind', kind' ≠ kind →
        md_assets kind' (metadata session')
        = md_assets kind' (metadata session).
Proof.
  intros Hwf Hs.
  destruct (proj1 (proj2 Hwf) _ _ Hs) as (_ & _ & _ & d & Hd & _).
  destruct kind; simpl;
    unfold SessionManager.add_screenshot, SessionManager.add_video,
      SessionManager.add_trace; rewrite Hs;
    rewrite (next_sequence_number_active _ _ _ _ Hs);
    (erewrite bind_return; [|apply save_metadata_ok; simpl; exact Hd]);
    unfold ret;
    eexists (mkAssetEntry _ _ _ _ _ _ _), _, _;
    (split_and!;
     [reflexivity|apply lookup_insert_eq|reflexivity|reflexivity
     |intros [] Hne; done]).
Qed.

(** C4. In every world the service reaches, for every session of the store
    and every asset kind, the sequence numbers recorded for the kind are 1,
    2, ..., n in order (strictly increasing from 1 without gap, whatever
    additions of other kinds came in between); one more addition of the kind
    succeeds, is numbered n+1 and leaves the lists of the other kinds as
    they are.  On a session without screenshots, three screenshot additions
    in a row produce file names that start with 001, 002 and 003 and leave a
    [screenshots] list of these three entries, in that order. *)
Theorem sequence_numbers_gapless w session_id session kind :
  reachable eng w →
  sessions w !! session_id = Some session →
  gapless (md_assets kind (metadata session))
  ∧ (∀ action description url,
       ∃ entry w' session',
         add_asset kind session_id action description url w
         = (Return (Some (filepath entry)), w')
         ∧ sessions w' !! session_id = Some session'
         ∧ md_assets kind (metadata session')
           = md_assets kind (metadata session) ++ [entry]
         ∧ sequence entry = length (md_assets kind (metadata session)) + 1
         ∧ ∀ kind', kind' ≠ kind →
             md_assets kind' (metadata session')
             = md_assets kind' (metadata session))
  ∧ (md_screenshots (metadata session) = [] →
     ∀ a1 d1 u1 a2 d2 u2 a3 d3 u3,
       ∃ e1 e2 e3 w1 w2 w3 session3,
         SessionManager.add_screenshot session_id a1 d1 u1 w
         = (Return (Some (filepath e1)), w1)
         ∧ SessionManager.add_screenshot session_id a2 d2 u2 w1
           = (Return (Some (filepath e2)), w2)
         ∧ SessionManager.add_screenshot session_id a3 d3 u3 w2
           = (Return (Some (filepath e3)), w3)
         ∧ sessions w3 !! session_id = Some session3
         ∧ md_screenshots (metadata session3) = [e1; e2; e3]
         ∧ map sequence [e1; e2; e3] = [1; 2; 3]
         ∧ filename e1
           = "001_" +:+ replace_spaces (a1 +:+ "_" +:+ d1 +:+ ".png")
         ∧ filename e2
           = "002_" +:+ replace_spaces (a2 +:+ "_" +:+ d2 +:+ ".png")
         ∧ filename e3
           = "003_" +:+ replace_spaces (a3 +:+ "_" +:+ d3 +:+ ".png")).
Proof.
  intros Hreach Hs. pose proof (reachable_wf eng w Hreach) as Hwf.
  split_and!.
  - by apply (proj1 Hwf _ _ kind Hs).
  - intros action description url.
    apply add_asset_next; [exact Hwf|exact Hs].
  - intros Hempty a1 d1 u1 a2 d2 u2 a3 d3 u3.
    destruct (add_screenshot_next w session_id session a1 d1 u1 Hwf Hs)
      as (e1 & w1 & s1 & Hadd1 & Hwf1 & Hs1 & Hl1 & Hq1 & Hf1).
    destruct (add_screenshot_next w1 session_id s1 a2 d2 u2 Hwf1 Hs1)
      as (e2 & w2 & s2 & Hadd2 & Hwf2 & Hs2 & Hl2 & Hq2 & Hf2).
    destruct (add_screenshot_next w2 session_id s2 a3 d3 u3 Hwf2 Hs2)
      as (e3 & w3 & s3 & Hadd3 & Hwf3 & Hs3 & Hl3 & Hq3 & Hf3).
    rewrite Hempty in *. rewrite Hl1 in *. rewrite Hl2 in *. simpl in *.
    exists e1, e2, e3, w1, w2, w3, s3.
    split_and!; try done.
    by rewrite Hq1, Hq2, Hq3.
Qed.

(** C3, as the code has it. In every world the service reaches: for a
    session of the store, the next sequence number of a kind is the length of
    the kind's list in the session's in-memory metadata plus one; that
    metadata is what the session's [metadata.json] holds, so the number is the
    persisted count plus one, above every number recorded for the pair.  For
    a session that is not in the store the function answers 1, whatever the
    session's [metadata.json] holds. *)
Theorem next_sequence_number_from_store w session_id kind :
  reachable eng w →
  (∀ session,
     sessions w !! session_id = Some session →
     ∃ d m,
       fs w !! session_path session_id = Some d
       ∧ metadata_json d = Json m
       ∧ m = metadata session
       ∧ SessionManager._get_next_sequence_number w session_id kind
         = length (md_assets kind m) + 1
       ∧ Forall (λ e, sequence e
                      < SessionManager._get_next_sequence_number w session_id
                          kind)
           (md_assets kind m))
  ∧ (sessions w !! session_id = None →
     SessionManager._get_next_sequence_number w session_id kind = 1).
Proof.
  intros Hreach. pose proof (reachable_wf eng w Hreach) as (Hgap & Hmir & _).
  split.
  - intros session Hs.
    destruct (Hmir _ _ Hs) as (_ & _ & _ & d & Hd & Hjson).
    exists d, (metadata session).
    rewrite (next_sequence_number_active _ _ _ _ Hs).
    split_and!; try done.
    apply Forall_forall. intros e He.
    pose proof (gapless_below _ e (Hgap _ _ kind Hs) He). lia.
  - apply next_sequence_number_absent.
Qed.

End SequenceNumbers.


(** ** The sweep of old sessions *)

Section Sweep.
Variable eng : Engine.

Implicit Types (w : World) (session_id p : string)
  (cleaned : list CleanedSession).

Lemma sweep_step_refl p w : sweep_step p w w.
Proof. split_and!; try done. intros k _. by left. Qed.

(** The move of the sweep, inside the [try]: it never raises past the
    [except], changes no session, and either leaves the files as they are or
    moves [p] to a place that was free, [dst] when [dst] is free. *)
Lemma archive_move_spec p dst (c0 c1 : list CleanedSession) w :
  ∃ c w',
    try_except (shutil_move p dst ;;; ret c1) (λ _, ret c0) w = (Return c, w')
    ∧ w' = (shutil_move p dst w).2
    ∧ (c = c0 ∨ c = c1)
    ∧ sessions w' = sessions w
    ∧ clock w' = clock w
    ∧ (fs w !! p = None → fs w' !! p = None)
    ∧ (∀ k, k ≠ p →
         fs w' !! k = fs w !! k
         ∨ (fs w !! k = None ∧ ∃ r, k = dst +:+ r))
    ∧ (∀ d, fs w !! p = Some d → fs w !! dst = None →
         c = c1 ∧ fs w' !! p = None ∧ fs w' !! dst = Some d).
Proof.
  unfold try_except, bind, ret, shutil_move.
  destruct (fs w !! p) as [d|] eqn:Hp.
  2: { exists c0, w.
       split_and!; try done; try (by left); try (intros k _; by left). }
  assert (Hmoved : ∀ k' c,
    fs w !! k' = None → (∃ r, k' = dst +:+ r) → (c = c0 ∨ c = c1) →
    (fs w !! dst = None → k' = dst ∧ c = c1) →
    ∃ c' w',
      (Return c, set_fs (λ f, <[k' := d]> (delete p f)) w) = (Return c', w')
      ∧ w' = set_fs (λ f, <[k' := d]> (delete p f)) w
      ∧ (c' = c0 ∨ c' = c1)
      ∧ sessions w' = sessions w
      ∧ clock w' = clock w
      ∧ (Some d = None → fs w' !! p = None)
      ∧ (∀ k, k ≠ p →
           fs w' !! k = fs w !! k
           ∨ (fs w !! k = None ∧ ∃ r, k = dst +:+ r))
      ∧ (∀ d0, Some d = Some d0 → fs w !! dst = None →
           c' = c1 ∧ fs w' !! p = None ∧ fs w' !! dst = Some d0)).
  { intros k' c Hfree Hform Hc Hdst. eexists _, _.
    split; [reflexivity|]. split_and!; try done.
    - intros k Hk. simpl. rewrite lookup_insert.
      case_decide as Heq.
      + right. subst k. done.
      + left. by rewrite lookup_delete_ne.
    - intros d0 [= <-] Hnone. destruct (Hdst Hnone) as [-> ->].
      split_and!; [done| |].
      + simpl. rewrite lookup_insert_ne, lookup_delete_eq; [done|].
        intros <-. by rewrite Hp in Hnone.
      + simpl. by rewrite lookup_insert_eq. }
  destruct (fs w !! dst) as [d'|] eqn:Hdst.
  - destruct (fs w !! (dst +:+ "/" +:+ basename p)) as [d''|] eqn:Hreal.
    + exists c0, w.
      split_and!; try done; try (by left); try (intros k _; by left).
    + simpl. apply Hmoved; [done|by eexists|by right|done].
  - simpl. apply Hmoved; [done| |by right|done].
    exists "". by rewrite string_app_nil_r.
Qed.

(** One iteration of the sweep for a path the glob found: it returns; it
    keeps the invariant; it changes what [sweep_step] allows.  When [p] is the
    directory of a session of the store that is older than the maximum age,
    the engine lets the release calls return and the archive name is free,
    the session is closed and its directory moved to the archive name. *)
Lemma sweep_one_spec current_time max_age_seconds p cleaned w :
  wf w → glob_match p = true →
  ∃ cleaned' w',
    sweep_one eng current_time max_age_seconds p cleaned w
    = (Return cleaned', w')
    ∧ wf w'
    ∧ sweep_step p w w'
    ∧ (∃ more, cleaned' = cleaned ++ more)
    ∧ (∀ session_id session,
         p = session_path session_id →
         sessions w !! session_id = Some session →
         teardown_returns eng →
         (max_age_seconds
          < current_time - md_last_activity (metadata session))%Z →
         fs w !! archived_path session_id (md_last_activity (metadata session))
         = None →
         sessions w' !! session_id = None
         ∧ fs w' !! p = None
         ∧ (∃ d m,
              fs w' !! archived_path session_id
                         (md_last_activity (metadata session)) = Some d
              ∧ metadata_json d = Json m
              ∧ md_session_id m = session_id
              ∧ md_status m = "completed")
         ∧ cleaned'
           = cleaned
             ++ [mkCleanedSession session_id
                   (md_last_activity (metadata session))
                   (archived_path session_id
                      (md_last_activity (metadata session)))]).
Proof.
  intros Hwf Hglob.
  pose proof Hwf as (Hgap & Hmir & Hdisk).
  assert (Hnothing : ∀ w1,
    wf w1 → sweep_step p w w1 →
    (∀ session_id session,
       p = session_path session_id →
       sessions w !! session_id = Some session →
       teardown_returns eng →
       (max_age_seconds
        < current_time - md_last_activity (metadata session))%Z →
       False) →
    ∃ cleaned' w',
      (Return cleaned, w1) = (Return cleaned', w')
      ∧ wf w'
      ∧ sweep_step p w w'
      ∧ (∃ more, cleaned' = cleaned ++ more)
      ∧ (∀ session_id session,
           p = session_path session_id →
           sessions w !! session_id = Some session →
           teardown_returns eng →
           (max_age_seconds
            < current_time - md_last_activity (metadata session))%Z →
           fs w !! archived_path session_id
                     (md_last_activity (metadata session)) = None →
           sessions w' !! session_id = None
           ∧ fs w' !! p = None
           ∧ (∃ d m,
                fs w' !! archived_path session_id
                           (md_last_activity (metadata session)) = Some d
                ∧ metadata_json d = Json m
                ∧ md_session_id m = session_id
                ∧ md_status m = "completed")
           ∧ cleaned'
             = cleaned
               ++ [mkCleanedSession session_id
                     (md_last_activity (metadata session))
                     (archived_path session_id
                        (md_last_activity (metadata session)))])).
  { intros w1 Hwf1 Hstep Hfalse. exists cleaned, w1.
    split_and!; try done.
    - exists []. by rewrite app_nil_r.
    - intros sid s Hp Hs Hok Hage _. destruct (Hfalse sid s Hp Hs Hok Hage). }
  unfold sweep_one, bind at 1, get_world at 1.
  destruct (fs w !! p) as [d|] eqn:Hd; simpl.
  2: { apply Hnothing; [done|apply sweep_step_refl|].
       intros sid s -> Hs _ _.
       destruct (Hmir _ _ Hs) as (_ & _ & _ & d & Hd' & _).
       by rewrite Hd in Hd'. }
  destruct (metadata_json d) as [| |m] eqn:Hjson.
  1,2: apply Hnothing; [done|apply sweep_step_refl|];
       intros sid s -> Hs _ _;
       destruct (Hmir _ _ Hs) as (_ & _ & _ & d' & Hd' & Hj');
       rewrite Hd in Hd'; injection Hd' as <-; by rewrite Hjson in Hj'.
  destruct (Hdisk _ _ _ Hd Hjson Hglob) as [Hvalid Hp].
  set (X := md_session_id m) in *.
  (* a session of the store whose directory is [p] is [X], with metadata [m] *)
  assert (Hactive : ∀ sid s,
    p = session_path sid → sessions w !! sid = Some s →
    sid = X ∧ metadata s = m).
  { intros sid s Hp' Hs. rewrite Hp in Hp'. apply session_path_inj in Hp'.
    subst sid. split; [done|].
    destruct (Hmir _ _ Hs) as (_ & _ & _ & d' & Hd' & Hj').
    rewrite <- Hp, Hd in Hd'. injection Hd' as <-.
    rewrite Hjson in Hj'. by injection Hj'. }
  destruct (current_time - md_last_activity m >? max_age_seconds)%Z eqn:Hcond.
  2: { apply Hnothing; [done|apply sweep_step_refl|].
       intros sid s Hp' Hs _ Hage.
       destruct (Hactive sid s Hp' Hs) as [_ Hm]. rewrite Hm in Hage.
       rewrite Z.gtb_ltb in Hcond. apply Z.ltb_ge in Hcond. lia. }
  set (dst := archived_path X (md_last_activity m)).
  set (c1 := cleaned ++ [mkCleanedSession X (md_last_activity m) dst]).
  (* the move, from a world [w1] in which [X] is not in the store *)
  assert (Hmove : ∀ w1,
    wf w1 → sessions w1 !! X = None →
    ∃ c w',
      try_except (shutil_move p dst ;;; ret c1) (λ _, ret cleaned) w1
      = (Return c, w')
      ∧ wf w'
      ∧ (c = cleaned ∨ c = c1)
      ∧ sessions w' = sessions w1
      ∧ clock w' = clock w1
      ∧ (fs w1 !! p = None → fs w' !! p = None)
      ∧ (∀ k, k ≠ p →
           fs w' !! k = fs w1 !! k
           ∨ (fs w1 !! k = None ∧ ∃ r, k = dst +:+ r))
      ∧ (∀ d, fs w1 !! p = Some d → fs w1 !! dst = None →
           c = c1 ∧ fs w' !! p = None ∧ fs w' !! dst = Some d)).
  { intros w1 Hwf1 Hnone.
    destruct (archive_move_spec p dst cleaned c1 w1)
      as (c & w' & Hrun & Hw' & Hc & Hs' & Hclock' & Hp' & Hk' & Hd').
    exists c, w'. split_and!; try done.
    rewrite Hw'. apply shutil_move_wf; [done| |apply glob_match_archived].
    intros sid [s Hs] Heq. rewrite Hp in Heq. apply session_path_inj in Heq.
    subst sid. by rewrite Hnone in Hs. }
  destruct (decide (is_Some (sessions w !! X))) as [[s Hs]|Hnone].
  - destruct (Hactive X s Hp Hs) as [_ Hm].
    destruct (close_session_spec eng w X s Hwf Hs)
      as (o & w1 & Hclose & Hwf1 & (Hts & Htf & Htc) & (d1 & m1 & Hd1 & Hj1
          & Hid1 & Hst1) & Hret & Hok).
    destruct o as [[]|e].
    + rewrite (try_except_bind_return _ _ _ _ _ _ Hclose).
      destruct (Hmove w1 Hwf1 (Hret eq_refl))
        as (c & w' & Hrun & Hwf' & Hc & Hs' & Hclock' & Hp' & Hk' & Hd').
      exists c, w'. split; [exact Hrun|]. split_and!.
      * exact Hwf'.
      * split_and!.
        -- congruence.
        -- intros sid Hne. rewrite Hs'. apply Hts.
           intros ->. by apply Hne.
        -- intros sid Hnone. rewrite Hs', Hts; [done|].
           intros ->. by rewrite Hs in Hnone.
        -- intros Hnone. by rewrite Hnone in Hd.
        -- intros k Hk. destruct (Hk' k Hk) as [Hsame|[Hfree [r Hr]]].
           ++ left. rewrite Hsame. apply Htf. by rewrite <- Hp.
           ++ right. split; [by rewrite <- (Htf k) by (by rewrite <- Hp)|].
              by exists X, (md_last_activity m), r.
      * destruct Hc as [->| ->]; [exists []; by rewrite app_nil_r|by eexists].
      * intros sid s' Hp'' Hs'' _ _ Hfree.
        destruct (Hactive sid s' Hp'' Hs'') as [-> Hm'].
        rewrite Hm' in *. fold dst in Hfree |- *.
        assert (Hfree1 : fs w1 !! dst = None).
        { rewrite Htf; [done|]. rewrite <- Hp. intros Heq.
          pose proof (glob_match_archived_path X (md_last_activity m)) as Hg.
          fold dst in Hg. rewrite Heq in Hg. by rewrite Hglob in Hg. }
        rewrite <- Hp in Hd1.
        destruct (Hd' d1 Hd1 Hfree1) as (-> & Hgone & Harch).
        split_and!; [by rewrite Hs'; apply Hret|done|by eauto 10|done].
    + rewrite (try_except_bind_raise _ _ _ _ _ _ Hclose).
      exists cleaned, w1. split; [reflexivity|]. split_and!.
      * exact Hwf1.
      * split_and!; [done| | | |].
        -- intros sid Hne. apply Hts. intros ->. by apply Hne.
        -- intros sid Hnone. rewrite Hts; [done|].
           intros ->. by rewrite Hs in Hnone.
        -- intros Hnone. by rewrite Hnone in Hd.
        -- intros k Hk. left. apply Htf. by rewrite <- Hp.
      * exists []. by rewrite app_nil_r.
      * intros sid s' _ _ Hteardown _ _. by specialize (Hok Hteardown).
  - assert (HnoneX : sessions w !! X = None) by by apply eq_None_not_Some.
    rewrite (try_except_bind_return (ret tt) _ _ w tt w eq_refl).
    destruct (Hmove w Hwf HnoneX)
      as (c & w' & Hrun & Hwf' & Hc & Hs' & Hclock' & Hp' & Hk' & Hd').
    exists c, w'. split; [exact Hrun|]. split_and!.
    + exact Hwf'.
    + split_and!; [done|by intros sid _; rewrite Hs'
                  |by intros sid ?; rewrite Hs'|done|].
      intros k Hk. destruct (Hk' k Hk) as [Hsame|[Hfree [r Hr]]];
        [by left|right].
      split; [done|]. by exists X, (md_last_activity m), r.
    + destruct Hc as [->| ->]; [exists []; by rewrite app_nil_r|by eexists].
    + intros sid s' Hp'' Hs'' _ _ _.
      destruct (Hactive sid s' Hp'' Hs'') as [-> _]. by rewrite HnoneX in Hs''.
Qed.

(** The loop of the sweep with maximum age 0, from a world in which every
    session of the store has its directory among the paths still to visit,
    is older than the time of the sweep and has a free archive name: the
    store ends empty and every session is archived. *)
Lemma sweep_archives_all current_time paths cleaned w :
  teardown_returns eng →
  wf w →
  Forall (λ p, glob_match p = true) paths →
  (∀ session_id session,
     sessions w !! session_id = Some session →
     session_path session_id ∈ paths) →
  (∀ session_id session,
     sessions w !! session_id = Some session →
     (md_last_activity (metadata session) < current_time)%Z) →
  (∀ session_id session,
     sessions w !! session_id = Some session →
     fs w !! archived_path session_id (md_last_activity (metadata session))
     = None) →
  ∃ cleaned' w',
    sweep eng current_time 0 paths cleaned w = (Return cleaned', w')
    ∧ sessions w' = ∅
    ∧ (∃ more, cleaned' = cleaned ++ more)
    ∧ (∀ k, glob_match k = false → is_Some (fs w !! k) →
            fs w' !! k = fs w !! k)
    ∧ (∀ k, glob_match k = true → fs w !! k = None → fs w' !! k = None)
    ∧ (∀ session_id session,
         sessions w !! session_id = Some session →
         fs w' !! session_path session_id = None
         ∧ (∃ d m,
              fs w' !! archived_path session_id
                         (md_last_activity (metadata session)) = Some d
              ∧ metadata_json d = Json m
              ∧ md_session_id m = session_id
              ∧ md_status m = "completed")
         ∧ mkCleanedSession session_id (md_last_activity (metadata session))
             (archived_path session_id (md_last_activity (metadata session)))
           ∈ cleaned').
Proof.
  intros Hteardown. revert cleaned w.
  induction paths as [|p rest IH];
    intros cleaned w Hwf Hglob Hpaths Hold Hfresh.
  { exists cleaned, w. split; [reflexivity|].
    assert (Hempty : sessions w = ∅).
    { apply map_empty. intros sid.
      destruct (sessions w !! sid) as [s|] eqn:Hs; [|done].
      by apply Hpaths, not_elem_of_nil in Hs. }
    split_and!; try done.
    - exists []. by rewrite app_nil_r.
    - intros sid s. by rewrite Hempty. }
  apply Forall_cons in Hglob as [Hp Hrest].
  destruct (sweep_one_spec current_time 0 p cleaned w Hwf Hp)
    as (cleaned1 & w1 & Hone & Hwf1 & (Hclock & Hother & Hdom & Hpnone & Hfs)
        & [more1 Hmore1] & Harchive).
  (* what the iteration does to a session whose directory is [p] *)
  assert (Hdone : ∀ sid s,
    sessions w !! sid = Some s → session_path sid = p →
    sessions w1 !! sid = None
    ∧ fs w1 !! p = None
    ∧ (∃ d m,
         fs w1 !! archived_path sid (md_last_activity (metadata s)) = Some d
         ∧ metadata_json d = Json m ∧ md_session_id m = sid
         ∧ md_status m = "completed")
    ∧ cleaned1
      = cleaned
        ++ [mkCleanedSession sid (md_last_activity (metadata s))
              (archived_path sid (md_last_activity (metadata s)))]).
  { intros sid s Hs Hpath. apply Harchive; try done.
    - pose proof (Hold _ _ Hs). lia.
    - by eapply Hfresh. }
  (* the sessions still in the store are untouched, and not at [p] *)
  assert (Hstill : ∀ sid s,
    sessions w1 !! sid = Some s →
    session_path sid ≠ p ∧ sessions w !! sid = Some s).
  { intros sid s Hs1.
    destruct (decide (session_path sid = p)) as [Heq|Hne].
    - destruct (sessions w !! sid) as [s0|] eqn:Hs0.
      + destruct (Hdone _ _ Hs0 Heq) as (Hgone & _). by rewrite Hgone in Hs1.
      + by rewrite (Hdom _ Hs0) in Hs1.
    - split; [done|]. by rewrite <- (Hother _ Hne). }
  destruct (IH cleaned1 w1 Hwf1 Hrest) as
    (cleaned' & w' & Hrun & Hempty & [more Hmore] & Hkeep & Hnew & Hall).
  { intros sid s Hs1. destruct (Hstill _ _ Hs1) as [Hne Hs].
    apply Hpaths, elem_of_cons in Hs as [Heq|Hin]; [by destruct Hne|done]. }
  { intros sid s Hs1. destruct (Hstill _ _ Hs1) as [_ Hs]. by eapply Hold. }
  { intros sid s Hs1. destruct (Hstill _ _ Hs1) as [Hne Hs].
    set (k := archived_path sid (md_last_activity (metadata s))).
    assert (Hkp : k ≠ p).
    { intros Heq. pose proof (glob_match_archived_path sid
                                (md_last_activity (metadata s))) as Hg.
      fold k in Hg. rewrite Heq in Hg. by rewrite Hp in Hg. }
    destruct (Hfs k Hkp) as [Hsame|(_ & X & t & r & Hk & HvX & HpX)].
    - rewrite Hsame. by eapply Hfresh.
    - exfalso. apply Hne. rewrite HpX. f_equal.
      destruct (proj1 (proj2 Hwf) _ _ Hs) as (Hvalid & _).
      symmetry in Hk. by apply archived_path_inj' in Hk. }
  exists cleaned', w'. split.
  { simpl. by rewrite (bind_return _ _ _ _ _ Hone). }
  split_and!.
  - exact Hempty.
  - exists (more1 ++ more). by rewrite Hmore, Hmore1, app_assoc.
  - intros k Hk Hsome.
    assert (Hkp : k ≠ p) by (intros ->; by rewrite Hp in Hk).
    destruct (Hfs k Hkp) as [Hsame|[Hnone _]].
    + rewrite <- Hsame. apply Hkeep; [done|by rewrite Hsame].
    + rewrite Hnone in Hsome. by destruct Hsome.
  - intros k Hk Hnone. apply Hnew; [done|].
    destruct (decide (k = p)) as [->|Hkp]; [by apply Hpnone|].
    destruct (Hfs k Hkp) as [Hsame|(_ & X & t & r & Hform & _)].
    + by rewrite Hsame.
    + rewrite Hform in Hk. by rewrite glob_match_archived in Hk.
  - intros sid s Hs.
    destruct (sessions w1 !! sid) as [s1|] eqn:Hs1.
    + destruct (Hstill _ _ Hs1) as [_ Hs']. rewrite Hs in Hs'.
      injection Hs' as <-. by apply Hall.
    + assert (Hpath : session_path sid = p).
      { destruct (decide (session_path sid = p)) as [|Hne]; [done|].
        rewrite (Hother _ Hne), Hs in Hs1. discriminate. }
      destruct (Hdone _ _ Hs Hpath) as (_ & Hgone & (d & m & Harch & Hrest')
                                        & Hcleaned).
      split_and!.
      * rewrite Hpath. apply Hnew; [done|exact Hgone].
      * exists d, m. split; [|exact Hrest'].
        rewrite Hkeep; [done|apply glob_match_archived_path|by eauto].
      * rewrite Hmore, Hcleaned. apply elem_of_app. left.
        apply elem_of_app. right. by apply list_elem_of_singleton.
Qed.

(** Every session of the store has its directory in the result of the
    glob. *)
Lemma glob_sessions_active w session_id session :
  wf w → sessions w !! session_id = Some session →
  session_path session_id ∈ glob_sessions w.
Proof.
  intros (_ & Hmir & _) Hs.
  destruct (Hmir _ _ Hs) as (Hvalid & _ & _ & d & Hd & _).
  unfold glob_sessions. apply list_elem_of_filter.
  split; [by apply glob_match_valid|].
  apply list_elem_of_fmap. exists (session_path session_id, d).
  split; [done|]. by apply elem_of_map_to_list.
Qed.

(** The sweep with an engine that lets the release calls return.  In a
    world the service reaches, when every session of the store had its last
    activity before the time of the sweep and the archive name of every
    session is free, the sweep with maximum age 0 returns and leaves the
    store empty; for every session that was in the store, its directory is
    gone from the session root and stands, with the metadata file written by
    the close (status [completed]), below the archive root under the name
    made of the session id and the whole seconds of its last activity before
    the sweep; the response lists it. *)
Theorem sweep_zero_archives_all w :
  reachable eng w →
  teardown_returns eng →
  (∀ session_id session,
     sessions w !! session_id = Some session →
     (md_last_activity (metadata session) < clock w)%Z) →
  (∀ session_id session,
     sessions w !! session_id = Some session →
     fs w !! archived_path session_id (md_last_activity (metadata session))
     = None) →
  ∃ cleaned w',
    cleanup_old_sessions eng 0 w = (Return cleaned, w')
    ∧ sessions w' = ∅
    ∧ ∀ session_id session t,
        sessions w !! session_id = Some session →
        t = md_last_activity (metadata session) →
        archived_path session_id t
        = recordings_base +:+ "/archived/session_" +:+ session_id +:+ "_"
          +:+ pretty (int_seconds t)
        ∧ fs w' !! session_path session_id = None
        ∧ (∃ d m,
             fs w' !! archived_path session_id t = Some d
             ∧ metadata_json d = Json m
             ∧ md_session_id m = session_id
             ∧ md_status m = "completed")
        ∧ mkCleanedSession session_id t (archived_path session_id t)
          ∈ cleaned.
Proof.
  intros Hreach Hteardown Hold Hfresh.
  pose proof (reachable_wf eng w Hreach) as Hwf.
  destruct (sweep_archives_all (clock w) (glob_sessions w) [] w Hteardown Hwf
              (glob_sessions_match w)
              (λ sid s Hs, glob_sessions_active w sid s Hwf Hs) Hold Hfresh)
    as (cleaned & w' & Hrun & Hempty & _ & _ & _ & Hall).
  exists cleaned, w'. split_and!.
  - exact Hrun.
  - exact Hempty.
  - intros sid s t Hs ->. split; [reflexivity|]. by apply Hall.
Qed.

End Sweep.


(** ** The store evolves by the updates of [store_step] *)

Section StoreSteps.
Variable eng : Engine.

Implicit Types (w : World) (session_id : string) (kind : AssetKind).

Lemma evolves_ret {A} (a : A) : evolves (ret a).
Proof. intros w. apply rtc_refl. Qed.

Lemma evolves_raise {A} e : evolves (raise (A:=A) e).
Proof. intros w. apply rtc_refl. Qed.

Lemma evolves_frame {A} (c : M A) :
  (∀ w, sessions (c w).2 = sessions w) → evolves c.
Proof. intros Hc w. by rewrite Hc. Qed.

Lemma evolves_bind {A B} (c : M A) (k : A → M B) :
  evolves c → (∀ a, evolves (k a)) → evolves (bind c k).
Proof.
  intros Hc Hk w. unfold bind. specialize (Hc w).
  destruct (c w) as [[a|e] w1]; simpl in *; [|done].
  etrans; [exact Hc|apply Hk].
Qed.

Lemma evolves_try_except {A} (c : M A) h :
  evolves c → (∀ e, evolves (h e)) → evolves (try_except c h).
Proof.
  intros Hc Hh w. unfold try_except. specialize (Hc w).
  destruct (c w) as [[a|e] w1]; simpl in *; [done|].
  etrans; [exact Hc|apply Hh].
Qed.

Lemma evolves_get_world {A} (k : World → M A) :
  (∀ w, rtc store_step (sessions w) (sessions (k w w).2)) →
  evolves (bind get_world k).
Proof. intros Hk w. apply Hk. Qed.

Lemma evolves_engine_call session_id c :
  evolves (SessionManager.engine_call eng session_id c).
Proof.
  apply evolves_frame. intros w. unfold SessionManager.engine_call.
  by destruct (eng (calls w) session_id c).
Qed.

Lemma evolves_save session_id m :
  evolves (SessionManager._save_session_metadata session_id m).
Proof.
  apply evolves_frame. intros w. unfold SessionManager._save_session_metadata.
  by destruct (fs w !! session_path session_id).
Qed.

Lemma evolves_rename_video session_dir original new_video_path :
  evolves (SessionManager.rename_video session_dir original new_video_path).
Proof.
  apply evolves_frame. intros w. unfold SessionManager.rename_video.
  by destruct (fs w !! session_dir).
Qed.

Lemma evolves_shutil_move src dst : evolves (shutil_move src dst).
Proof.
  apply evolves_frame. intros w. unfold shutil_move.
  destruct (fs w !! src); [|done].
  destruct (fs w !! dst); [|done].
  by destruct (fs w !! (dst +:+ "/" +:+ basename src)).
Qed.

Lemma evolves_set_fs f : evolves (modify (set_fs f)).
Proof. by apply evolves_frame. Qed.

Lemma evolves_delete session_id :
  evolves (modify (set_sessions (delete session_id))).
Proof. intros w. apply rtc_once, store_deleted. Qed.

(** The store after an addition for a session it holds. *)
Lemma add_asset_sessions w kind session_id action description url s :
  sessions w !! session_id = Some s →
  sessions (add_asset kind session_id action description url w).2
  = <[session_id := recorded kind s action description url (clock w)]>
      (sessions w).
Proof.
  intros Hs.
  destruct kind; simpl;
    unfold SessionManager.add_screenshot, SessionManager.add_video,
      SessionManager.add_trace; rewrite Hs;
    rewrite (next_sequence_number_active _ _ _ _ Hs);
    unfold bind, SessionManager._save_session_metadata; simpl;
    by destruct (fs w !! session_path session_id).
Qed.

Lemma evolves_add_asset kind session_id action description url :
  evolves (add_asset kind session_id action description url).
Proof.
  intros w. destruct (sessions w !! session_id) as [s|] eqn:Hs.
  - rewrite (add_asset_sessions _ _ _ _ _ _ _ Hs).
    eapply rtc_once, store_updated; [exact Hs|apply step_recorded].
  - by rewrite (add_asset_absent _ _ _ _ _ _ Hs).
Qed.

Lemma evolves_append_screenshot session_id path :
  evolves (append_session_screenshot session_id path).
Proof.
  intros w. unfold append_session_screenshot, modify. simpl.
  destruct (sessions w !! session_id) as [s|] eqn:Hs.
  - replace (alter _ session_id (sessions w))
      with (<[session_id := captured s path]> (sessions w)).
    + eapply rtc_once, store_updated; [exact Hs|apply step_captured].
    + apply map_eq. intros k. rewrite lookup_alter, lookup_insert.
      case_decide; [subst; by rewrite Hs|done].
  - replace (alter _ session_id (sessions w)) with (sessions w); [done|].
    apply map_eq. intros k. rewrite lookup_alter.
    case_decide; [subst; by rewrite Hs|done].
Qed.

Lemma evolves_finalize_video session_id session :
  evolves (SessionManager.finalize_video session_id session).
Proof.
  unfold SessionManager.finalize_video.
  destruct (md_record_video (metadata session)); [|apply evolves_ret].
  apply evolves_get_world. intros w.
  destruct (fs w !! md_session_dir (metadata session)) as [d|];
    [|apply evolves_ret].
  destruct (filter _ (videos_dir d)) as [|original files];
    [apply evolves_ret|].
  refine (evolves_bind _ _ _ _ w).
  - apply (evolves_add_asset Videos session_id "" "session_recording" "").
  - intros [new_video_path|];
      [apply evolves_rename_video|apply evolves_ret].
Qed.

Lemma evolves_manager_close session_id :
  evolves (SessionManager.close_session eng session_id).
Proof.
  unfold SessionManager.close_session.
  apply evolves_get_world. intros w.
  destruct (sessions w !! session_id) as [s|]; [|apply evolves_ret].
  refine (evolves_bind _ _ (evolves_finalize_video _ _) _ w).
  intros _. apply evolves_get_world. intros w1.
  destruct (sessions w1 !! session_id) as [s1|] eqn:Hs1; [|apply evolves_ret].
  unfold bind at 1, modify at 1.
  etrans.
  { eapply rtc_once, (store_updated _ session_id s1 (completed s1 (clock w1)));
      [exact Hs1|apply step_completed]. }
  match goal with
  | |- rtc _ _ (sessions (?k ?w2).2) => refine ((_ : evolves k) w2)
  end.
  repeat (apply evolves_bind;
          [first [apply evolves_save|apply evolves_engine_call]|intros _]).
  apply evolves_delete.
Qed.

Lemma evolves_manager_create session_id browser headless vw vh record_video :
  evolves (SessionManager.create_session eng session_id browser headless vw vh
             record_video).
Proof.
  intros w. unfold SessionManager.create_session.
  unfold bind at 1, SessionManager._create_session_directory at 1.
  match goal with
  | |- rtc _ _ (sessions (?k ?w0).2) => refine ((_ : evolves k) w0)
  end.
  do 4 (apply evolves_bind; [apply evolves_engine_call|intros _]).
  apply evolves_get_world. intros w1.
  refine (evolves_bind _ _ (evolves_save _ _) _ w1). intros _.
  intros w2. unfold bind, modify, ret. simpl.
  apply rtc_once, store_created.
Qed.

Lemma evolves_create_session uuid browser headless vw vh record_video :
  evolves (create_session eng uuid browser headless vw vh record_video).
Proof.
  apply evolves_try_except; [|intros e; apply evolves_raise].
  apply evolves_bind; [apply evolves_manager_create|].
  intros _. apply evolves_ret.
Qed.

Lemma evolves_get_session session_id :
  evolves (SessionManager.get_session session_id).
Proof. by apply evolves_frame. Qed.

Lemma evolves_close_session session_id :
  evolves (close_session eng session_id).
Proof.
  apply evolves_bind; [apply evolves_get_session|].
  intros [s|]; [|apply evolves_raise].
  apply evolves_bind; [apply evolves_manager_close|].
  intros _. apply evolves_ret.
Qed.

Lemma evolves_take_screenshot session_id :
  evolves (take_screenshot eng session_id).
Proof.
  apply evolves_bind; [apply evolves_get_session|].
  intros [s|]; [|apply evolves_raise].
  apply evolves_bind;
    [apply (evolves_add_asset Screenshots session_id "manual" "screenshot" "")
    |].
  intros path. apply evolves_bind; [apply evolves_engine_call|].
  intros _. apply evolves_ret.
Qed.

Lemma evolves_cleanup_session session_id :
  evolves (cleanup_session eng session_id).
Proof.
  apply evolves_get_world. intros w.
  refine (evolves_bind _ _ _ _ w).
  - case_decide; [apply evolves_manager_close|apply evolves_ret].
  - intros _. apply evolves_get_world. intros w1. cbv zeta.
    destruct (fs w1 !! session_path session_id); [|apply evolves_raise].
    refine (evolves_bind _ _ (evolves_set_fs _) _ w1).
    intros _. apply evolves_ret.
Qed.

Lemma evolves_apply_action session_id i a :
  evolves (apply_action eng session_id i a).
Proof.
  unfold apply_action.
  destruct (branch_of (action a));
    first [apply evolves_ret
          |apply evolves_bind;
           [apply evolves_engine_call|intros _; apply evolves_ret]].
Qed.

Lemma evolves_step session_id i a loc : evolves (step eng session_id i a loc).
Proof.
  apply evolves_bind; [apply evolves_apply_action|].
  intros result. destruct (default false (screenshot_after a));
    [|apply evolves_ret].
  apply evolves_bind; [apply evolves_engine_call|intros _].
  apply evolves_bind; [apply evolves_append_screenshot|intros _].
  apply evolves_ret.
Qed.

Lemma evolves_checkpoint session_id i a loc :
  evolves (checkpoint eng session_id i a loc).
Proof.
  apply evolves_bind; [apply evolves_engine_call|intros _].
  apply evolves_bind; [apply evolves_append_screenshot|intros _].
  apply evolves_ret.
Qed.

Lemma run_actions_evolves session_id actions i loc w :
  rtc store_step (sessions w)
    (sessions (run_actions eng session_id i actions loc w).2).
Proof.
  revert i loc w. induction actions as [|a rest IH]; intros i loc w; [done|].
  simpl.
  assert (Hstep :
    rtc store_step (sessions w)
      (sessions
         (match step eng session_id i a loc w with
          | (Return loc', w') => run_actions eng session_id (S i) rest loc' w'
          | (Raise e, w') => (Failed e, loc, w')
          end).2)).
  { pose proof (evolves_step session_id i a loc w) as Hs.
    destruct (step eng session_id i a loc w) as [[loc'|e] w1]; simpl in *;
      [|done].
    etrans; [exact Hs|apply IH]. }
  destruct (branch_of (action a)); try exact Hstep.
  pose proof (evolves_checkpoint session_id i a loc w) as Hc.
  by destruct (checkpoint eng session_id i a loc w) as [[[p loc']|e] w1].
Qed.

Lemma evolves_execute_sequence session_id actions :
  evolves (execute_sequence eng session_id actions).
Proof.
  intros w. unfold execute_sequence, bind at 1, SessionManager.get_session.
  destruct (sessions w !! session_id) as [s|]; [|done].
  pose proof (run_actions_evolves session_id actions 0 (mkLocals [] []) w)
    as Hrun.
  destruct (run_actions eng session_id 0 actions (mkLocals [] []) w)
    as [[[| |e] loc] w1]; simpl in *; try done.
  etrans; [exact Hrun|].
  match goal with
  | |- rtc _ _ (sessions (?k ?w2).2) => refine ((_ : evolves k) w2)
  end.
  apply evolves_bind; [apply evolves_engine_call|intros _].
  apply evolves_get_world. intros w2. done.
Qed.

Lemma evolves_sweep_one current_time max_age_seconds p cleaned :
  evolves (sweep_one eng current_time max_age_seconds p cleaned).
Proof.
  apply evolves_get_world. intros w.
  destruct (metadata_json <$> fs w !! p) as [[| |m]|]; try done.
  refine (evolves_try_except _ _ _ _ w); [|intros _; apply evolves_ret].
  cbv zeta.
  destruct (current_time - md_last_activity m >? max_age_seconds)%Z;
    [|apply evolves_ret].
  apply evolves_bind.
  { case_decide; [apply evolves_manager_close|apply evolves_ret]. }
  intros _. apply evolves_bind; [apply evolves_shutil_move|].
  intros _. apply evolves_ret.
Qed.

Lemma evolves_sweep current_time max_age_seconds paths cleaned :
  evolves (sweep eng current_time max_age_seconds paths cleaned).
Proof.
  revert cleaned. induction paths as [|p rest IH]; intros cleaned;
    [apply evolves_ret|].
  simpl. apply evolves_bind; [apply evolves_sweep_one|apply IH].
Qed.

Lemma evolves_cleanup_old_sessions max_age_hours :
  evolves (cleanup_old_sessions eng max_age_hours).
Proof. apply evolves_get_world. intros w. apply evolves_sweep. Qed.

(** Every request and every event of the environment changes the store by
    the updates of [store_step]. *)
Lemma run_op_evolves o w :
  rtc store_step (sessions w) (sessions (run_op eng o w)).
Proof.
  destruct o; simpl.
  - apply evolves_create_session.
  - apply evolves_close_session.
  - apply evolves_execute_sequence.
  - apply evolves_take_screenshot.
  - apply evolves_add_asset.
  - apply evolves_cleanup_session.
  - apply evolves_cleanup_old_sessions.
  - done.
  - done.
  - apply rtc_once, store_cleared.
Qed.

(** A property of session dicts that holds of a new session and is kept by
    the three updates holds of every session of every reachable store. *)
Lemma reachable_sessions (P : SessionData → Prop) w :
  (∀ session_id browser_type headless vw vh record_video t,
     P (fresh_session session_id browser_type headless vw vh record_video t)) →
  (∀ s s', session_step s s' → P s → P s') →
  reachable eng w →
  ∀ session_id s, sessions w !! session_id = Some s → P s.
Proof.
  intros Hfresh Hstep Hreach. change (map_Forall (λ _, P) (sessions w)).
  assert (Hone : ∀ σ σ',
    store_step σ σ' → map_Forall (λ _, P) σ → map_Forall (λ _, P) σ').
  { intros σ σ' [σ0 sid b h vw vh rv t|σ0 sid s s' Hs Hss|σ0 sid|σ0] HP.
    - apply map_Forall_insert_2; [apply Hfresh|exact HP].
    - apply map_Forall_insert_2; [|exact HP].
      eapply Hstep; [exact Hss|]. exact (HP _ _ Hs).
    - by apply map_Forall_delete.
    - apply map_Forall_empty. }
  assert (Hmany : ∀ σ σ',
    rtc store_step σ σ' → map_Forall (λ _, P) σ → map_Forall (λ _, P) σ').
  { induction 1; eauto. }
  induction Hreach as [t|w o Hreach IH].
  - apply map_Forall_empty.
  - eapply Hmany; [apply run_op_evolves|exact IH].
Qed.

End StoreSteps.


(** ** [POST /api/execute]: how the [except] clauses map the failures *)

Section ExecuteCommandProperties.
Variable run : list string → ExecuteCommand.TryExn + ExecuteCommand.CompletedProcess.
Variable split : string → list string.

(** X1: [execute_command] never answers with status 400.  The two
    [HTTPException(status_code=400)] of the key validation are raised inside
    the [try] block, and [except Exception] catches them: a request with
    neither key, or with both, is answered with status 500, whose detail
    quotes the 400. *)
Theorem execute_command_never_400 :
  (∀ command_data w detail,
     (ExecuteCommand.execute_command run split command_data w).1
     ≠ Raise (HTTPException 400 detail))
  ∧ (∀ w,
       ExecuteCommand.execute_command run split
         (ExecuteCommand.mkCommandInput None None) w
       = (Raise (HTTPException 500
                   "Error executing command: 400: Format error: Either 'command' or 'term' key must be provided"),
          w))
  ∧ (∀ c t w,
       ExecuteCommand.execute_command run split
         (ExecuteCommand.mkCommandInput (Some c) (Some t)) w
       = (Raise (HTTPException 500
                   "Error executing command: 400: Format error: Only one key allowed at a time. Use either 'command' or 'term', not both"),
          w)).
Proof.
  split_and!.
  - intros [c t] w detail.
    unfold ExecuteCommand.execute_command, bind, get_world.
    destruct (ExecuteCommand.try_block run split _ (clock w))
      as [[status d| |msg|msg]|response]; simpl; discriminate.
  - intros w. reflexivity.
  - intros c t w. reflexivity.
Qed.

End ExecuteCommandProperties.

(** ** The action loop of [POST /api/browser] *)

Section BrowserAutomationProperties.
Variable eng : Engine.

(** One pass through the loop body: it returns whatever the engine does,
    issues the engine call of the action, if it has one, and reports success
    exactly when that call returned. *)
Lemma run_action_spec session_id i a screenshots w :
  ∃ r screenshots' w',
    BrowserAutomation.run_action eng session_id i a screenshots w
    = (Return (r, screenshots'), w')
    ∧ calls w'
      = calls w
        ++ map (pair session_id) (option_list (automation_call session_id i a))
    ∧ sessions w' = sessions w ∧ fs w' = fs w ∧ clock w' = clock w
    ∧ BrowserAutomation.ar_action r = BrowserAutomation.action a
    ∧ (BrowserAutomation.ar_status r = "success"
       ∨ BrowserAutomation.ar_status r = "error")
    ∧ (BrowserAutomation.ar_status r = "success" ↔
       ∃ c, automation_call session_id i a = Some c
            ∧ eng (calls w) session_id c = None).
Proof.
  unfold BrowserAutomation.run_action, automation_call, try_except, bind,
    SessionManager.engine_call, ret.
  repeat
    (match goal with
     | |- context [String.eqb ?x ?y] => destruct (String.eqb_spec x y) as [Heq|?]
     end;
     [ match goal with
       | |- context [eng (calls w) session_id ?c] =>
           destruct (eng (calls w) session_id c) as [msg|] eqn:Hc
       end;
       (simpl; eexists _, _, _;
        (split;
         [ reflexivity
         | split_and!;
           [ done..
           | by (left + right)
           | split;
             [ first [done|intros _; eexists; split; [reflexivity|done]]
             | first [done|intros (c & [= <-] & Hnone); congruence] ] ] ]))
     | ]).
  simpl. eexists _, _, _. split; [reflexivity|].
  split_and!; try done; [by rewrite app_nil_r|by right|].
  split; [done|]. by intros (c & ? & _).
Qed.

(** X2: the loop of [browser_automation] never raises and never stops
    early.  Whatever the engine does, every action of the request gets
    exactly one entry in [action_results], in order; the engine call of every
    recognized action is issued, also after failures; and an entry reports
    success exactly when the action is recognized and its engine call
    returned.  The session store, the session directories and the clock are
    not touched. *)
Theorem automation_runs_every_action session_id actions w :
  ∃ results screenshots w',
    BrowserAutomation.run_actions eng session_id 0 actions [] [] w
    = (Return (results, screenshots), w')
    ∧ length results = length actions
    ∧ calls w'
      = calls w
        ++ map (pair session_id) (automation_calls session_id 0 actions)
    ∧ sessions w' = sessions w ∧ fs w' = fs w ∧ clock w' = clock w
    ∧ ∀ j a,
        actions !! j = Some a →
        ∃ r,
          results !! j = Some r
          ∧ BrowserAutomation.ar_action r = BrowserAutomation.action a
          ∧ (BrowserAutomation.ar_status r = "success"
             ∨ BrowserAutomation.ar_status r = "error")
          ∧ (BrowserAutomation.ar_status r = "success" ↔
             ∃ c, automation_call session_id j a = Some c
                  ∧ eng (calls w
                         ++ map (pair session_id)
                              (automation_calls session_id 0 (take j actions)))
                      session_id c = None).
Proof.
  cut (∀ i acc shots w,
    ∃ results screenshots w',
      BrowserAutomation.run_actions eng session_id i actions acc shots w
      = (Return (acc ++ results, screenshots), w')
      ∧ length results = length actions
      ∧ calls w'
        = calls w
          ++ map (pair session_id) (automation_calls session_id i actions)
      ∧ sessions w' = sessions w ∧ fs w' = fs w ∧ clock w' = clock w
      ∧ ∀ j a,
          actions !! j = Some a →
          ∃ r,
            results !! j = Some r
            ∧ BrowserAutomation.ar_action r = BrowserAutomation.action a
            ∧ (BrowserAutomation.ar_status r = "success"
               ∨ BrowserAutomation.ar_status r = "error")
            ∧ (BrowserAutomation.ar_status r = "success" ↔
               ∃ c, automation_call session_id (i + j) a = Some c
                    ∧ eng (calls w
                           ++ map (pair session_id)
                                (automation_calls session_id i
                                   (take j actions)))
                        session_id c = None)).
  { intros Hgen. exact (Hgen 0 [] [] w). }
  clear w. induction actions as [|a rest IH]; intros i acc shots w.
  - exists [], shots, w. simpl. rewrite !app_nil_r.
    split_and!; done.
  - destruct (run_action_spec session_id i a shots w)
      as (r & shots1 & w1 & Hrun & Hcalls1 & Hs1 & Hf1 & Hc1 & Hact & Hst
          & Hok).
    destruct (IH (S i) (acc ++ [r]) shots1 w1)
      as (results & shots2 & w2 & Hrest & Hlen & Hcalls2 & Hs2 & Hf2 & Hc2
          & Hall).
    exists (r :: results), shots2, w2. simpl.
    unfold bind. rewrite Hrun. simpl. rewrite Hrest.
    split_and!.
    + by rewrite <- app_assoc.
    + simpl. by rewrite Hlen.
    + by rewrite Hcalls2, Hcalls1, map_app, app_assoc.
    + congruence.
    + congruence.
    + congruence.
    + intros [|j] b Hb; simpl in Hb.
      * injection Hb as <-. exists r. simpl. rewrite Nat.add_0_r, app_nil_r.
        split_and!; done.
      * destruct (Hall j b Hb) as (r' & Hr' & Hact' & Hst' & Hok').
        exists r'. simpl. split_and!; try done.
        rewrite Hok'. rewrite Hcalls1, map_app, app_assoc.
        by replace (S i + j) with (i + S j) by lia.
Qed.

End BrowserAutomationProperties.


(** ** Names of the recorded files *)

Section Names.

Implicit Types (s r : string) (n : nat) (kind : AssetKind).

Lemma string_app_inj_l s r1 r2 : s +:+ r1 = s +:+ r2 → r1 = r2.
Proof. apply (inj (String.append s)). Qed.

Lemma pretty_N_char_digit x : is_digit (pretty_N_char x) = true.
Proof. unfold pretty_N_char. by repeat case_match. Qed.

Lemma pretty_N_go_digits x s :
  all_digits s = true → all_digits (pretty_N_go x s) = true.
Proof.
  revert s. induction (N.lt_wf_0 x) as [x _ IH]; intros s Hs.
  destruct (decide (x = 0)%N) as [->|Hx]; [by rewrite pretty_N_go_0|].
  rewrite pretty_N_go_step by lia.
  apply IH; [apply N.div_lt; lia|].
  simpl. by rewrite pretty_N_char_digit.
Qed.

(** The decimal form of a positive number does not start with a zero. *)
Lemma pretty_N_go_leading x s :
  (0 < x)%N →
  ∃ c s', pretty_N_go x s = String c s' ∧ c ≠ "0"%char.
Proof.
  revert s. induction (N.lt_wf_0 x) as [x _ IH]; intros s Hx.
  rewrite pretty_N_go_step by done.
  destruct (decide (x `div` 10 = 0)%N) as [Hdiv|Hdiv].
  - rewrite Hdiv, pretty_N_go_0. eexists _, _. split; [reflexivity|].
    apply N.div_small_iff in Hdiv; [|done].
    rewrite N.mod_small by done.
    assert (x = 1 ∨ x = 2 ∨ x = 3 ∨ x = 4 ∨ x = 5 ∨ x = 6
            ∨ x = 7 ∨ x = 8 ∨ x = 9)%N
      as [->|[->|[->|[->|[->|[->|[->|[->| ->]]]]]]]] by lia;
      done.
  - apply IH; [apply N.div_lt; lia|by apply N.neq_0_lt_0].
Qed.

Lemma pretty_nat_leading n :
  ∃ c s', pretty n = String c s' ∧ (c = "0"%char → s' = "").
Proof.
  unfold pretty, pretty_nat, pretty, pretty_N.
  case_decide as Hn.
  - by exists "0"%char, "".
  - destruct (pretty_N_go_leading (N.of_nat n) "") as (c & s' & -> & Hc);
      [lia|].
    by exists c, s'.
Qed.

Lemma pretty_nat_digits n : all_digits (pretty n) = true.
Proof.
  unfold pretty, pretty_nat, pretty, pretty_N.
  case_decide; [done|]. by apply pretty_N_go_digits.
Qed.

Lemma format_03d_digits n : all_digits (format_03d n) = true.
Proof.
  unfold format_03d. pose proof (pretty_nat_digits n) as Hd.
  destruct (String.length (pretty n)) as [|[|[|k]]]; simpl; by rewrite ?Hd.
Qed.

Lemma format_03d_inj n1 n2 : format_03d n1 = format_03d n2 → n1 = n2.
Proof.
  unfold format_03d. intros Heq. apply (inj pretty).
  destruct (pretty_nat_leading n1) as (c1 & s1 & E1 & H1).
  destruct (pretty_nat_leading n2) as (c2 & s2 & E2 & H2).
  rewrite E1, E2 in Heq |- *.
  destruct s1 as [|a1 [|b1 s1]], s2 as [|a2 [|b2 s2]]; simpl in Heq;
    injection Heq as ?; subst; try done;
    first [by discriminate H1|by discriminate H2].
Qed.

Lemma all_digits_replace_spaces s :
  all_digits s = true → replace_spaces s = s.
Proof.
  unfold replace_spaces.
  induction s as [|c s IH]; simpl; [done|].
  intros [Hc Hs]%andb_prop. rewrite IH by done.
  destruct (Ascii.eqb_spec c " ") as [->|]; [done|done].
Qed.

Lemma replace_spaces_no_space s : contains_char " " (replace_spaces s) = false.
Proof.
  unfold replace_spaces.
  induction s as [|c s IH]; simpl; [done|].
  rewrite IH. by destruct (Ascii.eqb_spec c " ") as [->|Hc];
    [|apply orb_false_intro; [by apply Ascii.eqb_neq|]].
Qed.

(** Two strings that start with digits and an underscore start with the
    same digits when they are equal. *)
Lemma digits_prefix_inj d1 d2 r1 r2 :
  all_digits d1 = true → all_digits d2 = true →
  d1 +:+ "_" +:+ r1 = d2 +:+ "_" +:+ r2 → d1 = d2.
Proof.
  revert d2. induction d1 as [|c1 d1 IH]; intros [|c2 d2]; simpl; try done.
  - intros _ [Hc _]%andb_prop [= <- _]. done.
  - intros [Hc _]%andb_prop _ [= -> _]. done.
  - intros [_ H1]%andb_prop [_ H2]%andb_prop.
    rewrite !string_app_cons. intros [= -> Heq]. f_equal. by eapply IH.
Qed.

(** The name the [add_*] methods generate: the padded sequence number, an
    underscore, the rest with its spaces replaced, the extension. *)
Lemma asset_filename_shape kind n action description :
  ∃ rest,
    asset_filename kind n action description
    = format_03d n +:+ "_" +:+ rest +:+ kind_ext kind.
Proof.
  unfold asset_filename.
  rewrite replace_spaces_app, (all_digits_replace_spaces _ (format_03d_digits n)).
  destruct kind.
  - exists (replace_spaces (action +:+ "_" +:+ description)).
    rewrite !replace_spaces_app. simpl.
    by rewrite !string_app_assoc.
  - exists (replace_spaces description).
    by rewrite !replace_spaces_app.
  - exists (replace_spaces description).
    by rewrite !replace_spaces_app.
Qed.

Lemma new_entry_named kind sd action description url t :
  well_named (md_session_dir (metadata sd)) kind
    (new_entry kind sd action description url t).
Proof.
  assert (Hfields :
    filename (new_entry kind sd action description url t)
    = asset_filename kind (length (md_assets kind (metadata sd)) + 1)
        action description
    ∧ sequence (new_entry kind sd action description url t)
      = length (md_assets kind (metadata sd)) + 1
    ∧ filepath (new_entry kind sd action description url t)
      = md_session_dir (metadata sd) +:+ "/" +:+ kind_dir kind +:+ "/"
        +:+ asset_filename kind (length (md_assets kind (metadata sd)) + 1)
              action description).
  { by destruct kind. }
  destruct Hfields as (Hname & Hseq & Hpath).
  unfold well_named. rewrite Hname, Hseq, Hpath. split_and!.
  - apply asset_filename_shape.
  - apply replace_spaces_no_space.
  - done.
Qed.

(** Entries named by the convention have the path of their sequence number
    only. *)
Lemma well_named_inj dir kind e1 e2 :
  well_named dir kind e1 → well_named dir kind e2 →
  filepath e1 = filepath e2 → sequence e1 = sequence e2.
Proof.
  intros ([r1 Hn1] & _ & Hp1) ([r2 Hn2] & _ & Hp2) Heq.
  rewrite Hp1, Hp2 in Heq.
  do 4 apply string_app_inj_l in Heq.
  rewrite Hn1, Hn2 in Heq.
  apply format_03d_inj.
  eapply digits_prefix_inj; [apply format_03d_digits..|exact Heq].
Qed.

Lemma well_named_kind dir kind1 kind2 e1 e2 :
  well_named dir kind1 e1 → well_named dir kind2 e2 →
  filepath e1 = filepath e2 → kind1 = kind2.
Proof.
  intros (_ & _ & Hp1) (_ & _ & Hp2) Heq.
  rewrite Hp1, Hp2 in Heq.
  do 2 apply string_app_inj_l in Heq.
  by destruct kind1, kind2.
Qed.

End Names.

(** ** Invariants of the sessions of a reachable store *)

Section Invariants.
Variable eng : Engine.

Implicit Types (w : World) (session_id : string) (kind : AssetKind)
  (s : SessionData).

Lemma get_session_assets_active w session_id s :
  sessions w !! session_id = Some s →
  get_session_assets session_id w
  = (Return (assets_of session_id (metadata s) (clock w)), w).
Proof.
  intros Hs.
  unfold get_session_assets, bind, SessionManager.get_session, get_world, ret.
  by rewrite Hs.
Qed.

Lemma get_session_status_active w session_id s :
  sessions w !! session_id = Some s →
  get_session_status session_id w
  = (Return (mkSessionStatus "active" session_id (sd_created_at s)
               (length (sd_screenshots s)) (clock w)), w).
Proof.
  intros Hs.
  unfold get_session_status, bind, SessionManager.get_session, get_world, ret.
  by rewrite Hs.
Qed.

Lemma counters_agree_step s s' :
  session_step s s' → counters_agree s → counters_agree s'.
Proof.
  intros [kind s0 a d u t|s0 t|s0 p] (Ht & Hc & Hr & Hcr);
    [destruct kind|..]; unfold counters_agree; simpl;
    rewrite ?length_app; simpl; split_and!; try done; lia.
Qed.

Lemma paths_recorded_step s s' :
  session_step s s' → paths_recorded s → paths_recorded s'.
Proof.
  intros [kind s0 a d u t|s0 t|s0 p] (Hv & Ht & Hs);
    [destruct kind|..]; unfold paths_recorded; simpl;
    rewrite ?fmap_app; simpl; split_and!; try done;
    try (by f_equal).
  - by apply sublist_app.
  - by apply sublist_inserts_r.
Qed.

Lemma entries_named_step s s' :
  session_step s s' → entries_named s → entries_named s'.
Proof.
  intros [kind s0 a d u t|s0 t|s0 p] Hnamed; [|exact Hnamed..].
  intros kind' e He.
  assert (Hdir : md_session_dir (metadata (recorded kind s0 a d u t))
                 = md_session_dir (metadata s0)) by by destruct kind.
  rewrite Hdir.
  assert (Hcases : e ∈ md_assets kind' (metadata s0)
                   ∨ (kind' = kind ∧ e = new_entry kind s0 a d u t)).
  { destruct kind, kind'; simpl in He; try (by left);
      apply elem_of_app in He as [He|He%list_elem_of_singleton];
      by (left + right). }
  destruct Hcases as [Hold|[-> ->]]; [by apply Hnamed|].
  apply new_entry_named.
Qed.

(** X3: in every reachable world, the [total_actions] of a session counts
    its recorded screenshots, whatever requests were made: it is bumped by
    [add_screenshot] only, never by an action of a sequence.  The
    [action_count] of the session dict stays 0.  The assets endpoint reports
    the two equal numbers. *)
Theorem total_actions_counts_screenshots w session_id s :
  reachable eng w →
  sessions w !! session_id = Some s →
  md_total_actions (metadata s) = length (md_screenshots (metadata s))
  ∧ action_count s = 0
  ∧ ∃ r,
      get_session_assets session_id w = (Return r, w)
      ∧ sa_total_actions r = total_screenshots r.
Proof.
  intros Hreach Hs.
  assert (Hc : counters_agree s).
  { eapply (reachable_sessions eng counters_agree);
      [|apply counters_agree_step|exact Hreach|exact Hs].
    intros. by split_and!. }
  destruct Hc as (Htotal & Hcount & _).
  split_and!; [exact Htotal|exact Hcount|].
  eexists. split; [by apply get_session_assets_active|]. exact Htotal.
Qed.

(** X4: in every reachable world, the path lists of a session dict agree
    with its metadata: [session["videos"]] and [session["traces"]] are the
    paths of the metadata entries, and the paths of the screenshot entries
    are among [session["screenshots"]], in order.  So the count of the status
    endpoint is never below the total of the assets endpoint. *)
Theorem session_lists_agree w session_id s :
  reachable eng w →
  sessions w !! session_id = Some s →
  sd_videos s = filepath <$> md_videos (metadata s)
  ∧ sd_traces s = filepath <$> md_traces (metadata s)
  ∧ (filepath <$> md_screenshots (metadata s)) `sublist_of` sd_screenshots s
  ∧ ∃ st r,
      get_session_status session_id w = (Return st, w)
      ∧ get_session_assets session_id w = (Return r, w)
      ∧ (total_screenshots r ≤ screenshots_count st)%nat.
Proof.
  intros Hreach Hs.
  assert (Hp : paths_recorded s).
  { eapply (reachable_sessions eng paths_recorded);
      [|apply paths_recorded_step|exact Hreach|exact Hs].
    intros. by split_and!. }
  destruct Hp as (Hv & Ht & Hsub).
  split_and!; [exact Hv|exact Ht|exact Hsub|].
  eexists _, _.
  split; [by apply get_session_status_active|].
  split; [by apply get_session_assets_active|].
  simpl. apply sublist_length in Hsub. by rewrite length_fmap in Hsub.
Qed.

Lemma reachable_entries_named w session_id s :
  reachable eng w → sessions w !! session_id = Some s → entries_named s.
Proof.
  intros Hreach Hs.
  eapply (reachable_sessions eng entries_named);
    [|apply entries_named_step|exact Hreach|exact Hs].
  intros sid b h vw vh rv t kind e He. destruct kind; inversion He.
Qed.

(** X5: in every reachable world, every entry of a session's metadata is
    named by the convention of the [add_*] methods: its file name is its
    sequence number padded to three digits, an underscore, a rest and the
    extension of its kind, and holds no space; its path is that name in the
    subdirectory of its kind below the session directory; its sequence
    number is between 1 and the length of its list. *)
Theorem asset_entries_named w session_id s kind :
  reachable eng w →
  sessions w !! session_id = Some s →
  Forall
    (λ e,
       (∃ rest,
          filename e
          = format_03d (sequence e) +:+ "_" +:+ rest +:+ kind_ext kind)
       ∧ contains_char " " (filename e) = false
       ∧ filepath e
         = session_path session_id +:+ "/" +:+ kind_dir kind +:+ "/"
           +:+ filename e
       ∧ (1 ≤ sequence e ≤ length (md_assets kind (metadata s)))%nat)
    (md_assets kind (metadata s)).
Proof.
  intros Hreach Hs. apply Forall_forall. intros e He.
  destruct (reachable_wf eng w Hreach) as (Hgap & Hmir & _).
  destruct (Hmir _ _ Hs) as (_ & _ & Hdir & _).
  destruct (reachable_entries_named w session_id s Hreach Hs kind e He)
    as (Hname & Hspace & Hpath).
  rewrite Hdir in Hpath.
  split; [exact Hname|]. split; [exact Hspace|]. split; [exact Hpath|].
  by apply gapless_below; [apply (Hgap _ _ kind Hs)|].
Qed.

Lemma map_fmap {A B} (f : A → B) (l : list A) : map f l = f <$> l.
Proof. induction l as [|x l IH]; simpl; [done|by f_equal]. Qed.

(** Two entries of a gapless list with the same sequence number are the same
    entry. *)
Lemma gapless_inj entries e1 e2 :
  gapless entries → e1 ∈ entries → e2 ∈ entries →
  sequence e1 = sequence e2 → e1 = e2.
Proof.
  unfold gapless. rewrite map_fmap. intros Hgap.
  intros [i1 H1]%list_elem_of_lookup [i2 H2]%list_elem_of_lookup Heq.
  assert (Hseq : ∀ i e, entries !! i = Some e → sequence e = 1 + i).
  { intros i e Hi.
    assert (Hl : (sequence <$> entries) !! i = Some (sequence e))
      by by rewrite list_lookup_fmap, Hi.
    rewrite Hgap in Hl. by apply lookup_seq in Hl as [-> _]. }
  assert (i1 = i2)
    by (pose proof (Hseq _ _ H1); pose proof (Hseq _ _ H2); lia).
  subst i2. congruence.
Qed.

Lemma gapless_NoDup entries : gapless entries → NoDup entries.
Proof.
  unfold gapless. rewrite map_fmap. intros Hgap.
  apply (NoDup_fmap_1 sequence). rewrite Hgap. apply NoDup_seq.
Qed.

(** X6: in every reachable world, no two entries of a session's metadata
    share a file path, within a list or across the three lists: a recorded
    file is never the target of a second record. *)
Theorem asset_paths_distinct w session_id s :
  reachable eng w →
  sessions w !! session_id = Some s →
  NoDup (filepath <$> all_assets (metadata s)).
Proof.
  intros Hreach Hs.
  destruct (reachable_wf eng w Hreach) as (Hgap & _ & _).
  pose proof (reachable_entries_named w session_id s Hreach Hs) as Hnamed.
  assert (Hkind : ∀ kind, NoDup (filepath <$> md_assets kind (metadata s))).
  { intros kind. apply NoDup_fmap_2_strong.
    - intros e1 e2 H1 H2 Heq.
      apply (gapless_inj (md_assets kind (metadata s)));
        [apply (Hgap _ _ kind Hs)|done..|].
      eapply well_named_inj; [by apply Hnamed..|exact Heq].
    - apply gapless_NoDup, (Hgap _ _ kind Hs). }
  assert (Hcross : ∀ kind1 kind2 p,
    kind1 ≠ kind2 →
    p ∈ filepath <$> md_assets kind1 (metadata s) →
    p ∉ filepath <$> md_assets kind2 (metadata s)).
  { intros kind1 kind2 p Hne (e1 & -> & H1)%list_elem_of_fmap
      (e2 & Heq & H2)%list_elem_of_fmap.
    apply Hne.
    eapply well_named_kind; [by apply Hnamed..|exact Heq]. }
  unfold all_assets. rewrite !fmap_app.
  apply NoDup_app. split_and!.
  - apply (Hkind Screenshots).
  - intros p Hp [Hv|Ht]%elem_of_app.
    + by apply (Hcross Screenshots Videos p).
    + by apply (Hcross Screenshots Traces p).
  - apply NoDup_app. split_and!.
    + apply (Hkind Videos).
    + intros p Hp Ht. by apply (Hcross Videos Traces p).
    + apply (Hkind Traces).
Qed.

End Invariants.

(** ** The lifecycle of a session: create, screenshot, close *)

Section Lifecycle.
Variable eng : Engine.

Implicit Types (w : World) (session_id : string) (kind : AssetKind)
  (s : SessionData).

(** A run of engine calls that the engine accepts. *)
Lemma accepts_cons history session_id c cs :
  accepts eng history session_id (c :: cs) = true ↔
  eng history session_id c = None
  ∧ accepts eng (history ++ [(session_id, c)]) session_id cs = true.
Proof.
  simpl. destruct (eng history session_id c) as [msg|].
  - split; [done|by intros [? _]].
  - split; [done|by intros [_ ?]].
Qed.

(** A run of engine calls that the engine does not accept: some call of the
    run raises, after the calls before it have returned. *)
Lemma accepts_false history session_id cs :
  accepts eng history session_id cs = false →
  ∃ pre c rest msg,
    cs = pre ++ c :: rest
    ∧ accepts eng history session_id pre = true
    ∧ eng (history ++ map (pair session_id) pre) session_id c = Some msg.
Proof.
  revert history. induction cs as [|c cs IH]; intros history; [done|].
  simpl. destruct (eng history session_id c) as [msg|] eqn:Hc.
  - intros _. exists [], c, cs, msg. simpl. by rewrite app_nil_r.
  - intros (pre & c' & rest & msg & -> & Hpre & Hc')%IH.
    exists (c :: pre), c', rest, msg. simpl. rewrite Hc.
    split_and!; [done|done|]. by rewrite <- app_assoc in Hc'.
Qed.

(** The engine calls of a computation that is a run of engine calls followed
    by a continuation. *)
Lemma run_calls_accepted {A} session_id cs (k : M A) w :
  accepts eng (calls w) session_id cs = true →
  foldr (λ c k, SessionManager.engine_call eng session_id c ;;; k) k cs w
  = k (set_calls (λ l, l ++ map (pair session_id) cs) w).
Proof.
  revert w. induction cs as [|c cs IH]; intros w; simpl.
  - intros _. f_equal. destruct w. unfold set_calls. simpl.
    by rewrite app_nil_r.
  - intros [Hc Hcs]%accepts_cons.
    rewrite (then_engine_call eng) by exact Hc.
    rewrite IH by exact Hcs.
    f_equal. unfold set_calls. simpl. by rewrite <- app_assoc.
Qed.

Lemma run_calls_refused {A} session_id pre c rest msg (k : M A) w :
  accepts eng (calls w) session_id pre = true →
  eng (calls w ++ map (pair session_id) pre) session_id c = Some msg →
  foldr (λ c k, SessionManager.engine_call eng session_id c ;;; k) k
    (pre ++ c :: rest) w
  = (Raise (Exception msg),
     set_calls (λ l, l ++ map (pair session_id) (pre ++ [c])) w).
Proof.
  intros Hpre Hc. rewrite foldr_app.
  rewrite run_calls_accepted by exact Hpre. simpl.
  erewrite bind_raise; [|by apply (engine_call_raises eng)].
  f_equal. unfold set_calls. simpl. by rewrite map_app, app_assoc.
Qed.

(** The manager's [create_session] as the directory, the run of the launch
    calls and the registration. *)
Lemma manager_create_session_unfold session_id browser headless vw vh
    record_video w :
  SessionManager.create_session eng session_id browser headless vw vh
    record_video w
  = foldr (λ c k, SessionManager.engine_call eng session_id c ;;; k)
      (w1 <~ get_world ;;
       SessionManager._save_session_metadata session_id
         (metadata (fresh_session session_id browser headless vw vh
                      record_video (clock w1))) ;;;
       modify (set_sessions
                 <[session_id := fresh_session session_id browser headless vw
                                   vh record_video (clock w1)]>) ;;;
       ret (fresh_session session_id browser headless vw vh record_video
              (clock w1)))
      (launch_calls session_id browser headless vw vh record_video)
      (SessionManager._create_session_directory session_id w).2.
Proof. reflexivity. Qed.

Lemma create_session_directory_spec session_id w :
  ∃ d,
    fs (SessionManager._create_session_directory session_id w).2
    = <[session_path session_id := d]> (fs w)
    ∧ fs (SessionManager._create_session_directory session_id w).2
        !! session_path session_id = Some d
    ∧ (fs w !! session_path session_id = None → d = mkSessionDir NoFile [])
    ∧ sessions (SessionManager._create_session_directory session_id w).2
      = sessions w
    ∧ calls (SessionManager._create_session_directory session_id w).2
      = calls w
    ∧ clock (SessionManager._create_session_directory session_id w).2
      = clock w.
Proof.
  unfold SessionManager._create_session_directory. simpl.
  destruct (fs w !! session_path session_id) as [d|] eqn:Hd.
  - exists d. split_and!; try done. by rewrite insert_id.
  - eexists. split_and!; try done. by rewrite lookup_insert_eq.
Qed.

(** X7: when the engine lets the four launch calls return,
    [POST /api/sessions/create] answers with the first eight hexadecimal
    digits of the UUID as session id, and registers under that id a session
    with status [active], no assets and [total_actions] 0; its
    [metadata.json] holds the same metadata; the next sequence number of
    every kind is 1; no other directory changes. *)
Theorem create_session_registers uuid browser headless vw vh record_video w :
  accepts eng (calls w) (uuid_str_8 uuid)
    (launch_calls (uuid_str_8 uuid) browser headless vw vh record_video)
  = true →
  ∃ w' d,
    create_session eng uuid browser headless vw vh record_video w
    = (Return (uuid_str_8 uuid), w')
    ∧ sessions w'
      = <[uuid_str_8 uuid :=
            fresh_session (uuid_str_8 uuid) browser headless vw vh
              record_video (clock w)]> (sessions w)
    ∧ fs w' !! session_path (uuid_str_8 uuid) = Some d
    ∧ metadata_json d
      = Json (metadata (fresh_session (uuid_str_8 uuid) browser headless vw
                          vh record_video (clock w)))
    ∧ (∀ p, p ≠ session_path (uuid_str_8 uuid) → fs w' !! p = fs w !! p)
    ∧ calls w'
      = calls w
        ++ map (pair (uuid_str_8 uuid))
             (launch_calls (uuid_str_8 uuid) browser headless vw vh
                record_video)
    ∧ clock w' = clock w
    ∧ ∀ kind,
        SessionManager._get_next_sequence_number w' (uuid_str_8 uuid) kind
        = 1.
Proof.
  intros Hacc. set (sid := uuid_str_8 uuid) in *.
  unfold create_session. fold sid.
  destruct (create_session_directory_spec sid w)
    as (d0 & Hfs0 & Hd0 & _ & Hs0 & Hc0 & Hclock0).
  erewrite try_except_bind_return; cycle 1.
  { rewrite manager_create_session_unfold.
    rewrite run_calls_accepted by (by rewrite Hc0).
    unfold bind at 1, get_world at 1.
    erewrite bind_return; [|apply save_metadata_ok; simpl; exact Hd0].
    unfold bind, modify, ret. reflexivity. }
  set (w0 := (SessionManager._create_session_directory sid w).2) in *.
  clearbody w0.
  unfold try_except, ret.
  eexists _, _. split; [reflexivity|]. simpl.
  rewrite Hs0, Hc0, Hclock0, Hfs0.
  split; [done|]. split; [apply lookup_insert_eq|]. split; [done|].
  split; [intros p Hp; by rewrite !lookup_insert_ne|].
  split; [done|]. split; [done|].
  intros kind. unfold SessionManager._get_next_sequence_number. simpl.
  rewrite lookup_insert_eq. by destruct kind.
Qed.

(** X8: when one of the launch calls raises, [POST /api/sessions/create]
    answers with status 500 and the message of the engine; no session is
    registered; the session directory, created before the launch, stays
    behind, with no [metadata.json] when it is new. *)
Theorem create_session_failure uuid browser headless vw vh record_video w :
  accepts eng (calls w) (uuid_str_8 uuid)
    (launch_calls (uuid_str_8 uuid) browser headless vw vh record_video)
  = false →
  ∃ msg w',
    create_session eng uuid browser headless vw vh record_video w
    = (Raise (HTTPException 500 ("Failed to create session: " +:+ msg)), w')
    ∧ sessions w' = sessions w
    ∧ is_Some (fs w' !! session_path (uuid_str_8 uuid))
    ∧ (fs w !! session_path (uuid_str_8 uuid) = None →
       fs w' !! session_path (uuid_str_8 uuid)
       = Some (mkSessionDir NoFile []))
    ∧ (∀ p, p ≠ session_path (uuid_str_8 uuid) → fs w' !! p = fs w !! p)
    ∧ clock w' = clock w.
Proof.
  intros Hacc. set (sid := uuid_str_8 uuid) in *.
  apply accepts_false in Hacc as (pre & c & rest & msg & Hcs & Hpre & Hc).
  unfold create_session. fold sid.
  destruct (create_session_directory_spec sid w)
    as (d0 & Hfs0 & Hd0 & Hnew & Hs0 & Hc0 & Hclock0).
  erewrite try_except_bind_raise; cycle 1.
  { rewrite manager_create_session_unfold, Hcs.
    apply run_calls_refused; by rewrite Hc0. }
  set (w0 := (SessionManager._create_session_directory sid w).2) in *.
  clearbody w0.
  unfold raise. simpl. exists msg. eexists. split; [reflexivity|]. simpl.
  rewrite Hs0, Hclock0, Hd0.
  split; [done|]. split; [done|].
  split; [intros Hnone; by rewrite (Hnew Hnone)|].
  split; [|done].
  intros p Hp. by rewrite Hfs0, lookup_insert_ne.
Qed.

(** ** Closing a session *)

Lemma strip_prefix_app a b : SessionManager.strip_prefix a (a +:+ b) = b.
Proof.
  unfold SessionManager.strip_prefix. rewrite string_app_length.
  replace (String.length a + String.length b - String.length a)
    with (String.length b) by lia.
  induction a as [|c a IH]; simpl; [apply substring_0_length|exact IH].
Qed.

Lemma strip_video_prefix dir f :
  SessionManager.strip_prefix (dir +:+ "/videos/")
    (dir +:+ "/" +:+ kind_dir Videos +:+ "/" +:+ f) = f.
Proof.
  change (dir +:+ "/" +:+ kind_dir Videos +:+ "/" +:+ f)
    with (dir +:+ "/videos/" +:+ f).
  rewrite <- string_app_assoc. apply strip_prefix_app.
Qed.

(** An addition for a session of the store whose directory exists: the
    answer and the world after it. *)
Lemma add_asset_run w kind session_id action description url s d :
  sessions w !! session_id = Some s →
  fs w !! session_path session_id = Some d →
  add_asset kind session_id action description url w
  = (Return (Some (filepath (new_entry kind s action description url
                              (clock w)))),
     set_fs <[session_path session_id :=
                mkSessionDir
                  (Json (metadata (recorded kind s action description url
                                     (clock w))))
                  (videos_dir d)]>
       (set_sessions
          <[session_id := recorded kind s action description url (clock w)]>
          w)).
Proof.
  intros Hs Hd.
  destruct kind; simpl;
    unfold SessionManager.add_screenshot, SessionManager.add_video,
      SessionManager.add_trace; rewrite Hs;
    rewrite (next_sequence_number_active _ _ _ _ Hs);
    (erewrite bind_return; [|apply save_metadata_ok; simpl; exact Hd]);
    reflexivity.
Qed.

Lemma session_dir_eta (d : SessionDir) :
  mkSessionDir (metadata_json d) (videos_dir d) = d.
Proof. by destruct d. Qed.

(** The video part of [close_session] in a world that satisfies the
    invariant. *)
Lemma finalize_video_run w session_id s d :
  wf w →
  sessions w !! session_id = Some s →
  fs w !! session_path session_id = Some d →
  ∃ w1,
    SessionManager.finalize_video session_id s w = (Return tt, w1)
    ∧ sessions w1
      = <[session_id := (finalized s d (clock w)).1]> (sessions w)
    ∧ fs w1
      = <[session_path session_id :=
            mkSessionDir (Json (metadata (finalized s d (clock w)).1))
              (finalized s d (clock w)).2]> (fs w)
    ∧ calls w1 = calls w
    ∧ clock w1 = clock w.
Proof.
  intros Hwf Hs Hd.
  destruct (proj1 (proj2 Hwf) _ _ Hs) as (_ & _ & Hdir & d' & Hd' & Hjson).
  rewrite Hd in Hd'. injection Hd' as <-.
  assert (Hsame : ∃ w1,
    (Return tt, w) = (Return tt, w1)
    ∧ sessions w1 = <[session_id := s]> (sessions w)
    ∧ fs w1
      = <[session_path session_id :=
            mkSessionDir (Json (metadata s)) (videos_dir d)]> (fs w)
    ∧ calls w1 = calls w ∧ clock w1 = clock w).
  { exists w. split_and!; try done.
    - by rewrite insert_id.
    - by rewrite <- Hjson, session_dir_eta, insert_id. }
  unfold SessionManager.finalize_video, finalized, first_video.
  destruct (md_record_video (metadata s)); [|exact Hsame].
  unfold bind at 1, get_world at 1. rewrite Hdir, Hd.
  destruct (filter (λ f, endswith f ".webm" = true) (videos_dir d))
    as [|original files]; [exact Hsame|].
  cbn [head fst snd].
  change (SessionManager.add_video session_id "session_recording")
    with (add_asset Videos session_id "" "session_recording" "").
  rewrite (bind_return _ _ _ _ _
             (add_asset_run w Videos session_id "" "session_recording" "" s d
                Hs Hd)).
  unfold SessionManager.rename_video, set_fs, set_sessions.
  cbn [fs sessions calls clock]. rewrite lookup_insert_eq.
  eexists. split; [reflexivity|].
  cbn [fs sessions calls clock metadata_json videos_dir].
  split; [done|]. split; [|done].
  rewrite insert_insert_eq. do 3 f_equal.
  unfold new_entry. cbn [filepath]. rewrite Hdir.
  apply strip_video_prefix.
Qed.

(** The manager's [close_session] up to the release of the engine. *)
Lemma manager_close_run w session_id s d :
  wf w →
  sessions w !! session_id = Some s →
  fs w !! session_path session_id = Some d →
  ∃ w2,
    SessionManager.close_session eng session_id w
    = foldr (λ c k, SessionManager.engine_call eng session_id c ;;; k)
        (modify (set_sessions (delete session_id))) teardown_calls w2
    ∧ sessions w2
      = <[session_id := completed (finalized s d (clock w)).1 (clock w)]>
          (sessions w)
    ∧ fs w2
      = <[session_path session_id :=
            mkSessionDir
              (Json (completed_metadata
                       (metadata (finalized s d (clock w)).1) (clock w)))
              (finalized s d (clock w)).2]> (fs w)
    ∧ calls w2 = calls w
    ∧ clock w2 = clock w.
Proof.
  intros Hwf Hs Hd.
  destruct (finalize_video_run w session_id s d Hwf Hs Hd)
    as (w1 & Hfin & Hs1 & Hfs1 & Hc1 & Hclock1).
  unfold SessionManager.close_session, bind at 1, get_world at 1.
  rewrite Hs. rewrite (bind_return _ _ _ _ _ Hfin).
  unfold bind at 1, get_world at 1.
  rewrite Hs1, lookup_insert_eq.
  unfold bind at 1, modify at 1.
  erewrite bind_return; cycle 1.
  { apply save_metadata_ok. simpl. rewrite Hfs1. apply lookup_insert_eq. }
  eexists. split; [reflexivity|]. simpl.
  rewrite Hs1, Hfs1, Hc1, Hclock1, !insert_insert_eq. done.
Qed.

Lemma finalized_nothing s d t :
  md_record_video (metadata s) = false ∨ first_video d = None →
  finalized s d t = (s, videos_dir d).
Proof.
  unfold finalized. intros [-> | ->]; [done|].
  by destruct (md_record_video (metadata s)).
Qed.

Lemma finalized_recording s d t original :
  md_record_video (metadata s) = true →
  first_video d = Some original →
  finalized s d t
  = (recorded Videos s "" "session_recording" "" t,
     SessionManager.rename_file original
       (asset_filename Videos (length (md_videos (metadata s)) + 1) ""
          "session_recording")
       (videos_dir d)).
Proof. unfold finalized. by intros -> ->. Qed.

(** The manager's [close_session] when the engine lets the release calls
    return. *)
Lemma manager_close_returns w session_id s d :
  wf w →
  sessions w !! session_id = Some s →
  fs w !! session_path session_id = Some d →
  accepts eng (calls w) session_id teardown_calls = true →
  ∃ w',
    SessionManager.close_session eng session_id w = (Return tt, w')
    ∧ sessions w' = delete session_id (sessions w)
    ∧ fs w'
      = <[session_path session_id :=
            mkSessionDir
              (Json (completed_metadata
                       (metadata (finalized s d (clock w)).1) (clock w)))
              (finalized s d (clock w)).2]> (fs w)
    ∧ calls w' = calls w ++ map (pair session_id) teardown_calls
    ∧ clock w' = clock w.
Proof.
  intros Hwf Hs Hd Hacc.
  destruct (manager_close_run w session_id s d Hwf Hs Hd)
    as (w2 & Hrun & Hs2 & Hfs2 & Hc2 & Hclock2).
  rewrite Hrun, run_calls_accepted by (by rewrite Hc2).
  eexists. split; [reflexivity|]. simpl.
  rewrite Hs2, Hfs2, Hc2, Hclock2, delete_insert_eq. done.
Qed.

(** The manager's [close_session] when a release call raises. *)
Lemma manager_close_raises w session_id s d :
  wf w →
  sessions w !! session_id = Some s →
  fs w !! session_path session_id = Some d →
  accepts eng (calls w) session_id teardown_calls = false →
  ∃ msg w',
    SessionManager.close_session eng session_id w
    = (Raise (Exception msg), w')
    ∧ sessions w'
      = <[session_id := completed (finalized s d (clock w)).1 (clock w)]>
          (sessions w)
    ∧ fs w'
      = <[session_path session_id :=
            mkSessionDir
              (Json (completed_metadata
                       (metadata (finalized s d (clock w)).1) (clock w)))
              (finalized s d (clock w)).2]> (fs w)
    ∧ clock w' = clock w.
Proof.
  intros Hwf Hs Hd Hacc.
  destruct (manager_close_run w session_id s d Hwf Hs Hd)
    as (w2 & Hrun & Hs2 & Hfs2 & Hc2 & Hclock2).
  apply accepts_false in Hacc as (pre & c & rest & msg & Hcs & Hpre & Hc).
  rewrite Hrun, Hcs.
  rewrite (run_calls_refused _ pre c rest msg) by (by rewrite Hc2).
  eexists _, _. split; [reflexivity|]. simpl. by rewrite Hs2, Hfs2, Hclock2.
Qed.

(** On the Playwright library the release of a session never returns. *)
Lemma aexit_raises_refuses history session_id :
  aexit_raises eng →
  accepts eng history session_id teardown_calls = false.
Proof.
  intros Hexit. unfold teardown_calls. simpl.
  destruct (eng history session_id ContextClose); [done|].
  destruct (eng _ session_id BrowserClose); [done|].
  destruct (eng _ session_id PlaywrightExit) eqn:He; [done|].
  by apply Hexit in He.
Qed.

(** [close_session] of the manager on a session of the store, whatever the
    release calls do: the metadata is written first; the session leaves the
    store only when the three release calls return. *)
Lemma manager_close_any w session_id s d :
  wf w →
  sessions w !! session_id = Some s →
  fs w !! session_path session_id = Some d →
  ∃ o w',
    SessionManager.close_session eng session_id w = (o, w')
    ∧ fs w'
      = <[session_path session_id :=
            mkSessionDir
              (Json (completed_metadata
                       (metadata (finalized s d (clock w)).1) (clock w)))
              (finalized s d (clock w)).2]> (fs w)
    ∧ clock w' = clock w
    ∧ if accepts eng (calls w) session_id teardown_calls
      then o = Return tt ∧ sessions w' = delete session_id (sessions w)
      else (∃ msg, o = Raise (Exception msg))
           ∧ sessions w'
             = <[session_id :=
                   completed (finalized s d (clock w)).1 (clock w)]>
                 (sessions w).
Proof.
  intros Hwf Hs Hd.
  destruct (accepts eng (calls w) session_id teardown_calls) eqn:Hacc.
  - destruct (manager_close_returns w session_id s d Hwf Hs Hd Hacc)
      as (w' & Hrun & Hs' & Hfs' & _ & Hclock').
    by exists (Return tt), w'.
  - destruct (manager_close_raises w session_id s d Hwf Hs Hd Hacc)
      as (msg & w' & Hrun & Hs' & Hfs' & Hclock').
    exists (Raise (Exception msg)), w'. split_and!; try done. by exists msg.
Qed.

Lemma close_session_found w session_id s :
  sessions w !! session_id = Some s →
  close_session eng session_id w
  = (SessionManager.close_session eng session_id ;;; ret session_id) w.
Proof.
  intros Hs. unfold close_session, bind at 1, SessionManager.get_session.
  by rewrite Hs.
Qed.

Lemma get_session_assets_closed w session_id d m :
  sessions w !! session_id = None →
  fs w !! session_path session_id = Some d →
  metadata_json d = Json m →
  get_session_assets session_id w
  = (Return (assets_of session_id m (clock w)), w).
Proof.
  intros Hs Hd Hm.
  unfold get_session_assets, bind, SessionManager.get_session, get_world, ret.
  by rewrite Hs, Hd; simpl; rewrite Hm.
Qed.

Lemma get_session_assets_gone w session_id :
  sessions w !! session_id = None →
  fs w !! session_path session_id = None →
  get_session_assets session_id w
  = (Raise (HTTPException 404 "Session not found"), w).
Proof.
  intros Hs Hd.
  unfold get_session_assets, bind, SessionManager.get_session, get_world, ret.
  by rewrite Hs, Hd.
Qed.

(** X9: closing a session that has no recording to register (it does not
    record video, or no [.webm] file is in its [videos/] directory).  The
    metadata is written before the release calls, whatever they do:
    [metadata.json] keeps every field and every asset entry, with status
    [completed] and the clock reading as last activity, and no other session
    directory changes.  When the three release calls return the answer is
    the session id and the session has left the store; when one of them
    raises (on the Playwright library the last one does, see
    [aexit_raises]) the exception leaves the endpoint and the session stays
    in the store with the metadata written.  Either way the assets endpoint
    then serves exactly that metadata. *)
Theorem close_session_marks_completed w session_id s d :
  reachable eng w →
  sessions w !! session_id = Some s →
  fs w !! session_path session_id = Some d →
  md_record_video (metadata s) = false ∨ first_video d = None →
  ∃ o w',
    close_session eng session_id w = (o, w')
    ∧ fs w'
      = <[session_path session_id :=
            mkSessionDir (Json (completed_metadata (metadata s) (clock w)))
              (videos_dir d)]> (fs w)
    ∧ clock w' = clock w
    ∧ get_session_assets session_id w'
      = (Return (assets_of session_id
                   (completed_metadata (metadata s) (clock w)) (clock w)),
         w')
    ∧ if accepts eng (calls w) session_id teardown_calls
      then o = Return session_id
           ∧ sessions w' = delete session_id (sessions w)
      else (∃ msg, o = Raise (Exception msg))
           ∧ sessions w'
             = <[session_id := completed s (clock w)]> (sessions w).
Proof.
  intros Hreach Hs Hd Hnone.
  pose proof (reachable_wf eng w Hreach) as Hwf.
  destruct (manager_close_any w session_id s d Hwf Hs Hd)
    as (o & w' & Hrun & Hfs' & Hclock' & Hout).
  rewrite (finalized_nothing _ _ _ Hnone) in Hfs', Hout.
  cbn [fst snd] in Hfs', Hout.
  rewrite (close_session_found _ _ _ Hs).
  destruct (accepts eng (calls w) session_id teardown_calls);
    destruct Hout as [Ho Hs'].
  - subst o. rewrite (bind_return _ _ _ _ _ Hrun).
    exists (Return session_id), w'.
    split; [done|]. split; [exact Hfs'|]. split; [exact Hclock'|].
    split; [|by split].
    rewrite <- Hclock'. eapply get_session_assets_closed.
    + rewrite Hs'. apply lookup_delete_eq.
    + rewrite Hfs'. apply lookup_insert_eq.
    + by rewrite Hclock'.
  - destruct Ho as [msg ->]. rewrite (bind_raise _ _ _ _ _ Hrun).
    exists (Raise (Exception msg)), w'.
    split; [done|]. split; [exact Hfs'|]. split; [exact Hclock'|].
    split; [|split; [by exists msg|exact Hs']].
    rewrite (get_session_assets_active w' session_id
               (completed s (clock w)))
      by (rewrite Hs'; apply lookup_insert_eq).
    by rewrite Hclock'.
Qed.

Lemma session_recording_filename n :
  asset_filename Videos n "" "session_recording"
  = format_03d n +:+ "_session_recording.webm".
Proof.
  unfold asset_filename.
  by rewrite replace_spaces_app,
    (all_digits_replace_spaces _ (format_03d_digits n)).
Qed.

(** X10: closing a session that records video, when its [videos/]
    directory holds a [.webm] file.  Before the release calls, and whatever
    they do, the first such file is registered as one more video entry,
    with the next sequence number and the name
    [NNN_session_recording.webm], and renamed to that name; the other asset
    lists and [total_actions] are as before; the metadata is written with
    status [completed].  When the release calls return the session has left
    the store; when one raises (on the Playwright library the last one
    does) the exception leaves the endpoint and the session stays, with
    that metadata. *)
Theorem close_session_registers_recording w session_id s d original :
  reachable eng w →
  sessions w !! session_id = Some s →
  fs w !! session_path session_id = Some d →
  md_record_video (metadata s) = true →
  first_video d = Some original →
  ∃ o w' d' m' e,
    close_session eng session_id w = (o, w')
    ∧ fs w' !! session_path session_id = Some d'
    ∧ metadata_json d' = Json m'
    ∧ md_status m' = "completed"
    ∧ md_videos m' = md_videos (metadata s) ++ [e]
    ∧ md_screenshots m' = md_screenshots (metadata s)
    ∧ md_traces m' = md_traces (metadata s)
    ∧ md_total_actions m' = md_total_actions (metadata s)
    ∧ sequence e = length (md_videos (metadata s)) + 1
    ∧ filename e
      = format_03d (length (md_videos (metadata s)) + 1)
        +:+ "_session_recording.webm"
    ∧ filepath e = session_path session_id +:+ "/videos/" +:+ filename e
    ∧ videos_dir d'
      = SessionManager.rename_file original (filename e) (videos_dir d)
    ∧ filename e ∈ videos_dir d'
    ∧ if accepts eng (calls w) session_id teardown_calls
      then o = Return session_id
           ∧ sessions w' = delete session_id (sessions w)
      else (∃ msg, o = Raise (Exception msg))
           ∧ ∃ s', sessions w' !! session_id = Some s' ∧ metadata s' = m'.
Proof.
  intros Hreach Hs Hd Hrec Hvideo.
  pose proof (reachable_wf eng w Hreach) as Hwf.
  destruct (proj1 (proj2 Hwf) _ _ Hs) as (_ & _ & Hdir & _).
  destruct (manager_close_any w session_id s d Hwf Hs Hd)
    as (o & w' & Hrun & Hfs' & Hclock' & Hout).
  rewrite (finalized_recording _ _ _ _ Hrec Hvideo) in Hfs', Hout.
  cbn [fst snd] in Hfs', Hout.
  rewrite (close_session_found _ _ _ Hs).
  assert (Hname :
    filename (new_entry Videos s "" "session_recording" "" (clock w))
    = format_03d (length (md_videos (metadata s)) + 1)
      +:+ "_session_recording.webm")
    by apply session_recording_filename.
  assert (Hin :
    filename (new_entry Videos s "" "session_recording" "" (clock w))
    ∈ SessionManager.rename_file original
        (asset_filename Videos (length (md_videos (metadata s)) + 1) ""
           "session_recording") (videos_dir d)).
  { change (filename (new_entry Videos s "" "session_recording" ""
                        (clock w)))
      with (asset_filename Videos (length (md_videos (metadata s)) + 1) ""
              "session_recording").
    unfold SessionManager.rename_file. case_decide as Heq.
    - rewrite <- Heq. unfold first_video in Hvideo.
      apply head_Some_elem_of in Hvideo.
      by apply list_elem_of_filter in Hvideo as [_ ?].
    - apply list_elem_of_here. }
  assert (Hout' :
    ∃ o',
      (SessionManager.close_session eng session_id ;;; ret session_id) w
      = (o', w')
      ∧ if accepts eng (calls w) session_id teardown_calls
        then o' = Return session_id
             ∧ sessions w' = delete session_id (sessions w)
        else (∃ msg, o' = Raise (Exception msg))
             ∧ ∃ s',
                 sessions w' !! session_id = Some s'
                 ∧ metadata s'
                   = completed_metadata
                       (metadata (recorded Videos s "" "session_recording" ""
                                    (clock w))) (clock w)).
  { destruct (accepts eng (calls w) session_id teardown_calls);
      destruct Hout as [Ho Hs'].
    - subst o. rewrite (bind_return _ _ _ _ _ Hrun). by eexists.
    - destruct Ho as [msg ->]. rewrite (bind_raise _ _ _ _ _ Hrun).
      eexists. split; [reflexivity|]. split; [by exists msg|].
      eexists. split; [rewrite Hs'; apply lookup_insert_eq|reflexivity]. }
  destruct Hout' as (o' & Hrun' & Hout').
  eexists o', w', _, _,
    (new_entry Videos s "" "session_recording" "" (clock w)).
  split; [exact Hrun'|].
  split; [rewrite Hfs'; apply lookup_insert_eq|].
  cbn [metadata_json videos_dir].
  split; [reflexivity|].
  split; [reflexivity|]. split; [reflexivity|]. split; [reflexivity|].
  split; [reflexivity|]. split; [reflexivity|]. split; [reflexivity|].
  split; [exact Hname|].
  split.
  { unfold new_entry. cbn [filepath filename]. by rewrite Hdir. }
  split; [reflexivity|].
  split; [exact Hin|exact Hout'].
Qed.

(** X11: when a release call raises, [DELETE /api/sessions/{session_id}]
    raises the exception of the engine, and the session stays in the store
    although its metadata, in memory and on disk, already says [completed]:
    the status endpoint still answers [active] for it while the assets
    endpoint answers [completed]. *)
Theorem close_session_failure_keeps_session w session_id s :
  reachable eng w →
  sessions w !! session_id = Some s →
  accepts eng (calls w) session_id teardown_calls = false →
  ∃ msg w' s' d' st r,
    close_session eng session_id w = (Raise (Exception msg), w')
    ∧ sessions w' !! session_id = Some s'
    ∧ md_status (metadata s') = "completed"
    ∧ fs w' !! session_path session_id = Some d'
    ∧ metadata_json d' = Json (metadata s')
    ∧ get_session_status session_id w' = (Return st, w')
    ∧ ss_status st = "active"
    ∧ get_session_assets session_id w' = (Return r, w')
    ∧ sa_status r = "completed".
Proof.
  intros Hreach Hs Hacc.
  pose proof (reachable_wf eng w Hreach) as Hwf.
  destruct (proj1 (proj2 Hwf) _ _ Hs) as (_ & _ & _ & d & Hd & _).
  destruct (manager_close_raises w session_id s d Hwf Hs Hd Hacc)
    as (msg & w' & Hrun & Hs' & Hfs' & Hclock').
  assert (Hlookup :
    sessions w' !! session_id
    = Some (completed (finalized s d (clock w)).1 (clock w)))
    by (rewrite Hs'; apply lookup_insert_eq).
  eexists msg, w', _, _, _, _.
  rewrite (close_session_found _ _ _ Hs).
  rewrite (bind_raise _ _ _ _ _ Hrun).
  split; [done|]. split; [exact Hlookup|]. split; [reflexivity|].
  split; [rewrite Hfs'; apply lookup_insert_eq|]. split; [reflexivity|].
  split; [by apply (get_session_status_active _ _ _ Hlookup)|].
  split; [reflexivity|].
  split; [by apply (get_session_assets_active _ _ _ Hlookup)|].
  reflexivity.
Qed.

(** ** Screenshots, unknown sessions, cleanup *)

Lemma manual_screenshot_filename n :
  asset_filename Screenshots n "manual" "screenshot"
  = format_03d n +:+ "_manual_screenshot.png".
Proof.
  unfold asset_filename.
  by rewrite replace_spaces_app,
    (all_digits_replace_spaces _ (format_03d_digits n)).
Qed.

(** X12: [POST /api/sessions/{session_id}/screenshot] records the screenshot
    before it takes it.  For a session of a reachable store the entry
    [NNN_manual_screenshot.png], with the next sequence number, is appended
    to the metadata, in memory and on disk, and [total_actions] is bumped;
    then the engine is asked for the capture at that path.  The answer is the
    path when the capture returns; when it raises, the exception leaves the
    endpoint and the entry of the file that was never written stays. *)
Theorem take_screenshot_records_before_capture w session_id s :
  reachable eng w →
  sessions w !! session_id = Some s →
  ∃ o w' s' d' e,
    take_screenshot eng session_id w = (o, w')
    ∧ filename e
      = format_03d (length (md_screenshots (metadata s)) + 1)
        +:+ "_manual_screenshot.png"
    ∧ filepath e = session_path session_id +:+ "/screenshots/" +:+ filename e
    ∧ sequence e = length (md_screenshots (metadata s)) + 1
    ∧ sessions w' = <[session_id := s']> (sessions w)
    ∧ md_screenshots (metadata s') = md_screenshots (metadata s) ++ [e]
    ∧ md_total_actions (metadata s') = md_total_actions (metadata s) + 1
    ∧ fs w' !! session_path session_id = Some d'
    ∧ metadata_json d' = Json (metadata s')
    ∧ calls w' = calls w ++ [(session_id, Screenshot (filepath e))]
    ∧ o = match eng (calls w) session_id (Screenshot (filepath e)) with
          | None => Return (Some (filepath e))
          | Some msg => Raise (Exception msg)
          end.
Proof.
  intros Hreach Hs.
  pose proof (reachable_wf eng w Hreach) as Hwf.
  destruct (proj1 (proj2 Hwf) _ _ Hs) as (_ & _ & Hdir & d & Hd & _).
  pose proof (add_asset_run w Screenshots session_id "manual" "screenshot" ""
                s d Hs Hd) as Hadd.
  set (e := new_entry Screenshots s "manual" "screenshot" "" (clock w)) in *.
  set (s' := recorded Screenshots s "manual" "screenshot" "" (clock w)) in *.
  unfold take_screenshot, bind at 1, SessionManager.get_session.
  rewrite Hs.
  change (SessionManager.add_screenshot session_id "manual" "screenshot" "")
    with (add_asset Screenshots session_id "manual" "screenshot" "").
  rewrite (bind_return _ _ _ _ _ Hadd).
  cbn [default]. unfold id, bind, SessionManager.engine_call, ret.
  cbn [calls set_fs set_sessions].
  exists (match eng (calls w) session_id (Screenshot (filepath e)) with
          | None => Return (Some (filepath e))
          | Some msg => Raise (Exception msg)
          end).
  eexists _, s', _, e.
  split; [by destruct (eng (calls w) session_id (Screenshot (filepath e)))|].
  split; [apply manual_screenshot_filename|].
  split.
  { subst e. unfold new_entry. cbn [filepath filename]. by rewrite Hdir. }
  split; [reflexivity|].
  cbn [sessions fs calls set_calls].
  split; [reflexivity|]. split; [reflexivity|]. split; [reflexivity|].
  split; [apply lookup_insert_eq|]. split; [reflexivity|].
  split; reflexivity.
Qed.

(** X13: the endpoints of a session answer 404 [Session not found] for an
    id that is not in the store, and change nothing: no engine call is
    issued, nothing is recorded.  The assets endpoint answers so only when
    the id has no directory on disk either. *)
Theorem session_endpoints_not_found w session_id :
  sessions w !! session_id = None →
  get_session_status session_id w
  = (Raise (HTTPException 404 "Session not found"), w)
  ∧ (∀ actions,
       execute_sequence eng session_id actions w
       = (Raise (HTTPException 404 "Session not found"), w))
  ∧ take_screenshot eng session_id w
    = (Raise (HTTPException 404 "Session not found"), w)
  ∧ (fs w !! session_path session_id = None →
     get_session_assets session_id w
     = (Raise (HTTPException 404 "Session not found"), w)).
Proof.
  intros Hs. split_and!.
  - unfold get_session_status, bind, SessionManager.get_session.
    by rewrite Hs.
  - intros actions.
    unfold execute_sequence, bind, SessionManager.get_session.
    by rewrite Hs.
  - unfold take_screenshot, bind, SessionManager.get_session.
    by rewrite Hs.
  - intros Hd. by apply get_session_assets_gone.
Qed.

(** X14: [DELETE /api/sessions/{session_id}/cleanup] on a reachable world.
    When the id has no directory the answer is 404
    [Session directory not found] and nothing changes.  When the id has a
    directory and is not in the store (after a restart, say) the directory
    is removed, nothing else changes, and the assets endpoint answers 404
    for the id from then on.  When the session is in the store it is closed
    first, outside any [try]: if a release call raises (on the Playwright
    library the last one does, see [aexit_raises]) the exception leaves the
    endpoint before the removal, so the session stays in the store and its
    directory on disk, with status [completed]; if the release calls return,
    the session and its directory are both gone.  No other session and no
    other session directory changes. *)
Theorem cleanup_session_removes w session_id :
  reachable eng w →
  (fs w !! session_path session_id = None →
   cleanup_session eng session_id w
   = (Raise (HTTPException 404 "Session directory not found"), w))
  ∧ (sessions w !! session_id = None →
     is_Some (fs w !! session_path session_id) →
     cleanup_session eng session_id w
     = (Return session_id, set_fs (delete (session_path session_id)) w)
     ∧ get_session_assets session_id
         (set_fs (delete (session_path session_id)) w)
       = (Raise (HTTPException 404 "Session not found"),
          set_fs (delete (session_path session_id)) w))
  ∧ (is_Some (sessions w !! session_id) →
     ∃ o w',
       cleanup_session eng session_id w = (o, w')
       ∧ (∀ session_id', session_id' ≠ session_id →
            sessions w' !! session_id' = sessions w !! session_id')
       ∧ (∀ p, p ≠ session_path session_id → fs w' !! p = fs w !! p)
       ∧ if accepts eng (calls w) session_id teardown_calls
         then o = Return session_id
              ∧ sessions w' !! session_id = None
              ∧ fs w' !! session_path session_id = None
         else (∃ msg, o = Raise (Exception msg))
              ∧ ∃ s' d',
                  sessions w' !! session_id = Some s'
                  ∧ md_status (metadata s') = "completed"
                  ∧ fs w' !! session_path session_id = Some d'
                  ∧ metadata_json d' = Json (metadata s')).
Proof.
  intros Hreach.
  pose proof (reachable_wf eng w Hreach) as Hwf.
  split; [|split].
  - intros Hnodir.
    assert (Hnone : sessions w !! session_id = None).
    { destruct (sessions w !! session_id) as [s|] eqn:Hs; [|done].
      destruct (proj1 (proj2 Hwf) _ _ Hs) as (_ & _ & _ & d & Hd & _).
      congruence. }
    unfold cleanup_session, bind at 1, get_world at 1.
    destruct (decide (is_Some (sessions w !! session_id))) as [[s Hs]|_];
      [congruence|].
    unfold bind at 1, ret at 1. unfold bind, get_world. by rewrite Hnodir.
  - intros Hnone [d Hd]. split.
    + unfold cleanup_session, bind at 1, get_world at 1.
      destruct (decide (is_Some (sessions w !! session_id))) as [[s Hs]|_];
        [congruence|].
      unfold bind at 1, ret at 1. unfold bind at 1, get_world at 1.
      by rewrite Hd.
    + apply get_session_assets_gone; [exact Hnone|].
      cbn [fs set_fs]. apply lookup_delete_eq.
  - intros [s Hs].
    destruct (proj1 (proj2 Hwf) _ _ Hs) as (_ & _ & _ & d & Hd & _).
    destruct (manager_close_any w session_id s d Hwf Hs Hd)
      as (o & w1 & Hclose & Hfs1 & Hclock1 & Hout).
    unfold cleanup_session, bind at 1, get_world at 1.
    destruct (decide (is_Some (sessions w !! session_id))) as [_|Hno];
      [|by destruct Hno; exists s].
    destruct (accepts eng (calls w) session_id teardown_calls);
      destruct Hout as [Ho Hs1].
    + subst o. rewrite (bind_return _ _ _ _ _ Hclose).
      unfold bind at 1, get_world at 1.
      rewrite Hfs1, lookup_insert_eq.
      unfold bind, modify, ret. eexists _, _. split; [reflexivity|].
      cbn [sessions fs set_fs]. rewrite Hs1, Hfs1.
      split; [intros sid Hsid; by rewrite lookup_delete_ne|].
      split.
      { intros p Hp. by rewrite lookup_delete_ne, lookup_insert_ne. }
      split; [done|]. split; apply lookup_delete_eq.
    + destruct Ho as [msg ->]. rewrite (bind_raise _ _ _ _ _ Hclose).
      eexists _, w1. split; [reflexivity|]. rewrite Hs1, Hfs1.
      split; [intros sid Hsid; by rewrite lookup_insert_ne|].
      split; [intros p Hp; by rewrite lookup_insert_ne|].
      split; [by exists msg|].
      eexists _, _. split; [apply lookup_insert_eq|].
      split; [reflexivity|]. split; [apply lookup_insert_eq|reflexivity].
Qed.

End Lifecycle.


(** ** A sequence that runs to its end *)

Section SequenceRuns.
Variable eng : Engine.

Implicit Types (w : World) (session_id : string) (s : SessionData).

Lemma apply_action_sessions session_id i a w :
  sessions (apply_action eng session_id i a w).2 = sessions w.
Proof.
  unfold apply_action.
  destruct (branch_of (action a)); try done;
    unfold bind, SessionManager.engine_call;
    by destruct (eng (calls w) session_id _).
Qed.

Lemma alter_captured session_id path w s :
  sessions w !! session_id = Some s →
  alter (λ s, mkSessionData (sd_screenshots s ++ [path]) (sd_videos s)
                (sd_traces s) (sd_created_at s) (action_count s)
                (sd_last_activity s) (recording_video s) (metadata s))
    session_id (sessions w)
  = <[session_id := captured s path]> (sessions w).
Proof.
  intros Hs. apply map_eq. intros k. rewrite lookup_alter, lookup_insert.
  case_decide; [subst; by rewrite Hs|done].
Qed.

Lemma foldl_captured s paths :
  sd_screenshots (foldl captured s paths) = sd_screenshots s ++ paths
  ∧ metadata (foldl captured s paths) = metadata s.
Proof.
  revert s. induction paths as [|p paths IH]; intros s; simpl.
  - by rewrite app_nil_r.
  - destruct (IH (captured s p)) as [-> ->]. simpl.
    by rewrite <- app_assoc.
Qed.

(** A step whose calls the engine accepts: the result, and the world after
    it. *)
Lemma step_run session_id i a loc w s :
  sessions w !! session_id = Some s →
  accepts eng (calls w) session_id (step_calls session_id i a) = true →
  ∃ w',
    step eng session_id i a loc w
    = (Return (mkLocals (action_results loc ++ [step_result session_id i a])
                 (screenshots loc ++ step_capture session_id i a)), w')
    ∧ sessions w'
      = <[session_id := foldl captured s (step_capture session_id i a)]>
          (sessions w)
    ∧ fs w' = fs w
    ∧ clock w' = clock w
    ∧ calls w' = calls w ++ map (pair session_id) (step_calls session_id i a).
Proof.
  intros Hs Hacc. unfold step_calls in *.
  rewrite accepts_app in Hacc. apply andb_prop in Hacc as [Hact Hcap].
  destruct (apply_action_returns eng session_id i a w Hact)
    as (w1 & Happ & Hcalls1 & Hfs1 & Hclock1 & _).
  assert (Hs1 : sessions w1 = sessions w).
  { by rewrite <- (apply_action_sessions session_id i a w), Happ. }
  unfold step. rewrite (bind_return _ _ _ _ _ Happ).
  unfold step_result, step_capture in *.
  destruct (default false (screenshot_after a)).
  - apply accepts_one in Hcap. rewrite <- Hcalls1 in Hcap.
    rewrite (then_engine_call eng) by exact Hcap.
    unfold bind, append_session_screenshot, modify, ret.
    eexists. split; [reflexivity|].
    cbn [sessions fs clock calls set_sessions set_calls foldl map].
    rewrite Hs1, Hfs1, Hclock1, Hcalls1.
    rewrite (alter_captured _ _ _ _ Hs).
    split_and!; try done. by rewrite map_app, app_assoc.
  - unfold ret. rewrite app_nil_r. eexists. split; [reflexivity|].
    cbn [foldl map]. rewrite Hs1, Hfs1, Hclock1, Hcalls1, app_nil_r.
    by rewrite insert_id.
Qed.

Lemma run_actions_completes session_id actions i loc w s :
  sessions w !! session_id = Some s →
  Forall (λ a, branch_of (action a) ≠ BCheckpoint) actions →
  accepts eng (calls w) session_id (sequence_calls session_id i actions)
  = true →
  ∃ w',
    run_actions eng session_id i actions loc w
    = (Exhausted,
       mkLocals
         (action_results loc ++ sequence_results session_id i actions)
         (screenshots loc ++ sequence_captures session_id i actions), w')
    ∧ sessions w'
      = <[session_id :=
            foldl captured s (sequence_captures session_id i actions)]>
          (sessions w)
    ∧ fs w' = fs w
    ∧ clock w' = clock w
    ∧ calls w'
      = calls w ++ map (pair session_id) (sequence_calls session_id i actions).
Proof.
  revert i loc w s.
  induction actions as [|a rest IH]; intros i loc w s Hs Hall Hacc.
  - exists w. simpl. rewrite !app_nil_r, insert_id by done.
    by destruct loc.
  - apply Forall_cons in Hall as [Ha Hrest]. simpl in Hacc.
    rewrite accepts_app in Hacc. apply andb_prop in Hacc as [Hstep Hseq].
    destruct (step_run session_id i a loc w s Hs Hstep)
      as (w1 & Hrun1 & Hs1 & Hfs1 & Hclock1 & Hcalls1).
    rewrite <- Hcalls1 in Hseq.
    assert (Hlookup :
      sessions w1 !! session_id
      = Some (foldl captured s (step_capture session_id i a)))
      by (rewrite Hs1; apply lookup_insert_eq).
    destruct (IH (S i)
                (mkLocals
                   (action_results loc ++ [step_result session_id i a])
                   (screenshots loc ++ step_capture session_id i a))
                w1 _ Hlookup Hrest Hseq)
      as (w2 & Hrun2 & Hs2 & Hfs2 & Hclock2 & Hcalls2).
    exists w2. split.
    { simpl. destruct (branch_of (action a)); try done;
        rewrite Hrun1, Hrun2; simpl; by rewrite <- !app_assoc. }
    rewrite Hs2, Hs1, Hfs2, Hfs1, Hclock2, Hclock1, Hcalls2, Hcalls1.
    cbn [sequence_captures sequence_calls].
    rewrite insert_insert_eq, foldl_app, map_app, app_assoc.
    done.
Qed.

Lemma capture_paths_app cs1 cs2 :
  capture_paths (cs1 ++ cs2) = capture_paths cs1 ++ capture_paths cs2.
Proof. apply omap_app. Qed.

(** The captures of a run are the files its engine calls write. *)
Lemma capture_paths_sequence session_id i actions :
  capture_paths (map (pair session_id) (sequence_calls session_id i actions))
  = sequence_captures session_id i actions.
Proof.
  revert i. induction actions as [|a rest IH]; intros i; [done|].
  cbn [sequence_calls sequence_captures].
  rewrite map_app, capture_paths_app, IH. f_equal.
  unfold step_calls. rewrite map_app, capture_paths_app.
  replace (capture_paths (map (pair session_id)
                            (option_list (action_call a)))) with (@nil string)
    by (unfold action_call; by destruct (branch_of (action a))).
  simpl. induction (step_capture session_id i a) as [|p l IHl]; [done|].
  simpl. by f_equal.
Qed.

Lemma sequence_captures_named session_id i actions :
  Forall (λ path, ∃ j, (i ≤ j < i + length actions)%nat
                       ∧ path = step_screenshot_path session_id j)
    (sequence_captures session_id i actions).
Proof.
  revert i. induction actions as [|a rest IH]; intros i; [constructor|].
  cbn [sequence_captures]. apply Forall_app. split.
  - unfold step_capture. destruct (default false (screenshot_after a));
      [|constructor].
    repeat constructor. exists i. simpl. split; [lia|done].
  - eapply Forall_impl; [apply (IH (S i))|].
    intros path (j & Hj & ->). exists j. simpl. split; [lia|done].
Qed.

(** X15: a sequence without checkpoint whose engine calls all return runs
    to its end.  The answer is [completed], with one result per action, in
    order, and the paths of the captures; the captures are appended to the
    session's in-memory list, so the count of the status endpoint grows by
    their number, while the metadata of the session, every [metadata.json]
    and the clock are as before.  The captures are image files the engine
    writes into the shared directory [screenshots/]: the [page.screenshot]
    calls of the run are exactly those of the captures the answer lists,
    each at [session_<id>_step_<i>.png] for a step [i] of the list. *)
Theorem sequence_completes w session_id s actions :
  sessions w !! session_id = Some s →
  Forall (λ a, action a ≠ "wait_for_screenshot_analysis") actions →
  accepts eng (calls w) session_id (sequence_calls session_id 0 actions)
  = true →
  ∃ w' s' st,
    execute_sequence eng session_id actions w
    = (Return (Completed session_id (length actions)
                 (sequence_results session_id 0 actions)
                 (sequence_captures session_id 0 actions) (clock w)), w')
    ∧ sessions w' = <[session_id := s']> (sessions w)
    ∧ sd_screenshots s'
      = sd_screenshots s ++ sequence_captures session_id 0 actions
    ∧ metadata s' = metadata s
    ∧ (∀ p, metadata_json <$> fs w' !! p = metadata_json <$> fs w !! p)
    ∧ clock w' = clock w
    ∧ calls w'
      = calls w ++ map (pair session_id) (sequence_calls session_id 0 actions)
    ∧ capture_paths (calls w')
      = capture_paths (calls w) ++ sequence_captures session_id 0 actions
    ∧ Forall (λ path, ∃ i, (i < length actions)%nat
                           ∧ path = step_screenshot_path session_id i)
        (sequence_captures session_id 0 actions)
    ∧ get_session_status session_id w' = (Return st, w')
    ∧ screenshots_count st
      = length (sd_screenshots s)
        + length (sequence_captures session_id 0 actions).
Proof.
  intros Hs Hall Hacc.
  assert (Hall' : Forall (λ a, branch_of (action a) ≠ BCheckpoint) actions).
  { eapply Forall_impl; [exact Hall|]. intros a Ha Hb. apply Ha.
    by apply branch_of_checkpoint. }
  destruct (run_actions_completes session_id actions 0 (mkLocals [] []) w s
              Hs Hall' Hacc)
    as (w' & Hrun & Hs' & Hfs' & Hclock' & Hcalls').
  destruct (foldl_captured s (sequence_captures session_id 0 actions))
    as [Hshots Hmeta].
  assert (Hlookup :
    sessions w' !! session_id
    = Some (foldl captured s (sequence_captures session_id 0 actions)))
    by (rewrite Hs'; apply lookup_insert_eq).
  eexists w', _, _.
  rewrite (execute_sequence_unfold eng _ _ _ _ Hs), Hrun.
  cbn [action_results screenshots app].
  rewrite sequence_results_length, Hclock'.
  split; [reflexivity|]. split; [exact Hs'|]. split; [exact Hshots|].
  split; [exact Hmeta|]. split; [intros p; by rewrite Hfs'|].
  split; [reflexivity|]. split; [exact Hcalls'|].
  split; [by rewrite Hcalls', capture_paths_app, capture_paths_sequence|].
  split.
  { eapply Forall_impl; [apply (sequence_captures_named session_id 0)|].
    intros path (j & Hj & ->). exists j. split; [lia|done]. }
  split; [by apply get_session_status_active|].
  cbn [screenshots_count]. by rewrite Hshots, length_app.
Qed.

End SequenceRuns.


(** ** The sweep: what it keeps and what it reports *)

Section SweepReports.
Variable eng : Engine.

Implicit Types (w : World) (session_id p : string)
  (cleaned : list CleanedSession).

(** An iteration for a directory that is not to be archived does nothing. *)
Lemma sweep_one_recent current_time max_age_seconds p cleaned w :
  (∀ d, fs w !! p = Some d → recent current_time max_age_seconds d) →
  sweep_one eng current_time max_age_seconds p cleaned w = (Return cleaned, w).
Proof.
  intros Hrecent. unfold sweep_one, bind at 1, get_world at 1.
  destruct (fs w !! p) as [d|] eqn:Hd; simpl; [|done].
  destruct (metadata_json d) as [| |m] eqn:Hjson; try done.
  specialize (Hrecent d eq_refl m Hjson).
  destruct (current_time - md_last_activity m >? max_age_seconds)%Z eqn:Hcond;
    [|done].
  rewrite Z.gtb_ltb in Hcond. apply Z.ltb_lt in Hcond. lia.
Qed.

(** The move of the sweep either fails, and nothing changes, or succeeds:
    then the source is gone and the destination exists. *)
Lemma archive_move_reports p dst (c0 c1 : list CleanedSession) w :
  p ≠ dst →
  try_except (shutil_move p dst ;;; ret c1) (λ _, ret c0) w = (Return c0, w)
  ∨ ∃ w',
      try_except (shutil_move p dst ;;; ret c1) (λ _, ret c0) w
      = (Return c1, w')
      ∧ is_Some (fs w !! p)
      ∧ fs w' !! p = None
      ∧ is_Some (fs w' !! dst).
Proof.
  intros Hne. unfold try_except, bind, ret, shutil_move.
  destruct (fs w !! p) as [d|] eqn:Hp; [|by left].
  destruct (fs w !! dst) as [d'|] eqn:Hdst.
  - destruct (fs w !! (dst +:+ "/" +:+ basename p)) as [d''|] eqn:Hreal;
      [by left|].
    right. eexists. split; [reflexivity|]. split; [by eauto|]. simpl. split.
    + rewrite lookup_insert_ne, lookup_delete_eq; [done|].
      intros Heq. rewrite Heq in Hreal. congruence.
    + rewrite lookup_insert_ne, lookup_delete_ne; [by rewrite Hdst|done|].
      intros Heq. rewrite Heq in Hreal. congruence.
  - right. eexists. split; [reflexivity|]. split; [by eauto|]. simpl. split.
    + rewrite lookup_insert_ne, lookup_delete_eq; [done|].
      intros Heq. by apply Hne.
    + rewrite lookup_insert_eq. eauto.
Qed.

(** What one iteration adds to [cleaned_sessions] is true of the world after
    it. *)
Lemma sweep_one_reports current_time max_age_seconds p cleaned w cleaned' w' :
  wf w → glob_match p = true →
  sweep_one eng current_time max_age_seconds p cleaned w
  = (Return cleaned', w') →
  cleaned' = cleaned
  ∨ ∃ c,
      cleaned' = cleaned ++ [c]
      ∧ p = session_path (cs_session_id c)
      ∧ reported current_time max_age_seconds w w' c.
Proof.
  intros Hwf Hglob.
  pose proof Hwf as (Hgap & Hmir & Hdisk).
  unfold sweep_one, bind at 1, get_world at 1.
  destruct (fs w !! p) as [d|] eqn:Hd; simpl;
    [|intros [= <- <-]; by left].
  destruct (metadata_json d) as [| |m] eqn:Hjson;
    try (intros [= <- <-]; by left).
  destruct (Hdisk _ _ _ Hd Hjson Hglob) as [Hvalid Hp].
  set (X := md_session_id m) in *.
  destruct (current_time - md_last_activity m >? max_age_seconds)%Z eqn:Hcond;
    [|intros [= <- <-]; by left].
  rewrite Z.gtb_ltb in Hcond. apply Z.ltb_lt in Hcond.
  set (dst := archived_path X (md_last_activity m)).
  set (c := mkCleanedSession X (md_last_activity m) dst).
  assert (Hpdst : p ≠ dst).
  { intros Heq.
    pose proof (glob_match_archived_path X (md_last_activity m)) as Hg.
    fold dst in Hg. rewrite <- Heq in Hg. by rewrite Hglob in Hg. }
  (* the move, from a world [w1] in which [X] is not in the store *)
  assert (Hmove : ∀ w1,
    sessions w1 !! X = None →
    try_except (shutil_move p dst ;;; ret (cleaned ++ [c])) (λ _, ret cleaned)
      w1 = (Return cleaned', w') →
    cleaned' = cleaned
    ∨ ∃ c,
        cleaned' = cleaned ++ [c]
        ∧ p = session_path (cs_session_id c)
        ∧ reported current_time max_age_seconds w w' c).
  { intros w1 Hnone Hrun.
    destruct (archive_move_spec p dst cleaned (cleaned ++ [c]) w1)
      as (c' & w2 & Hrun' & _ & _ & Hs2 & _).
    rewrite Hrun in Hrun'. injection Hrun' as <- <-.
    destruct (archive_move_reports p dst cleaned (cleaned ++ [c]) w1 Hpdst)
      as [Hfail|(w2 & Hok & _ & Hgone & Harch)].
    - rewrite Hrun in Hfail. injection Hfail as -> _. by left.
    - rewrite Hrun in Hok. injection Hok as -> <-. right. exists c.
      split; [done|]. split; [exact Hp|].
      unfold reported. subst c.
      cbn [cs_session_id cs_last_activity archived_to].
      fold X. rewrite <- Hp.
      split; [done|]. split; [lia|]. split; [by eauto|].
      split; [by rewrite Hs2|]. split; [exact Hgone|exact Harch]. }
  destruct (decide (is_Some (sessions w !! X))) as [[s Hs]|Hnone].
  - destruct (close_session_spec eng w X s Hwf Hs)
      as (o & w1 & Hclose & _ & _ & _ & Hret & _).
    destruct o as [[]|e].
    + rewrite (try_except_bind_return _ _ _ _ _ _ Hclose).
      apply Hmove. by apply Hret.
    + rewrite (try_except_bind_raise _ _ _ _ _ _ Hclose).
      intros [= <- <-]. by left.
  - rewrite (try_except_bind_return (ret tt) _ _ w tt w eq_refl).
    apply Hmove. by apply eq_None_not_Some.
Qed.

(** What a later iteration keeps of what an earlier one has reported. *)
Lemma sweep_step_keeps p w1 w2 :
  glob_match p = true → sweep_step p w1 w2 →
  (∀ k, glob_match k = true → fs w1 !! k = None → fs w2 !! k = None)
  ∧ (∀ k d, glob_match k = false → fs w1 !! k = Some d →
            fs w2 !! k = Some d)
  ∧ (∀ session_id, sessions w1 !! session_id = None →
                   sessions w2 !! session_id = None).
Proof.
  intros Hglob (_ & _ & Hdom & Hpnone & Hfs). split_and!.
  - intros k Hk Hnone.
    destruct (decide (k = p)) as [->|Hkp]; [by apply Hpnone|].
    destruct (Hfs k Hkp) as [Hsame|(_ & X & t & r & Hform & _)].
    + by rewrite Hsame.
    + rewrite Hform in Hk. by rewrite glob_match_archived in Hk.
  - intros k d Hk Hsome.
    assert (Hkp : k ≠ p) by (intros ->; by rewrite Hglob in Hk).
    destruct (Hfs k Hkp) as [Hsame|[Hnone _]]; [by rewrite Hsame|].
    by rewrite Hnone in Hsome.
  - exact Hdom.
Qed.

Lemma reported_later current_time max_age_seconds p w w1 w2 c :
  glob_match p = true → sweep_step p w1 w2 →
  reported current_time max_age_seconds w w1 c →
  glob_match (session_path (cs_session_id c)) = true →
  reported current_time max_age_seconds w w2 c.
Proof.
  intros Hglob Hstep (Hto & Hage & Hwas & Hs & Hgone & [d Harch]) Hc.
  destruct (sweep_step_keeps p w1 w2 Hglob Hstep) as (Hnone & Hsome & Hdom).
  split_and!; try done.
  - by apply Hdom.
  - by apply Hnone.
  - exists d. apply Hsome; [|done]. rewrite Hto.
    apply glob_match_archived_path.
Qed.

Lemma reported_earlier current_time max_age_seconds p w w1 w2 c :
  glob_match p = true → sweep_step p w w1 →
  reported current_time max_age_seconds w1 w2 c →
  glob_match (session_path (cs_session_id c)) = true →
  reported current_time max_age_seconds w w2 c.
Proof.
  intros Hglob Hstep (Hto & Hage & Hwas & Hs & Hgone & Harch) Hc.
  destruct (sweep_step_keeps p w w1 Hglob Hstep) as (Hnone & _ & _).
  split_and!; try done.
  destruct (fs w !! session_path (cs_session_id c)) as [d|] eqn:Hd;
    [by eauto|].
  rewrite (Hnone _ Hc Hd) in Hwas. by destruct Hwas.
Qed.

(** The loop of the sweep from a world that satisfies the invariant. *)
Lemma sweep_spec current_time max_age_seconds paths cleaned w :
  wf w →
  Forall (λ p, glob_match p = true) paths →
  ∃ more w',
    sweep eng current_time max_age_seconds paths cleaned w
    = (Return (cleaned ++ more), w')
    ∧ wf w'
    ∧ clock w' = clock w
    ∧ (∀ k d,
         fs w !! k = Some d →
         glob_match k = false ∨ recent current_time max_age_seconds d →
         fs w' !! k = Some d
         ∧ ∀ session_id,
             k = session_path session_id →
             sessions w' !! session_id = sessions w !! session_id)
    ∧ Forall (λ c, reported current_time max_age_seconds w w' c
                   ∧ glob_match (session_path (cs_session_id c)) = true)
        more.
Proof.
  revert cleaned w. induction paths as [|p rest IH]; intros cleaned w Hwf Hall.
  { exists [], w. rewrite app_nil_r. split_and!; try done. }
  apply Forall_cons in Hall as [Hp Hrest].
  destruct (sweep_one_spec eng current_time max_age_seconds p cleaned w Hwf Hp)
    as (cleaned1 & w1 & Hone & Hwf1 & Hstep & _ & _).
  destruct (IH cleaned1 w1 Hwf1 Hrest)
    as (more & w' & Hrun & Hwf' & Hclock' & Hkeep & Hrep).
  pose proof Hstep as (Hclock1 & Hother & _ & _ & Hfs).
  assert (Hreports :
    ∃ more1,
      cleaned1 = cleaned ++ more1
      ∧ Forall (λ c, reported current_time max_age_seconds w w1 c
                     ∧ glob_match (session_path (cs_session_id c)) = true)
          more1).
  { destruct (sweep_one_reports _ _ _ _ _ _ _ Hwf Hp Hone)
      as [->|(c & -> & Hpc & Hc)].
    - exists []. by rewrite app_nil_r.
    - exists [c]. split; [done|]. apply Forall_singleton.
      split; [done|]. by rewrite <- Hpc. }
  destruct Hreports as (more1 & -> & Hrep1).
  exists (more1 ++ more), w'. split.
  { simpl. rewrite (bind_return _ _ _ _ _ Hone), Hrun.
    by rewrite app_assoc. }
  split; [exact Hwf'|]. split; [congruence|]. split.
  - intros k d Hk Hwhy.
    assert (Hk1 : fs w1 !! k = Some d
                  ∧ ∀ sid, k = session_path sid →
                           sessions w1 !! sid = sessions w !! sid).
    { destruct (decide (k = p)) as [->|Hkp].
      - destruct Hwhy as [Hg|Hrecent]; [by rewrite Hp in Hg|].
        rewrite sweep_one_recent in Hone.
        + by injection Hone as _ <-.
        + intros d' Hd'. rewrite Hk in Hd'. by injection Hd' as <-.
      - split.
        + destruct (Hfs k Hkp) as [Hsame|[Hnone _]]; [by rewrite Hsame|].
          by rewrite Hnone in Hk.
        + intros sid ->. by apply Hother. }
    destruct Hk1 as [Hk1 Hs1].
    destruct (Hkeep k d Hk1 Hwhy) as [Hk' Hs'].
    split; [exact Hk'|]. intros sid Hsid. by rewrite Hs', Hs1.
  - apply Forall_app. split.
    + assert (Hlater : ∀ paths' cl wa wb,
        Forall (λ p, glob_match p = true) paths' → wf wa →
        (sweep eng current_time max_age_seconds paths' cl wa).2 = wb →
        ∀ c, reported current_time max_age_seconds w wa c →
             glob_match (session_path (cs_session_id c)) = true →
             reported current_time max_age_seconds w wb c).
      { induction paths' as [|q paths' IHp];
          intros cl wa wb Hall' Hwfa Hrun' c Hc Hg.
        - simpl in Hrun'. by subst wb.
        - apply Forall_cons in Hall' as [Hq Hrest'].
          destruct (sweep_one_spec eng current_time max_age_seconds q cl wa
                      Hwfa Hq)
            as (cl1 & wa1 & Hone' & Hwfa1 & Hstep' & _).
          simpl in Hrun'. rewrite (bind_return _ _ _ _ _ Hone') in Hrun'.
          eapply (IHp cl1 wa1 wb Hrest' Hwfa1 Hrun').
          + exact (reported_later _ _ q w wa wa1 c Hq Hstep' Hc Hg).
          + done. }
      eapply Forall_impl; [exact Hrep1|].
      intros c [Hc Hg]. split; [|done].
      eapply (Hlater rest (cleaned ++ more1) w1 w' Hrest Hwf1); [|done..].
      by rewrite Hrun.
    + eapply Forall_impl; [exact Hrep|].
      intros c [Hc Hg]. split; [|done].
      exact (reported_earlier _ _ p w w1 w' c Hp Hstep Hc Hg).
Qed.

Lemma glob_sessions_only w p : glob_match p = false → p ∉ glob_sessions w.
Proof.
  intros Hp Hin. unfold glob_sessions in Hin.
  apply list_elem_of_filter in Hin as [Hg _]. congruence.
Qed.

(** X16: the sweep archives nothing recent.  In a reachable world, a
    session directory whose [metadata.json] is missing, does not parse, or
    records a last activity no older than [max_age_hours] is the same after
    [POST /api/sessions/cleanup-old], and so is its session in the store,
    whatever the engine does.  The age test is strict: a session exactly
    [max_age_hours] old stays. *)
Theorem sweep_keeps_recent max_age_hours w p d :
  reachable eng w →
  fs w !! p = Some d →
  (∀ m,
     metadata_json d = Json m →
     (clock w - md_last_activity m ≤ max_age_hours * 3600 * 1000000)%Z) →
  ∃ cleaned w',
    cleanup_old_sessions eng max_age_hours w = (Return cleaned, w')
    ∧ fs w' !! p = Some d
    ∧ (∀ session_id,
         p = session_path session_id →
         sessions w' !! session_id = sessions w !! session_id)
    ∧ Forall (λ c, session_path (cs_session_id c) ≠ p) cleaned.
Proof.
  intros Hreach Hd Hrecent.
  pose proof (reachable_wf eng w Hreach) as Hwf.
  destruct (sweep_spec (clock w) (max_age_hours * 3600 * 1000000)
              (glob_sessions w) [] w Hwf (glob_sessions_match w))
    as (more & w' & Hrun & _ & _ & Hkeep & Hrep).
  destruct (Hkeep p d Hd (or_intror Hrecent)) as [Hd' Hs'].
  exists more, w'. split; [exact Hrun|]. split; [exact Hd'|].
  split; [exact Hs'|].
  eapply Forall_impl; [exact Hrep|].
  intros c [(_ & _ & _ & _ & Hgone & _) _] Heq.
  rewrite Heq in Hgone. congruence.
Qed.

(** X17: the sweep touches session directories only.  In a reachable world,
    a directory that is not matched by [sessions/session_*], such as a
    directory below the archive root, is the same after
    [POST /api/sessions/cleanup-old], whatever its age: an archived session
    is never archived again, and never overwritten. *)
Theorem sweep_spares_archive max_age_hours w p d :
  reachable eng w →
  fs w !! p = Some d →
  glob_match p = false →
  ∃ cleaned w',
    cleanup_old_sessions eng max_age_hours w = (Return cleaned, w')
    ∧ fs w' !! p = Some d.
Proof.
  intros Hreach Hd Hglob.
  pose proof (reachable_wf eng w Hreach) as Hwf.
  destruct (sweep_spec (clock w) (max_age_hours * 3600 * 1000000)
              (glob_sessions w) [] w Hwf (glob_sessions_match w))
    as (more & w' & Hrun & _ & _ & Hkeep & _).
  destruct (Hkeep p d Hd (or_introl Hglob)) as [Hd' _].
  exists more, w'. split; [exact Hrun|exact Hd'].
Qed.

(** X18: what the sweep reports is true.  In a reachable world, whatever
    the engine does, [POST /api/sessions/cleanup-old] returns, and for every
    entry of [cleaned_sessions]: the session had a directory and was older
    than [max_age_hours]; it is no longer in the store; its directory is gone
    from the session root; the directory named by [archived_to], the archive
    name made of the session id and the whole seconds of its last activity,
    exists; and the assets endpoint answers 404 for the session. *)
Theorem sweep_reports_archived max_age_hours w :
  reachable eng w →
  ∃ cleaned w',
    cleanup_old_sessions eng max_age_hours w = (Return cleaned, w')
    ∧ clock w' = clock w
    ∧ Forall
        (λ c,
           archived_to c
           = archived_path (cs_session_id c) (cs_last_activity c)
           ∧ (max_age_hours * 3600 * 1000000
              < clock w - cs_last_activity c)%Z
           ∧ is_Some (fs w !! session_path (cs_session_id c))
           ∧ sessions w' !! cs_session_id c = None
           ∧ fs w' !! session_path (cs_session_id c) = None
           ∧ is_Some (fs w' !! archived_to c)
           ∧ get_session_assets (cs_session_id c) w'
             = (Raise (HTTPException 404 "Session not found"), w'))
        cleaned.
Proof.
  intros Hreach.
  pose proof (reachable_wf eng w Hreach) as Hwf.
  destruct (sweep_spec (clock w) (max_age_hours * 3600 * 1000000)
              (glob_sessions w) [] w Hwf (glob_sessions_match w))
    as (more & w' & Hrun & _ & Hclock & _ & Hrep).
  exists more, w'. split; [exact Hrun|]. split; [exact Hclock|].
  eapply Forall_impl; [exact Hrep|].
  intros c [(Hto & Hage & Hwas & Hs & Hgone & Harch) _].
  split_and!; try done.
  by apply get_session_assets_gone.
Qed.

(** X19: [POST /api/sessions/cleanup-old] never raises, in any world and
    whatever the engine does: a failure inside an iteration, be it a release
    call that raises or a move that fails, is swallowed and the loop goes on
    with the next directory.  The response has at most one entry per
    directory the glob finds. *)
Theorem sweep_never_raises max_age_hours w :
  ∃ cleaned w',
    cleanup_old_sessions eng max_age_hours w = (Return cleaned, w')
    ∧ (length cleaned ≤ length (glob_sessions w))%nat.
Proof.
  unfold cleanup_old_sessions, bind at 1, get_world at 1.
  generalize (clock w) (max_age_hours * 3600 * 1000000)%Z.
  intros current_time max_age_seconds.
  cut (∀ paths cleaned w0,
    ∃ more w',
      sweep eng current_time max_age_seconds paths cleaned w0
      = (Return (cleaned ++ more), w')
      ∧ (length more ≤ length paths)%nat).
  { intros Hgen. destruct (Hgen (glob_sessions w) [] w) as (more & w' & H & ?).
    by exists more, w'. }
  induction paths as [|p rest IH]; intros cleaned w0.
  { exists [], w0. by rewrite app_nil_r. }
  assert (Hone : ∃ more1 w1,
    sweep_one eng current_time max_age_seconds p cleaned w0
    = (Return (cleaned ++ more1), w1) ∧ (length more1 ≤ 1)%nat).
  { assert (Hsame : ∀ w1, ∃ more1 w1',
      (Return cleaned, w1) = (Return (cleaned ++ more1), w1')
      ∧ (length more1 ≤ 1)%nat).
    { intros w1. exists [], w1. rewrite app_nil_r. split; [done|simpl; lia]. }
    unfold sweep_one, bind at 1, get_world at 1.
    destruct (metadata_json <$> fs w0 !! p) as [[| |m]|]; try apply Hsame.
    unfold try_except.
    destruct (current_time - md_last_activity m >? max_age_seconds)%Z;
      [|apply Hsame].
    unfold bind at 1.
    destruct ((if decide (is_Some (sessions w0 !! md_session_id m))
               then SessionManager.close_session eng (md_session_id m)
               else ret tt) w0) as [[[]|e] w1]; [|apply Hsame].
    unfold bind, ret.
    destruct (shutil_move p _ w1) as [[[]|e] w2]; [|apply Hsame].
    eexists [_], w2. split; [reflexivity|simpl; lia]. }
  destruct Hone as (more1 & w1 & Hone & Hlen1).
  destruct (IH (cleaned ++ more1) w1) as (more & w' & Hrun & Hlen).
  exists (more1 ++ more), w'. split.
  - simpl. rewrite (bind_return _ _ _ _ _ Hone), Hrun. by rewrite app_assoc.
  - rewrite length_app. simpl. lia.
Qed.

(** ** The sweep on the Playwright library *)

(** One iteration keeps every session of the store: the close of an active
    session raises at its last release call, before the session is deleted,
    and the [except] clause of the loop swallows the exception. *)
Lemma sweep_one_keeps_store current_time max_age_seconds p cleaned w
    session_id :
  aexit_raises eng → wf w → glob_match p = true →
  is_Some (sessions w !! session_id) →
  is_Some (sessions (sweep_one eng current_time max_age_seconds p cleaned
                       w).2 !! session_id).
Proof.
  intros Hexit Hwf Hglob [s Hs].
  destruct (sweep_one_spec eng current_time max_age_seconds p cleaned w Hwf
              Hglob) as (cleaned' & w' & Hrun & _ & (_ & Hother & _) & _).
  destruct (decide (session_path session_id = p)) as [<-|Hne].
  2: { rewrite Hrun. simpl. rewrite Hother by done. by exists s. }
  clear Hrun Hother.
  destruct (proj1 (proj2 Hwf) _ _ Hs) as (_ & Hid & _ & d & Hd & Hjson).
  unfold sweep_one, bind at 1, get_world at 1. rewrite Hd. simpl.
  rewrite Hjson, Hid.
  destruct (current_time - md_last_activity (metadata s)
            >? max_age_seconds)%Z.
  2: { simpl. by exists s. }
  destruct (decide (is_Some (sessions w !! session_id))) as [_|Hno];
    [|by destruct Hno; exists s].
  destruct (manager_close_raises eng w session_id s d Hwf Hs Hd
              (aexit_raises_refuses eng (calls w) session_id Hexit))
    as (msg & w1 & Hclose & Hs1 & _).
  rewrite (try_except_bind_raise _ _ _ _ _ _ Hclose). simpl.
  rewrite Hs1, lookup_insert_eq. by eexists.
Qed.

Lemma sweep_keeps_store current_time max_age_seconds paths cleaned w
    session_id :
  aexit_raises eng → wf w → Forall (λ p, glob_match p = true) paths →
  is_Some (sessions w !! session_id) →
  is_Some (sessions (sweep eng current_time max_age_seconds paths cleaned
                       w).2 !! session_id).
Proof.
  intros Hexit. revert cleaned w.
  induction paths as [|p rest IH]; intros cleaned w Hwf Hall Hs; [done|].
  apply Forall_cons in Hall as [Hp Hrest]. simpl. unfold bind.
  pose proof (sweep_one_keeps_store current_time max_age_seconds p cleaned w
                session_id Hexit Hwf Hp Hs) as Hs1.
  pose proof (sweep_one_wf eng current_time max_age_seconds p cleaned w Hwf
                Hp) as Hwf1.
  destruct (sweep_one eng current_time max_age_seconds p cleaned w)
    as [[c1|e] w1]; simpl in *; [by apply IH|done].
Qed.

(** C8 on the code.  In a world the service reaches, with the release of
    the Playwright library (the last release call raises, see
    [aexit_raises]), the sweep never archives an active session, whatever
    the maximum age, 0 included, and however old the session: the sweep
    returns, every session of the store is still in the store, its
    directory is still below the session root, and the response does not
    list it.  The store is empty after the sweep only if it was empty
    before. *)
Theorem sweep_never_archives_active max_age_hours w :
  reachable eng w →
  aexit_raises eng →
  ∃ cleaned w',
    cleanup_old_sessions eng max_age_hours w = (Return cleaned, w')
    ∧ (sessions w' = ∅ → sessions w = ∅)
    ∧ ∀ session_id s,
        sessions w !! session_id = Some s →
        is_Some (sessions w' !! session_id)
        ∧ is_Some (fs w' !! session_path session_id)
        ∧ Forall (λ c, cs_session_id c ≠ session_id) cleaned.
Proof.
  intros Hreach Hexit.
  pose proof (reachable_wf eng w Hreach) as Hwf.
  destruct (sweep_spec (clock w) (max_age_hours * 3600 * 1000000)
              (glob_sessions w) [] w Hwf (glob_sessions_match w))
    as (more & w' & Hrun & Hwf' & _ & _ & Hrep).
  assert (Hkeep : ∀ session_id s,
    sessions w !! session_id = Some s → is_Some (sessions w' !! session_id)).
  { intros session_id s Hs.
    pose proof (sweep_keeps_store (clock w) (max_age_hours * 3600 * 1000000)
                  (glob_sessions w) [] w session_id Hexit Hwf
                  (glob_sessions_match w) (ex_intro _ s Hs)) as Hs'.
    by rewrite Hrun in Hs'. }
  exists more, w'. split; [exact Hrun|]. split.
  { intros Hempty. apply map_empty. intros session_id.
    destruct (sessions w !! session_id) as [s|] eqn:Hs; [|done].
    destruct (Hkeep _ _ Hs) as [s' Hs']. by rewrite Hempty in Hs'. }
  intros session_id s Hs.
  destruct (Hkeep _ _ Hs) as [s' Hs'].
  split; [by exists s'|]. split.
  { destruct (proj1 (proj2 Hwf') _ _ Hs') as (_ & _ & _ & d & Hd & _).
    by exists d. }
  eapply Forall_impl; [exact Hrep|].
  intros c [(_ & _ & _ & Hnone & _) _] Heq. rewrite Heq in Hnone.
  by rewrite Hnone in Hs'.
Qed.

End SweepReports.


(** ** The assets endpoint, the listing, and the isolation of sessions *)

Section Isolation.
Variable eng : Engine.

Implicit Types (w : World) (session_id : string) (s : SessionData).

(** X20: the assets endpoint does not depend on the store.  For a session
    of a reachable store it serves the metadata held in memory; after a
    restart of the process, which empties the store, it serves the same
    response from the [metadata.json] of the session. *)
Theorem assets_survive_restart w session_id s :
  reachable eng w →
  sessions w !! session_id = Some s →
  get_session_assets session_id w
  = (Return (assets_of session_id (metadata s) (clock w)), w)
  ∧ get_session_assets session_id (run_op eng OpRestart w)
    = (Return (assets_of session_id (metadata s) (clock w)),
       run_op eng OpRestart w).
Proof.
  intros Hreach Hs.
  destruct (reachable_wf eng w Hreach) as (_ & Hmir & _).
  destruct (Hmir _ _ Hs) as (_ & _ & _ & d & Hd & Hjson).
  split; [by apply get_session_assets_active|].
  by apply (get_session_assets_closed (run_op eng OpRestart w) session_id d).
Qed.

(** X21: [GET /api/sessions] lists the store: one summary per session, none
    twice, each built from the metadata of its session, and
    [total_sessions] is the number of sessions; the world is not changed. *)
Theorem list_active_sessions_lists_store w :
  ∃ r,
    list_active_sessions w = (Return r, w)
    ∧ total_sessions r = size (sessions w)
    ∧ total_sessions r = length (active_sessions r)
    ∧ NoDup (su_session_id <$> active_sessions r)
    ∧ ∀ item,
        item ∈ active_sessions r ↔
        ∃ s, sessions w !! su_session_id item = Some s
             ∧ item = session_summary (su_session_id item, s).
Proof.
  eexists. split; [reflexivity|]. cbn [total_sessions active_sessions].
  split; [by rewrite length_fmap, length_map_to_list|].
  split; [done|]. split.
  - rewrite <- list_fmap_compose.
    apply (NoDup_fst_map_to_list (sessions w)).
  - intros item. rewrite list_elem_of_fmap. split.
    + intros ([sid s] & -> & Hin%elem_of_map_to_list). by exists s.
    + intros (s & Hs & Hitem). exists (su_session_id item, s).
      split; [done|]. by apply elem_of_map_to_list.
Qed.

Lemma touches_only_bind {A B} session_id (c : M A) (k : A → M B) w :
  touches_only session_id w (c w).2 →
  (∀ a w1, touches_only session_id w1 (k a w1).2) →
  touches_only session_id w (bind c k w).2.
Proof.
  intros Hc Hk. unfold bind.
  destruct (c w) as [[a|e] w1]; simpl in *; [|done].
  eapply touches_only_trans; [exact Hc|apply Hk].
Qed.

Lemma touches_only_engine_call session_id c w :
  touches_only session_id w (SessionManager.engine_call eng session_id c w).2.
Proof.
  unfold SessionManager.engine_call.
  by destruct (eng (calls w) session_id c).
Qed.

Lemma touches_only_append_screenshot session_id path w :
  touches_only session_id w (append_session_screenshot session_id path w).2.
Proof.
  split_and!; simpl; [|done..].
  intros sid Hne. by rewrite lookup_alter_ne.
Qed.

Lemma touches_only_step session_id i a loc w :
  touches_only session_id w (step eng session_id i a loc w).2.
Proof.
  apply touches_only_bind.
  - unfold apply_action.
    destruct (branch_of (action a)); try apply touches_only_refl;
      (apply touches_only_bind;
       [apply touches_only_engine_call|intros; apply touches_only_refl]).
  - intros r w1. destruct (default false (screenshot_after a));
      [|apply touches_only_refl].
    apply touches_only_bind; [apply touches_only_engine_call|].
    intros _ w2. apply touches_only_bind;
      [apply touches_only_append_screenshot|].
    intros; apply touches_only_refl.
Qed.

Lemma touches_only_checkpoint session_id i a loc w :
  touches_only session_id w (checkpoint eng session_id i a loc w).2.
Proof.
  apply touches_only_bind; [apply touches_only_engine_call|].
  intros _ w2. apply touches_only_bind;
    [apply touches_only_append_screenshot|].
  intros; apply touches_only_refl.
Qed.

Lemma touches_only_run_actions session_id actions i loc w :
  touches_only session_id w (run_actions eng session_id i actions loc w).2.
Proof.
  revert i loc w. induction actions as [|a rest IH]; intros i loc w;
    [apply touches_only_refl|].
  simpl.
  assert (Hstep :
    touches_only session_id w
      (match step eng session_id i a loc w with
       | (Return loc', w') => run_actions eng session_id (S i) rest loc' w'
       | (Raise e, w') => (Failed e, loc, w')
       end).2).
  { pose proof (touches_only_step session_id i a loc w) as Hs.
    destruct (step eng session_id i a loc w) as [[loc'|e] w1]; simpl in *;
      [|done].
    eapply touches_only_trans; [exact Hs|apply IH]. }
  destruct (branch_of (action a)); try exact Hstep.
  pose proof (touches_only_checkpoint session_id i a loc w) as Hc.
  by destruct (checkpoint eng session_id i a loc w) as [[[p loc']|e] w1].
Qed.

Lemma touches_only_execute_sequence session_id actions w :
  touches_only session_id w (execute_sequence eng session_id actions w).2.
Proof.
  unfold execute_sequence, bind at 1, SessionManager.get_session.
  destruct (sessions w !! session_id) as [s|]; [|apply touches_only_refl].
  pose proof (touches_only_run_actions session_id actions 0 (mkLocals [] []) w)
    as Hrun.
  destruct (run_actions eng session_id 0 actions (mkLocals [] []) w)
    as [[[| |e] loc] w1]; simpl in *; try done.
  eapply touches_only_trans; [exact Hrun|].
  apply touches_only_bind; [apply touches_only_engine_call|].
  intros; apply touches_only_refl.
Qed.

Lemma touches_only_add_asset w kind session_id action description url :
  wf w →
  touches_only session_id w
    (add_asset kind session_id action description url w).2.
Proof.
  intros Hwf. destruct (sessions w !! session_id) as [s|] eqn:Hs.
  - destruct (add_asset_spec w kind session_id action description url s
                Hwf Hs) as (path & w' & -> & _ & Htouch & _). exact Htouch.
  - rewrite (add_asset_absent _ _ _ _ _ _ Hs). apply touches_only_refl.
Qed.

Lemma touches_only_manager_close w session_id :
  wf w →
  touches_only session_id w (SessionManager.close_session eng session_id w).2.
Proof.
  intros Hwf. destruct (sessions w !! session_id) as [s|] eqn:Hs.
  - destruct (close_session_spec eng w session_id s Hwf Hs)
      as (o & w' & -> & _ & Htouch & _). exact Htouch.
  - rewrite (manager_close_absent eng _ _ Hs). apply touches_only_refl.
Qed.

(** *** The engine calls of a request *)

Lemma calls_only_refl session_id w : calls_only session_id w w.
Proof. exists []. by rewrite app_nil_r. Qed.

Lemma calls_only_same session_id w w' :
  calls w' = calls w → calls_only session_id w w'.
Proof. intros Hc. exists []. by rewrite app_nil_r. Qed.

Lemma calls_only_trans session_id w1 w2 w3 :
  calls_only session_id w1 w2 → calls_only session_id w2 w3 →
  calls_only session_id w1 w3.
Proof.
  intros (new1 & H1 & Hall1) (new2 & H2 & Hall2). exists (new1 ++ new2).
  rewrite H2, H1, app_assoc. split; [done|by apply Forall_app].
Qed.

Lemma calls_only_bind {A B} session_id (c : M A) (k : A → M B) w :
  calls_only session_id w (c w).2 →
  (∀ a w1, calls_only session_id w1 (k a w1).2) →
  calls_only session_id w (bind c k w).2.
Proof.
  intros Hc Hk. unfold bind.
  destruct (c w) as [[a|e] w1]; simpl in *; [|done].
  eapply calls_only_trans; [exact Hc|apply Hk].
Qed.

Lemma calls_only_engine_call session_id c w :
  (∀ path, c = Screenshot path → session_capture session_id path) →
  calls_only session_id w (SessionManager.engine_call eng session_id c w).2.
Proof.
  intros Hc. exists [(session_id, c)]. split.
  - unfold SessionManager.engine_call.
    by destruct (eng (calls w) session_id c).
  - constructor; [by split|constructor].
Qed.

Lemma step_capture_named session_id i :
  session_capture session_id (step_screenshot_path session_id i).
Proof. right. by exists ("step_" +:+ pretty i +:+ ".png"). Qed.

Lemma analysis_capture_named session_id i :
  session_capture session_id (analysis_screenshot_path session_id i).
Proof. right. by exists ("analysis_" +:+ pretty i +:+ ".png"). Qed.

Lemma error_capture_named session_id :
  session_capture session_id (error_screenshot_path session_id).
Proof. right. by exists "error.png". Qed.

Lemma calls_only_step session_id i a loc w :
  calls_only session_id w (step eng session_id i a loc w).2.
Proof.
  apply calls_only_bind.
  - unfold apply_action.
    destruct (branch_of (action a)); try apply calls_only_refl;
      (apply calls_only_bind;
       [by apply calls_only_engine_call|intros; apply calls_only_refl]).
  - intros r w1. destruct (default false (screenshot_after a));
      [|apply calls_only_refl].
    apply calls_only_bind.
    { apply calls_only_engine_call. intros path [= <-].
      apply step_capture_named. }
    intros _ w2. apply calls_only_bind; [by apply calls_only_same|].
    intros; apply calls_only_refl.
Qed.

Lemma calls_only_checkpoint session_id i a loc w :
  calls_only session_id w (checkpoint eng session_id i a loc w).2.
Proof.
  apply calls_only_bind.
  { apply calls_only_engine_call. intros path [= <-].
    apply analysis_capture_named. }
  intros _ w2. apply calls_only_bind; [by apply calls_only_same|].
  intros; apply calls_only_refl.
Qed.

Lemma calls_only_run_actions session_id actions i loc w :
  calls_only session_id w (run_actions eng session_id i actions loc w).2.
Proof.
  revert i loc w. induction actions as [|a rest IH]; intros i loc w;
    [apply calls_only_refl|].
  simpl.
  assert (Hstep :
    calls_only session_id w
      (match step eng session_id i a loc w with
       | (Return loc', w') => run_actions eng session_id (S i) rest loc' w'
       | (Raise e, w') => (Failed e, loc, w')
       end).2).
  { pose proof (calls_only_step session_id i a loc w) as Hs.
    destruct (step eng session_id i a loc w) as [[loc'|e] w1]; simpl in *;
      [|done].
    eapply calls_only_trans; [exact Hs|apply IH]. }
  destruct (branch_of (action a)); try exact Hstep.
  pose proof (calls_only_checkpoint session_id i a loc w) as Hc.
  by destruct (checkpoint eng session_id i a loc w) as [[[p loc']|e] w1].
Qed.

Lemma calls_only_execute_sequence session_id actions w :
  calls_only session_id w (execute_sequence eng session_id actions w).2.
Proof.
  unfold execute_sequence, bind at 1, SessionManager.get_session.
  destruct (sessions w !! session_id) as [s|]; [|apply calls_only_refl].
  pose proof (calls_only_run_actions session_id actions 0 (mkLocals [] []) w)
    as Hrun.
  destruct (run_actions eng session_id 0 actions (mkLocals [] []) w)
    as [[[| |e] loc] w1]; simpl in *; try done.
  eapply calls_only_trans; [exact Hrun|].
  apply calls_only_bind.
  { apply calls_only_engine_call. intros path [= <-].
    apply error_capture_named. }
  intros; apply calls_only_refl.
Qed.

Lemma calls_only_add_asset w kind session_id action description url :
  wf w →
  calls_only session_id w
    (add_asset kind session_id action description url w).2.
Proof.
  intros Hwf. destruct (sessions w !! session_id) as [s|] eqn:Hs.
  - destruct (add_asset_spec w kind session_id action description url s
                Hwf Hs) as (path & w' & -> & _ & _ & _ & Hcalls).
    by apply calls_only_same.
  - rewrite (add_asset_absent _ _ _ _ _ _ Hs). apply calls_only_refl.
Qed.

Lemma calls_only_manager_close w session_id :
  wf w →
  calls_only session_id w (SessionManager.close_session eng session_id w).2.
Proof.
  intros Hwf. destruct (sessions w !! session_id) as [s|] eqn:Hs.
  - destruct (proj1 (proj2 Hwf) _ _ Hs) as (_ & _ & _ & d & Hd & _).
    destruct (manager_close_run eng w session_id s d Hwf Hs Hd)
      as (w2 & -> & _ & _ & Hcalls & _).
    eapply calls_only_trans; [by apply (calls_only_same _ w w2)|].
    unfold teardown_calls. cbn [foldr].
    repeat (apply calls_only_bind;
            [by apply calls_only_engine_call|intros _ ?]).
    by apply calls_only_same.
  - rewrite (manager_close_absent eng _ _ Hs). apply calls_only_refl.
Qed.

(** The manual screenshot is written inside the session directory. *)
Lemma calls_only_take_screenshot w session_id :
  wf w →
  calls_only session_id w (take_screenshot eng session_id w).2.
Proof.
  intros Hwf.
  unfold take_screenshot, bind at 1, SessionManager.get_session.
  destruct (sessions w !! session_id) as [s|] eqn:Hs;
    [|apply calls_only_refl].
  destruct (proj1 (proj2 Hwf) _ _ Hs) as (_ & _ & Hdir & d & Hd & _).
  pose proof (add_asset_run w Screenshots session_id "manual" "screenshot" ""
                s d Hs Hd) as Hadd.
  change (SessionManager.add_screenshot session_id "manual" "screenshot" "")
    with (add_asset Screenshots session_id "manual" "screenshot" "").
  rewrite (bind_return _ _ _ _ _ Hadd).
  match goal with
  | |- calls_only _ _ (_ ?w1).2 =>
      apply (calls_only_trans _ w w1); [by apply calls_only_same|]
  end.
  apply calls_only_bind; [|intros; apply calls_only_refl].
  apply calls_only_engine_call. intros path [= <-]. left.
  unfold new_entry. cbn [filepath]. rewrite Hdir. by eexists.
Qed.

(** Two generated ids never share the name of a capture. *)
Lemma session_capture_inj session_id1 session_id2 path :
  valid_id session_id1 → valid_id session_id2 →
  session_capture session_id1 path → session_capture session_id2 path →
  session_id1 = session_id2.
Proof.
  intros Hv1 Hv2 [[r1 ->]|[r1 ->]] [[r2 Heq]|[r2 Heq]];
    unfold session_path in Heq; rewrite ?string_app_assoc in Heq.
  - do 2 apply (inj (String.append _)) in Heq.
    eapply string_app_inj_length; [|exact Heq]. by rewrite !valid_id_length.
  - apply (inj (String.append _)) in Heq. discriminate.
  - apply (inj (String.append _)) in Heq. discriminate.
  - do 2 apply (inj (String.append _)) in Heq.
    eapply string_app_inj_length; [|exact Heq]. by rewrite !valid_id_length.
Qed.

(** X22: the requests of a session are isolated from the other sessions.
    In a reachable world, whatever the engine does, a recorded asset, a
    manual screenshot, an action sequence, a close and a cleanup of one
    session change no other session of the store, no session directory
    ([metadata.json] and [videos/]) but that of the session, and not the
    clock.  Every engine call they issue is a call of that session, and
    every image file they have the engine write is named after the session:
    it lies inside the session directory, or it is a file
    [session_<id>_...] of the shared directory [screenshots/], where the
    captures of a sequence go.  Two generated ids never share such a
    name. *)
Theorem session_requests_are_isolated w session_id :
  reachable eng w →
  (∀ kind action description url,
     touches_only session_id w
       (add_asset kind session_id action description url w).2
     ∧ calls_only session_id w
         (add_asset kind session_id action description url w).2)
  ∧ (touches_only session_id w (take_screenshot eng session_id w).2
     ∧ calls_only session_id w (take_screenshot eng session_id w).2)
  ∧ (∀ actions,
       touches_only session_id w
         (execute_sequence eng session_id actions w).2
       ∧ calls_only session_id w
           (execute_sequence eng session_id actions w).2)
  ∧ (touches_only session_id w (close_session eng session_id w).2
     ∧ calls_only session_id w (close_session eng session_id w).2)
  ∧ (touches_only session_id w (cleanup_session eng session_id w).2
     ∧ calls_only session_id w (cleanup_session eng session_id w).2)
  ∧ ∀ session_id' path,
      valid_id session_id → valid_id session_id' →
      session_capture session_id path → session_capture session_id' path →
      session_id' = session_id.
Proof.
  intros Hreach. pose proof (reachable_wf eng w Hreach) as Hwf.
  split.
  { intros. split;
      [by apply touches_only_add_asset|by apply calls_only_add_asset]. }
  split; [split|].
  { unfold take_screenshot, bind at 1, SessionManager.get_session.
    destruct (sessions w !! session_id) as [s|]; [|apply touches_only_refl].
    apply touches_only_bind.
    + by apply (touches_only_add_asset w Screenshots session_id "manual"
                  "screenshot" "").
    + intros path w1. apply touches_only_bind;
        [apply touches_only_engine_call|].
      intros; apply touches_only_refl. }
  { by apply calls_only_take_screenshot. }
  split.
  { intros actions. split;
      [apply touches_only_execute_sequence
      |apply calls_only_execute_sequence]. }
  split; [split|].
  { unfold close_session, bind at 1, SessionManager.get_session.
    destruct (sessions w !! session_id) as [s|]; [|apply touches_only_refl].
    apply touches_only_bind; [by apply touches_only_manager_close|].
    intros; apply touches_only_refl. }
  { unfold close_session, bind at 1, SessionManager.get_session.
    destruct (sessions w !! session_id) as [s|]; [|apply calls_only_refl].
    apply calls_only_bind; [by apply calls_only_manager_close|].
    intros; apply calls_only_refl. }
  split; [split|].
  { unfold cleanup_session, bind at 1, get_world at 1.
    apply touches_only_bind.
    + case_decide; [by apply touches_only_manager_close
                   |apply touches_only_refl].
    + intros _ w1. unfold bind at 1, get_world at 1.
      destruct (fs w1 !! session_path session_id);
        [|apply touches_only_refl].
      unfold bind, modify, ret. split_and!; simpl; [done| |done].
      intros p Hp. by rewrite lookup_delete_ne. }
  { unfold cleanup_session, bind at 1, get_world at 1.
    apply calls_only_bind.
    + case_decide; [by apply calls_only_manager_close
                   |apply calls_only_refl].
    + intros _ w1. unfold bind at 1, get_world at 1.
      destruct (fs w1 !! session_path session_id);
        [|apply calls_only_refl].
      by apply calls_only_same. }
  intros session_id' path Hv Hv' Hc Hc'.
  by apply (session_capture_inj session_id' session_id path).
Qed.

End Isolation.


(** ** The properties on the example worlds *)

Lemma add_asset_records_witness :
  ∃ session out w',
    sessions one_session !! "abc12345" = Some session
    ∧ add_asset Traces "abc12345" "" "interaction trace" "" one_session
      = (Return out, w')
    ∧ ∃ entry session' dir',
        out = Some (filepath entry)
        ∧ sequence entry = length (md_assets Traces (metadata session)) + 1
        ∧ sessions w' = <["abc12345" := session']> (sessions one_session)
        ∧ md_assets Traces (metadata session')
          = md_assets Traces (metadata session) ++ [entry]
        ∧ (∀ kind', kind' ≠ Traces →
             md_assets kind' (metadata session')
             = md_assets kind' (metadata session))
        ∧ md_last_activity (metadata session') = clock one_session
        ∧ md_total_actions (metadata session')
          = md_total_actions (metadata session) + action_bump Traces
        ∧ sd_last_activity session' = sd_last_activity session
        ∧ fs w' !! session_path "abc12345" = Some dir'
        ∧ metadata_json dir' = Json (metadata session').
Proof.
  destruct (sessions one_session !! "abc12345") as [session|] eqn:Hs;
    [|exfalso; vm_compute in Hs; discriminate].
  destruct (add_asset Traces "abc12345" "" "interaction trace" "" one_session)
    as [[out|e] w'] eqn:Hadd; [|exfalso; vm_compute in Hadd; discriminate].
  exists session, out, w'. split; [reflexivity|]. split; [reflexivity|].
  exact (add_asset_records _ _ _ _ _ _ _ _ _ Hs Hadd).
Defined.

(** C6 as stated fails for videos: a successful [add_video] on the session of
    [one_session] returns the generated path and leaves [total_actions] at
    0. *)
Lemma add_video_keeps_total_actions :
  ∃ session w' session',
    sessions one_session !! "abc12345" = Some session
    ∧ add_asset Videos "abc12345" "" "session_recording" "" one_session
      = (Return (Some (session_path "abc12345"
                       +:+ "/videos/001_session_recording.webm")), w')
    ∧ sessions w' !! "abc12345" = Some session'
    ∧ md_total_actions (metadata session) = 0
    ∧ md_total_actions (metadata session') = 0.
Proof.
  destruct (sessions one_session !! "abc12345") as [session|] eqn:Hs;
    [|exfalso; vm_compute in Hs; discriminate].
  destruct (add_asset Videos "abc12345" "" "session_recording" "" one_session)
    as [out w'] eqn:Hadd.
  destruct (sessions w' !! "abc12345") as [session'|] eqn:Hs';
    [|exfalso; vm_compute in Hadd; injection Hadd as _ <-;
      vm_compute in Hs'; discriminate].
  exists session, w', session'.
  vm_compute in Hs. injection Hs as <-.
  vm_compute in Hadd. injection Hadd as <- <-.
  vm_compute in Hs'. injection Hs' as <-.
  split_and!; reflexivity.
Qed.

Lemma checkpoint_pauses_witness :
  ∃ session,
    sessions one_session !! "abc12345" = Some session
    ∧ [goto_example; checkpoint_example; click_example] !! 1
      = Some checkpoint_example
    ∧ ∃ results w',
        execute_sequence healthy_engine "abc12345"
          [goto_example; checkpoint_example; click_example] one_session
        = (Return (PausedForAnalysis "abc12345" 1
                     (analysis_screenshot_path "abc12345" 1)
                     [click_example] results), w')
        ∧ length results = 2.
Proof.
  destruct (sessions one_session !! "abc12345") as [session|] eqn:Hs;
    [|exfalso; vm_compute in Hs; discriminate].
  exists session. split; [reflexivity|]. split; [reflexivity|].
  assert (Hfirst : ∀ j a, j < 1 →
            [goto_example; checkpoint_example; click_example] !! j = Some a →
            action a ≠ "wait_for_screenshot_analysis").
  { intros [|j] a Hj; [|lia]. intros [= <-]. discriminate. }
  destruct (checkpoint_pauses healthy_engine one_session "abc12345" session
              [goto_example; checkpoint_example; click_example] 1
              checkpoint_example Hs eq_refl eq_refl Hfirst eq_refl)
    as (results & w' & Heq & _ & Hlen & _).
  exists results, w'. split; [exact Heq|exact Hlen].
Defined.

(** C1 as stated fails when an action before the checkpoint raises: with an
    engine on which navigation fails, a list whose first checkpoint is at
    index 1 gets an error response with no step result. *)
Lemma failing_step_before_checkpoint :
  ∃ session w',
    sessions one_session !! "abc12345" = Some session
    ∧ [goto_example; checkpoint_example] !! 1 = Some checkpoint_example
    ∧ action checkpoint_example = "wait_for_screenshot_analysis"
    ∧ action goto_example ≠ "wait_for_screenshot_analysis"
    ∧ execute_sequence offline_engine "abc12345"
        [goto_example; checkpoint_example] one_session
      = (Return (SequenceError "abc12345" "net::ERR_INTERNET_DISCONNECTED"
                   (error_screenshot_path "abc12345") [] 1700000000000000),
         w').
Proof.
  destruct (sessions one_session !! "abc12345") as [session|] eqn:Hs;
    [|exfalso; vm_compute in Hs; discriminate].
  destruct (execute_sequence offline_engine "abc12345"
              [goto_example; checkpoint_example] one_session)
    as [out w'] eqn:Hrun.
  exists session, w'.
  vm_compute in Hrun. injection Hrun as <- <-.
  split_and!; try reflexivity. discriminate.
Qed.

Lemma action_failure_reported_witness :
  ∃ session o w' session',
    sessions one_session !! "abc12345" = Some session
    ∧ action_call goto_example
      = Some (Goto (Some "https://example.com") (Some 5000%Z))
    ∧ execute_sequence offline_engine "abc12345"
        ([hover_example] ++ goto_example :: [click_example]) one_session
      = (o, w')
    ∧ sessions w' !! "abc12345" = Some session'
    ∧ metadata session' = metadata session
    ∧ o = Return
            (SequenceError "abc12345" "net::ERR_INTERNET_DISCONNECTED"
               (error_screenshot_path "abc12345")
               (sequence_results "abc12345" 0 [hover_example])
               (clock one_session)).
Proof.
  destruct (sessions one_session !! "abc12345") as [session|] eqn:Hs;
    [|exfalso; vm_compute in Hs; discriminate].
  assert (Hpre : Forall (λ a, branch_of (action a) ≠ BCheckpoint)
                   [hover_example]).
  { repeat constructor. discriminate. }
  destruct (action_failure_reported offline_engine one_session "abc12345"
              session [hover_example] goto_example [click_example]
              (Goto (Some "https://example.com") (Some 5000%Z))
              "net::ERR_INTERNET_DISCONNECTED"
              Hs Hpre eq_refl eq_refl eq_refl)
    as (o & w' & session' & Hrun & _ & Hs' & Hmeta & _ & Hresp).
  destruct (Hresp eq_refl) as (response & Ho & Hresponse & _).
  exists session, o, w', session'.
  split_and!; [reflexivity|reflexivity|exact Hrun|exact Hs'|exact Hmeta|].
  by rewrite Ho, Hresponse.
Defined.


Lemma one_session_reachable : reachable healthy_engine one_session.
Proof.
  exact (reachable_step healthy_engine (initial 1700000000000000)
           (OpCreateSession example_uuid "chromium" true 1280 720 false)
           (reachable_initial healthy_engine 1700000000000000)).
Qed.

Lemma sequence_numbers_gapless_witness :
  ∃ session,
    reachable healthy_engine one_session
    ∧ sessions one_session !! "abc12345" = Some session
    ∧ gapless (md_assets Screenshots (metadata session))
    ∧ md_screenshots (metadata session) = [].
Proof.
  destruct (sessions one_session !! "abc12345") as [session|] eqn:Hs;
    [|exfalso; vm_compute in Hs; discriminate].
  exists session.
  split; [exact one_session_reachable|]. split; [reflexivity|].
  split.
  - exact (proj1 (sequence_numbers_gapless healthy_engine one_session
                    "abc12345" session Screenshots one_session_reachable Hs)).
  - vm_compute in Hs. injection Hs as <-. reflexivity.
Defined.

Lemma next_sequence_number_from_store_witness :
  reachable healthy_engine one_session
  ∧ SessionManager._get_next_sequence_number one_session "deadbeef" Traces = 1.
Proof.
  split; [exact one_session_reachable|].
  apply (proj2 (next_sequence_number_from_store healthy_engine one_session
                  "deadbeef" Traces one_session_reachable)).
  reflexivity.
Defined.

(** C3 as stated fails for a session that is no longer in the store: in
    [closed_session] the metadata file of [abc12345] records the screenshots
    1 and 2, and the next sequence number is 1 again. *)
Lemma next_sequence_number_resets_when_absent :
  ∃ d m,
    sessions closed_session !! "abc12345" = None
    ∧ fs closed_session !! session_path "abc12345" = Some d
    ∧ metadata_json d = Json m
    ∧ map sequence (md_screenshots m) = [1; 2]
    ∧ SessionManager._get_next_sequence_number closed_session "abc12345"
        Screenshots = 1.
Proof.
  destruct (fs closed_session !! session_path "abc12345") as [d|] eqn:Hd;
    [|exfalso; vm_compute in Hd; discriminate].
  destruct (metadata_json d) as [| |m] eqn:Hm;
    try (exfalso; vm_compute in Hd; injection Hd as <-; discriminate).
  exists d, m. vm_compute in Hd. injection Hd as <-. injection Hm as <-.
  split_and!; reflexivity.
Qed.

(** C2 on the code: a sequence of one navigation with [screenshot_after] on
    the session of [one_session] completes with one capture; the path is in
    the session's in-memory list [session["screenshots"]], and neither the
    in-memory metadata nor [metadata.json] records a screenshot. *)
Theorem sequence_capture_not_persisted :
  ∃ results ts w' session' d m,
    execute_sequence healthy_engine "abc12345" [goto_example] one_session
    = (Return (Completed "abc12345" 1 results
                 [step_screenshot_path "abc12345" 0] ts), w')
    ∧ sessions w' !! "abc12345" = Some session'
    ∧ sd_screenshots session' = [step_screenshot_path "abc12345" 0]
    ∧ md_screenshots (metadata session') = []
    ∧ fs w' !! session_path "abc12345" = Some d
    ∧ metadata_json d = Json m
    ∧ md_screenshots m = []
    ∧ md_total_actions m = 0.
Proof.
  destruct (execute_sequence healthy_engine "abc12345" [goto_example]
              one_session) as [o w'] eqn:Hrun.
  vm_compute in Hrun. injection Hrun as <- <-.
  eexists _, _, _, _, _, _.
  split; [reflexivity|].
  split; [vm_compute; reflexivity|].
  split; [reflexivity|]. split; [reflexivity|].
  split; [vm_compute; reflexivity|].
  split_and!; reflexivity.
Qed.

Lemma one_session_later_reachable :
  reachable healthy_engine one_session_later.
Proof.
  exact (reachable_step healthy_engine one_session (OpTick 5000000)
           one_session_reachable).
Qed.

Lemma healthy_engine_teardown : teardown_returns healthy_engine.
Proof. by intros history session_id. Qed.

(** The store of [one_session_later] holds the session [abc12345] only. *)
Lemma one_session_later_store :
  sessions one_session_later
  = {[ "abc12345" :=
         mkSessionData [] [] [] 1700000000000000 0 1700000000000000 false
           (mkMetadata "abc12345" 1700000000000000 "chromium" true
              (1280%Z, 720%Z) false "active" 0 [] [] [] 1700000000000000
              (session_path "abc12345")) ]}.
Proof. vm_compute. reflexivity. Qed.

Lemma sweep_zero_archives_all_witness :
  reachable healthy_engine one_session_later
  ∧ teardown_returns healthy_engine
  ∧ ∃ cleaned w',
      cleanup_old_sessions healthy_engine 0 one_session_later
      = (Return cleaned, w')
      ∧ sessions w' = ∅
      ∧ fs w' !! session_path "abc12345" = None
      ∧ mkCleanedSession "abc12345" 1700000000000000
          (archived_path "abc12345" 1700000000000000) ∈ cleaned.
Proof.
  split; [exact one_session_later_reachable|].
  split; [exact healthy_engine_teardown|].
  assert (Hold : ∀ session_id session,
    sessions one_session_later !! session_id = Some session →
    (md_last_activity (metadata session) < clock one_session_later)%Z).
  { intros sid s. rewrite one_session_later_store.
    intros [<- <-]%lookup_singleton_Some. reflexivity. }
  assert (Hfresh : ∀ session_id session,
    sessions one_session_later !! session_id = Some session →
    fs one_session_later
      !! archived_path session_id (md_last_activity (metadata session))
    = None).
  { intros sid s. rewrite one_session_later_store.
    intros [<- <-]%lookup_singleton_Some. vm_compute. reflexivity. }
  destruct (sweep_zero_archives_all healthy_engine one_session_later
              one_session_later_reachable healthy_engine_teardown Hold Hfresh)
    as (cleaned & w' & Hrun & Hempty & Hall).
  exists cleaned, w'. split; [exact Hrun|]. split; [exact Hempty|].
  assert (Hs : sessions one_session_later !! "abc12345"
               = Some (mkSessionData [] [] [] 1700000000000000 0
                         1700000000000000 false
                         (mkMetadata "abc12345" 1700000000000000 "chromium"
                            true (1280%Z, 720%Z) false "active" 0 [] [] []
                            1700000000000000 (session_path "abc12345")))).
  { rewrite one_session_later_store. apply lookup_singleton_eq. }
  destruct (Hall _ _ _ Hs eq_refl) as (_ & Hgone & _ & Hin).
  split; [exact Hgone|exact Hin].
Defined.

(** C5 as stated fails when the error capture raises: the capture in the
    [except] clause of [execute_sequence] is not guarded.  When the page has
    crashed the click raises, the error screenshot raises too, and that
    exception leaves the endpoint: no response with status [error] is
    returned.  The session is still in the store. *)
Example error_capture_raises :
  ∃ w',
    execute_sequence crashed_engine "abc12345" [click_example] one_session
    = (Raise (Exception "Target page, context or browser has been closed"),
       w')
    ∧ is_Some (sessions w' !! "abc12345").
Proof.
  destruct (execute_sequence crashed_engine "abc12345" [click_example]
              one_session) as [o w'] eqn:Hrun.
  vm_compute in Hrun. injection Hrun as <- <-.
  exists (mkWorld (sessions one_session) (fs one_session)
            [("abc12345", PlaywrightStart);
             ("abc12345", Launch "chromium" true);
             ("abc12345", NewContext (1280%Z, 720%Z) None);
             ("abc12345", NewPage);
             ("abc12345", Click (Some "#btn") (Some 5000%Z));
             ("abc12345", Screenshot (error_screenshot_path "abc12345"))]
            1700000000000000).
  split; [vm_compute; reflexivity|].
  simpl. rewrite <- (fmap_is_Some metadata). vm_compute. eauto.
Qed.

(** The age test of the sweep is strict: a session whose last activity is the
    very clock reading of the sweep does not exceed the maximum age 0 and
    stays. *)
Example sweep_keeps_session_of_the_same_instant :
  cleanup_old_sessions healthy_engine 0 one_session = (Return [], one_session).
Proof. vm_compute. reflexivity. Qed.

(** ** The further properties on the example worlds *)

Lemma busy_session_reachable : reachable healthy_engine busy_session.
Proof.
  exact (reachable_step healthy_engine _
           (OpExecuteSequence "abc12345" [goto_example])
           (reachable_step healthy_engine _
              (OpAddAsset Traces "abc12345" "" "interaction trace" "")
              (reachable_step healthy_engine _ (OpTakeScreenshot "abc12345")
                 one_session_reachable))).
Qed.

Lemma total_actions_counts_screenshots_witness :
  ∃ s,
    reachable healthy_engine busy_session
    ∧ sessions busy_session !! "abc12345" = Some s
    ∧ md_total_actions (metadata s) = length (md_screenshots (metadata s))
    ∧ action_count s = 0.
Proof.
  destruct (sessions busy_session !! "abc12345") as [s|] eqn:Hs;
    [|exfalso; vm_compute in Hs; discriminate].
  exists s. split; [exact busy_session_reachable|]. split; [reflexivity|].
  destruct (total_actions_counts_screenshots healthy_engine busy_session
              "abc12345" s busy_session_reachable Hs) as (Ht & Hc & _).
  split; [exact Ht|exact Hc].
Defined.

Lemma session_lists_agree_witness :
  ∃ s st r,
    reachable healthy_engine busy_session
    ∧ sessions busy_session !! "abc12345" = Some s
    ∧ get_session_status "abc12345" busy_session = (Return st, busy_session)
    ∧ get_session_assets "abc12345" busy_session = (Return r, busy_session)
    ∧ (total_screenshots r ≤ screenshots_count st)%nat.
Proof.
  destruct (sessions busy_session !! "abc12345") as [s|] eqn:Hs;
    [|exfalso; vm_compute in Hs; discriminate].
  destruct (session_lists_agree healthy_engine busy_session "abc12345" s
              busy_session_reachable Hs)
    as (_ & _ & _ & st & r & Hst & Hr & Hle).
  exists s, st, r.
  split; [exact busy_session_reachable|]. split; [reflexivity|].
  split; [exact Hst|]. split; [exact Hr|exact Hle].
Defined.

Lemma asset_entries_named_witness :
  ∃ s,
    reachable healthy_engine busy_session
    ∧ sessions busy_session !! "abc12345" = Some s
    ∧ Forall (λ e, contains_char " " (filename e) = false)
        (md_assets Traces (metadata s)).
Proof.
  destruct (sessions busy_session !! "abc12345") as [s|] eqn:Hs;
    [|exfalso; vm_compute in Hs; discriminate].
  exists s. split; [exact busy_session_reachable|]. split; [reflexivity|].
  eapply Forall_impl;
    [exact (asset_entries_named healthy_engine busy_session "abc12345" s
              Traces busy_session_reachable Hs)|].
  intros e (_ & Hspace & _). exact Hspace.
Defined.

Lemma asset_paths_distinct_witness :
  ∃ s,
    reachable healthy_engine busy_session
    ∧ sessions busy_session !! "abc12345" = Some s
    ∧ NoDup (filepath <$> all_assets (metadata s)).
Proof.
  destruct (sessions busy_session !! "abc12345") as [s|] eqn:Hs;
    [|exfalso; vm_compute in Hs; discriminate].
  exists s. split; [exact busy_session_reachable|]. split; [reflexivity|].
  exact (asset_paths_distinct healthy_engine busy_session "abc12345" s
           busy_session_reachable Hs).
Defined.

Lemma create_session_registers_witness :
  accepts healthy_engine (calls (initial 1700000000000000))
    (uuid_str_8 example_uuid)
    (launch_calls (uuid_str_8 example_uuid) "chromium" true 1280 720 false)
  = true
  ∧ ∃ w',
      create_session healthy_engine example_uuid "chromium" true 1280 720
        false (initial 1700000000000000)
      = (Return "abc12345", w')
      ∧ ∀ kind,
          SessionManager._get_next_sequence_number w' "abc12345" kind = 1.
Proof.
  split; [reflexivity|].
  destruct (create_session_registers healthy_engine example_uuid "chromium"
              true 1280 720 false (initial 1700000000000000) eq_refl)
    as (w' & d & Hrun & _ & _ & _ & _ & _ & _ & Hnext).
  exists w'. split; [exact Hrun|exact Hnext].
Defined.

Lemma create_session_failure_witness :
  accepts no_browser_engine (calls (initial 1700000000000000))
    (uuid_str_8 example_uuid)
    (launch_calls (uuid_str_8 example_uuid) "chromium" true 1280 720 false)
  = false
  ∧ ∃ msg w',
      create_session no_browser_engine example_uuid "chromium" true 1280 720
        false (initial 1700000000000000)
      = (Raise (HTTPException 500 ("Failed to create session: " +:+ msg)), w')
      ∧ sessions w' = sessions (initial 1700000000000000)
      ∧ fs w' !! session_path "abc12345" = Some (mkSessionDir NoFile []).
Proof.
  split; [reflexivity|].
  destruct (create_session_failure no_browser_engine example_uuid "chromium"
              true 1280 720 false (initial 1700000000000000) eq_refl)
    as (msg & w' & Hrun & Hs & _ & Hdir & _).
  exists msg, w'. split; [exact Hrun|]. split; [exact Hs|].
  apply Hdir. reflexivity.
Defined.

(** The world [one_session] is reached on the Playwright library too:
    creating a session issues no release call. *)
Lemma one_session_reachable_playwright :
  reachable playwright_engine one_session.
Proof.
  exact (reachable_step playwright_engine (initial 1700000000000000)
           (OpCreateSession example_uuid "chromium" true 1280 720 false)
           (reachable_initial playwright_engine 1700000000000000)).
Qed.

Lemma playwright_engine_aexit : aexit_raises playwright_engine.
Proof. by intros history session_id. Qed.

Lemma close_session_marks_completed_witness :
  ∃ s d msg w',
    reachable playwright_engine one_session
    ∧ sessions one_session !! "abc12345" = Some s
    ∧ fs one_session !! session_path "abc12345" = Some d
    ∧ md_record_video (metadata s) = false
    ∧ close_session playwright_engine "abc12345" one_session
      = (Raise (Exception msg), w')
    ∧ sessions w'
      = <["abc12345" := completed s (clock one_session)]>
          (sessions one_session)
    ∧ get_session_assets "abc12345" w'
      = (Return (assets_of "abc12345"
                   (completed_metadata (metadata s) (clock one_session))
                   (clock one_session)), w').
Proof.
  destruct (sessions one_session !! "abc12345") as [s|] eqn:Hs;
    [|exfalso; vm_compute in Hs; discriminate].
  destruct (fs one_session !! session_path "abc12345") as [d|] eqn:Hd;
    [|exfalso; vm_compute in Hd; discriminate].
  assert (Hrv : md_record_video (metadata s) = false)
    by (vm_compute in Hs; injection Hs as <-; reflexivity).
  destruct (close_session_marks_completed playwright_engine one_session
              "abc12345" s d one_session_reachable_playwright Hs Hd
              (or_introl Hrv))
    as (o & w' & Hrun & _ & _ & Hassets & Hout).
  assert (Hacc : accepts playwright_engine (calls one_session) "abc12345"
                   teardown_calls = false) by reflexivity.
  rewrite Hacc in Hout. destruct Hout as [[msg ->] Hs'].
  exists s, d, msg, w'.
  split; [exact one_session_reachable_playwright|]. split; [reflexivity|].
  split; [reflexivity|]. split; [exact Hrv|]. split; [exact Hrun|].
  split; [exact Hs'|exact Hassets].
Defined.

Lemma recording_session_reachable :
  reachable playwright_engine recording_session.
Proof.
  exact (reachable_step playwright_engine _
           (OpVideoWritten "abc12345" "f3a9c1.webm")
           (reachable_step playwright_engine (initial 1700000000000000)
              (OpCreateSession example_uuid "chromium" true 1280 720 true)
              (reachable_initial playwright_engine 1700000000000000))).
Qed.

Lemma close_session_registers_recording_witness :
  ∃ s d msg w' d' m' e s',
    reachable playwright_engine recording_session
    ∧ sessions recording_session !! "abc12345" = Some s
    ∧ fs recording_session !! session_path "abc12345" = Some d
    ∧ md_record_video (metadata s) = true
    ∧ first_video d = Some "f3a9c1.webm"
    ∧ close_session playwright_engine "abc12345" recording_session
      = (Raise (Exception msg), w')
    ∧ fs w' !! session_path "abc12345" = Some d'
    ∧ metadata_json d' = Json m'
    ∧ md_videos m' = md_videos (metadata s) ++ [e]
    ∧ filename e ∈ videos_dir d'
    ∧ sessions w' !! "abc12345" = Some s'
    ∧ metadata s' = m'.
Proof.
  destruct (sessions recording_session !! "abc12345") as [s|] eqn:Hs;
    [|exfalso; vm_compute in Hs; discriminate].
  destruct (fs recording_session !! session_path "abc12345") as [d|] eqn:Hd;
    [|exfalso; vm_compute in Hd; discriminate].
  assert (Hrv : md_record_video (metadata s) = true)
    by (vm_compute in Hs; injection Hs as <-; reflexivity).
  assert (Hv : first_video d = Some "f3a9c1.webm")
    by (vm_compute in Hd; injection Hd as <-; reflexivity).
  destruct (close_session_registers_recording playwright_engine
              recording_session "abc12345" s d "f3a9c1.webm"
              recording_session_reachable Hs Hd Hrv Hv)
    as (o & w' & d' & m' & e & Hrun & Hd' & Hm' & _ & Hvideos & _ & _ & _ & _
        & _ & _ & _ & Hin & Hout).
  assert (Hacc : accepts playwright_engine (calls recording_session)
                   "abc12345" teardown_calls = false) by reflexivity.
  rewrite Hacc in Hout. destruct Hout as [[msg ->] (s' & Hs' & Hmeta)].
  exists s, d, msg, w', d', m', e, s'.
  split; [exact recording_session_reachable|]. split; [reflexivity|].
  split; [reflexivity|]. split; [exact Hrv|]. split; [exact Hv|].
  split; [exact Hrun|]. split; [exact Hd'|]. split; [exact Hm'|].
  split; [exact Hvideos|]. split; [exact Hin|].
  split; [exact Hs'|exact Hmeta].
Defined.

Lemma one_session_reachable_stuck : reachable stuck_engine one_session.
Proof.
  exact (reachable_step stuck_engine (initial 1700000000000000)
           (OpCreateSession example_uuid "chromium" true 1280 720 false)
           (reachable_initial stuck_engine 1700000000000000)).
Qed.

Lemma close_session_failure_keeps_session_witness :
  ∃ s msg w' s',
    reachable stuck_engine one_session
    ∧ sessions one_session !! "abc12345" = Some s
    ∧ accepts stuck_engine (calls one_session) "abc12345" teardown_calls
      = false
    ∧ close_session stuck_engine "abc12345" one_session
      = (Raise (Exception msg), w')
    ∧ sessions w' !! "abc12345" = Some s'
    ∧ md_status (metadata s') = "completed".
Proof.
  destruct (sessions one_session !! "abc12345") as [s|] eqn:Hs;
    [|exfalso; vm_compute in Hs; discriminate].
  destruct (close_session_failure_keeps_session stuck_engine one_session
              "abc12345" s one_session_reachable_stuck Hs eq_refl)
    as (msg & w' & s' & d' & st & r & Hrun & Hs' & Hstatus & _).
  exists s, msg, w', s'.
  split; [exact one_session_reachable_stuck|]. split; [reflexivity|].
  split; [reflexivity|]. split; [exact Hrun|].
  split; [exact Hs'|exact Hstatus].
Defined.

Lemma take_screenshot_records_before_capture_witness :
  ∃ s o w' e,
    reachable healthy_engine one_session
    ∧ sessions one_session !! "abc12345" = Some s
    ∧ take_screenshot healthy_engine "abc12345" one_session = (o, w')
    ∧ filename e
      = format_03d (length (md_screenshots (metadata s)) + 1)
        +:+ "_manual_screenshot.png"
    ∧ calls w'
      = calls one_session ++ [("abc12345", Screenshot (filepath e))].
Proof.
  destruct (sessions one_session !! "abc12345") as [s|] eqn:Hs;
    [|exfalso; vm_compute in Hs; discriminate].
  destruct (take_screenshot_records_before_capture healthy_engine one_session
              "abc12345" s one_session_reachable Hs)
    as (o & w' & s' & d' & e & Hrun & Hname & _ & _ & _ & _ & _ & _ & _
        & Hcalls & _).
  exists s, o, w', e.
  split; [exact one_session_reachable|]. split; [reflexivity|].
  split; [exact Hrun|]. split; [exact Hname|exact Hcalls].
Defined.

Lemma session_endpoints_not_found_witness :
  sessions one_session !! "deadbeef" = None
  ∧ get_session_status "deadbeef" one_session
    = (Raise (HTTPException 404 "Session not found"), one_session)
  ∧ take_screenshot healthy_engine "deadbeef" one_session
    = (Raise (HTTPException 404 "Session not found"), one_session).
Proof.
  split; [reflexivity|].
  destruct (session_endpoints_not_found healthy_engine one_session "deadbeef"
              eq_refl) as (Hstatus & _ & Hshot & _).
  split; [exact Hstatus|exact Hshot].
Defined.

Lemma restarted_session_reachable :
  reachable playwright_engine restarted_session.
Proof.
  exact (reachable_step playwright_engine one_session OpRestart
           one_session_reachable_playwright).
Qed.

Lemma cleanup_session_removes_witness :
  (reachable playwright_engine one_session
   ∧ is_Some (sessions one_session !! "abc12345")
   ∧ ∃ msg w' s' d',
       cleanup_session playwright_engine "abc12345" one_session
       = (Raise (Exception msg), w')
       ∧ sessions w' !! "abc12345" = Some s'
       ∧ md_status (metadata s') = "completed"
       ∧ fs w' !! session_path "abc12345" = Some d')
  ∧ (reachable playwright_engine restarted_session
     ∧ sessions restarted_session !! "abc12345" = None
     ∧ is_Some (fs restarted_session !! session_path "abc12345")
     ∧ cleanup_session playwright_engine "abc12345" restarted_session
       = (Return "abc12345",
          set_fs (delete (session_path "abc12345")) restarted_session)).
Proof.
  assert (Hs : is_Some (sessions one_session !! "abc12345")).
  { rewrite <- (fmap_is_Some metadata). vm_compute. eauto. }
  assert (Hd : is_Some (fs restarted_session !! session_path "abc12345")).
  { rewrite <- (fmap_is_Some metadata_json). vm_compute. eauto. }
  split.
  - split; [exact one_session_reachable_playwright|]. split; [exact Hs|].
    destruct (proj2 (proj2 (cleanup_session_removes playwright_engine
                              one_session "abc12345"
                              one_session_reachable_playwright)) Hs)
      as (o & w' & Hrun & _ & _ & Hout).
    assert (Hacc : accepts playwright_engine (calls one_session) "abc12345"
                     teardown_calls = false) by reflexivity.
    rewrite Hacc in Hout.
    destruct Hout as [[msg ->] (s' & d' & Hs' & Hstatus & Hd' & _)].
    by exists msg, w', s', d'.
  - split; [exact restarted_session_reachable|]. split; [reflexivity|].
    split; [exact Hd|].
    exact (proj1 (proj1 (proj2 (cleanup_session_removes playwright_engine
                                  restarted_session "abc12345"
                                  restarted_session_reachable))
                    eq_refl Hd)).
Defined.

Lemma sequence_completes_witness :
  ∃ s w' s' st,
    sessions one_session !! "abc12345" = Some s
    ∧ Forall (λ a, action a ≠ "wait_for_screenshot_analysis")
        [goto_example; click_example]
    ∧ accepts healthy_engine (calls one_session) "abc12345"
        (sequence_calls "abc12345" 0 [goto_example; click_example]) = true
    ∧ execute_sequence healthy_engine "abc12345" [goto_example; click_example]
        one_session
      = (Return (Completed "abc12345" 2
                   (sequence_results "abc12345" 0
                      [goto_example; click_example])
                   (sequence_captures "abc12345" 0
                      [goto_example; click_example])
                   (clock one_session)), w')
    ∧ sessions w' = <["abc12345" := s']> (sessions one_session)
    ∧ metadata s' = metadata s
    ∧ capture_paths (calls w')
      = capture_paths (calls one_session)
        ++ [step_screenshot_path "abc12345" 0]
    ∧ get_session_status "abc12345" w' = (Return st, w')
    ∧ screenshots_count st = length (sd_screenshots s) + 1.
Proof.
  destruct (sessions one_session !! "abc12345") as [s|] eqn:Hs;
    [|exfalso; vm_compute in Hs; discriminate].
  assert (Hall : Forall (λ a, action a ≠ "wait_for_screenshot_analysis")
                   [goto_example; click_example]).
  { repeat constructor; discriminate. }
  destruct (sequence_completes healthy_engine one_session "abc12345" s
              [goto_example; click_example] Hs Hall eq_refl)
    as (w' & s' & st & Hrun & Hs' & _ & Hmeta & _ & _ & _ & Hfiles & _ & Hst
        & Hcount).
  exists s, w', s', st.
  split; [reflexivity|]. split; [exact Hall|]. split; [reflexivity|].
  split; [exact Hrun|]. split; [exact Hs'|]. split; [exact Hmeta|].
  split; [exact Hfiles|]. split; [exact Hst|exact Hcount].
Defined.

Lemma sweep_keeps_recent_witness :
  ∃ d cleaned w',
    reachable healthy_engine one_session_later
    ∧ fs one_session_later !! session_path "abc12345" = Some d
    ∧ cleanup_old_sessions healthy_engine 24 one_session_later
      = (Return cleaned, w')
    ∧ fs w' !! session_path "abc12345" = Some d
    ∧ sessions w' !! "abc12345" = sessions one_session_later !! "abc12345".
Proof.
  destruct (fs one_session_later !! session_path "abc12345") as [d|] eqn:Hd;
    [|exfalso; vm_compute in Hd; discriminate].
  assert (Hrecent : ∀ m,
    metadata_json d = Json m →
    (clock one_session_later - md_last_activity m
     ≤ 24 * 3600 * 1000000)%Z).
  { vm_compute in Hd. injection Hd as <-. intros m [= <-]. by vm_compute. }
  destruct (sweep_keeps_recent healthy_engine 24 one_session_later
              (session_path "abc12345") d one_session_later_reachable Hd
              Hrecent)
    as (cleaned & w' & Hrun & Hd' & Hs' & _).
  exists d, cleaned, w'.
  split; [exact one_session_later_reachable|]. split; [reflexivity|].
  split; [exact Hrun|]. split; [exact Hd'|]. exact (Hs' _ eq_refl).
Defined.

Lemma swept_session_reachable : reachable healthy_engine swept_session.
Proof.
  exact (reachable_step healthy_engine one_session_later
           (OpCleanupOldSessions 0) one_session_later_reachable).
Qed.

Lemma sweep_spares_archive_witness :
  ∃ d cleaned w',
    reachable healthy_engine swept_session
    ∧ fs swept_session !! archived_path "abc12345" 1700000000000000 = Some d
    ∧ glob_match (archived_path "abc12345" 1700000000000000) = false
    ∧ cleanup_old_sessions healthy_engine 0 swept_session
      = (Return cleaned, w')
    ∧ fs w' !! archived_path "abc12345" 1700000000000000 = Some d.
Proof.
  destruct (fs swept_session !! archived_path "abc12345" 1700000000000000)
    as [d|] eqn:Hd; [|exfalso; vm_compute in Hd; discriminate].
  destruct (sweep_spares_archive healthy_engine 0 swept_session
              (archived_path "abc12345" 1700000000000000) d
              swept_session_reachable Hd eq_refl)
    as (cleaned & w' & Hrun & Hd').
  exists d, cleaned, w'.
  split; [exact swept_session_reachable|]. split; [reflexivity|].
  split; [reflexivity|]. split; [exact Hrun|exact Hd'].
Defined.

Lemma sweep_reports_archived_witness :
  ∃ cleaned w',
    reachable healthy_engine one_session_later
    ∧ cleanup_old_sessions healthy_engine 0 one_session_later
      = (Return cleaned, w')
    ∧ clock w' = clock one_session_later
    ∧ Forall (λ c, sessions w' !! cs_session_id c = None
                   ∧ is_Some (fs w' !! archived_to c)) cleaned.
Proof.
  destruct (sweep_reports_archived healthy_engine 0 one_session_later
              one_session_later_reachable)
    as (cleaned & w' & Hrun & Hclock & Hall).
  exists cleaned, w'.
  split; [exact one_session_later_reachable|]. split; [exact Hrun|].
  split; [exact Hclock|].
  eapply Forall_impl; [exact Hall|].
  intros c (_ & _ & _ & Hs & _ & Harch & _). split; [exact Hs|exact Harch].
Defined.

Lemma assets_survive_restart_witness :
  ∃ s,
    reachable healthy_engine busy_session
    ∧ sessions busy_session !! "abc12345" = Some s
    ∧ get_session_assets "abc12345"
        (run_op healthy_engine OpRestart busy_session)
      = (Return (assets_of "abc12345" (metadata s) (clock busy_session)),
         run_op healthy_engine OpRestart busy_session).
Proof.
  destruct (sessions busy_session !! "abc12345") as [s|] eqn:Hs;
    [|exfalso; vm_compute in Hs; discriminate].
  exists s. split; [exact busy_session_reachable|]. split; [reflexivity|].
  exact (proj2 (assets_survive_restart healthy_engine busy_session "abc12345"
                  s busy_session_reachable Hs)).
Defined.

Lemma session_requests_are_isolated_witness :
  reachable healthy_engine one_session
  ∧ (∀ actions,
       touches_only "abc12345" one_session
         (execute_sequence healthy_engine "abc12345" actions one_session).2
       ∧ calls_only "abc12345" one_session
           (execute_sequence healthy_engine "abc12345" actions
              one_session).2).
Proof.
  split; [exact one_session_reachable|].
  destruct (session_requests_are_isolated healthy_engine one_session
              "abc12345" one_session_reachable) as (_ & _ & Hseq & _).
  exact Hseq.
Defined.

(** The sweep with maximum age 0 on the Playwright library, five seconds
    after the session [abc12345] was created: nothing is archived. *)
Lemma one_session_later_reachable_playwright :
  reachable playwright_engine one_session_later.
Proof.
  exact (reachable_step playwright_engine one_session (OpTick 5000000)
           one_session_reachable_playwright).
Qed.

Lemma sweep_never_archives_active_witness :
  ∃ s w',
    reachable playwright_engine one_session_later
    ∧ aexit_raises playwright_engine
    ∧ sessions one_session_later !! "abc12345" = Some s
    ∧ (md_last_activity (metadata s) < clock one_session_later)%Z
    ∧ cleanup_old_sessions playwright_engine 0 one_session_later
      = (Return [], w')
    ∧ is_Some (sessions w' !! "abc12345")
    ∧ is_Some (fs w' !! session_path "abc12345")
    ∧ fs w' !! archived_path "abc12345" (md_last_activity (metadata s))
      = None.
Proof.
  destruct (sessions one_session_later !! "abc12345") as [s|] eqn:Hs;
    [|exfalso; vm_compute in Hs; discriminate].
  assert (Hold : (md_last_activity (metadata s) < clock one_session_later)%Z)
    by (vm_compute in Hs; injection Hs as <-; reflexivity).
  destruct (sweep_never_archives_active playwright_engine 0
              one_session_later one_session_later_reachable_playwright
              playwright_engine_aexit)
    as (cleaned & w' & Hrun & _ & Hkeep).
  destruct (Hkeep "abc12345" s Hs) as (Hs' & Hd' & _).
  assert (Hcleaned :
    (cleanup_old_sessions playwright_engine 0 one_session_later).1
    = Return []) by (vm_compute; reflexivity).
  rewrite Hrun in Hcleaned. injection Hcleaned as ->.
  assert (Hfree :
    fs (cleanup_old_sessions playwright_engine 0 one_session_later).2
      !! archived_path "abc12345" (md_last_activity (metadata s)) = None).
  { vm_compute in Hs. injection Hs as <-. vm_compute. reflexivity. }
  rewrite Hrun in Hfree.
  exists s, w'.
  split; [exact one_session_later_reachable_playwright|].
  split; [exact playwright_engine_aexit|]. split; [reflexivity|].
  split; [exact Hold|]. split; [exact Hrun|]. split; [exact Hs'|].
  split; [exact Hd'|exact Hfree].
Defined.
